(** * gem5 experiment drivers: a shallow embedding and its properties

    The repository holds three Python scripts:
    - [assignment3.py], the gem5 configuration script (argument parsing,
      cache hierarchy, board);
    - [run_experiments.py], a driver that runs the script once per cache
      configuration and collects statistics into a CSV file;
    - [classify_misses.py], the same driver specialised to three
      configurations whose L1D miss counters are differenced into cold,
      capacity and conflict misses.

    Python text is a sequence of Unicode code points, here [list N].
    Exceptions are values of [exn]; code that talks to the operating
    system runs in the monad [M] over a [Runtime]. *)

From Stdlib Require Import ZArith NArith List Lia Ascii String Floats.
From Stdlib Require Import DecimalString DecimalPos.
From stdpp Require Import base option list gmap.

Import ListNotations.
Local Open Scope Z_scope.

(** ** Text *)

(** A Python [str]: its code points. *)
Abbreviation str := (list N).

(** An ASCII literal of the source as a [str]. *)
Definition u (s : string) : str := map N_of_ascii (list_ascii_of_string s).

(** [str.isspace] on one character, which is also the class [\s] of [re] on
    [str] patterns (CPython's [Py_UNICODE_ISSPACE]). *)
Definition isspace (c : N) : bool :=
  ((9 <=? c) && (c <=? 13) || (28 <=? c) && (c <=? 32)
   || (c =? 133) || (c =? 160) || (c =? 5760)
   || (8192 <=? c) && (c <=? 8202)
   || (c =? 8232) || (c =? 8233) || (c =? 8239) || (c =? 8287)
   || (c =? 12288))%N.

Definition nonspace (c : N) : bool := negb (isspace c).

(** The longest prefix whose characters satisfy [p], and what follows it. *)
Fixpoint span (p : N -> bool) (s : str) : str * str :=
  match s with
  | [] => ([], [])
  | c :: s' => if p c then let '(a, b) := span p s' in (c :: a, b) else ([], s)
  end.

(** [s.lstrip()], [s.rstrip()] and [s.strip()]. *)
Definition lstrip (s : str) : str := snd (span isspace s).
Definition rstrip (s : str) : str := rev (lstrip (rev s)).
Definition strip (s : str) : str := rstrip (lstrip s).

(** [s.split(sep)[0]] for a one-character separator: the text before the
    first [sep], all of [s] when there is none. *)
Definition split_head (sep : N) (s : str) : str :=
  fst (span (fun c => negb (c =? sep)%N) s).

Definition str_eqb (a b : str) : bool := bool_decide (a = b).

(** The decimal numeral of an integer: what [str(n)] and [f"{n}"] give
    for an [int] of at most 4300 digits, as are the constants the drivers
    format; [py_str] below has the limit. *)
Definition str_of_Z (z : Z) : str := u (NilZero.string_of_int (Z.to_int z)).

(** ** Values and exceptions *)

(** The values an attribute of the namespace can hold: [None], a [str],
    an [int], and the empty list [[]]. *)
Inductive pyval :=
| PyNone
| PyStr (s : str)
| PyInt (z : Z)
| PyEmptyList.

#[global] Instance pyval_eq_dec : EqDecision pyval.
Proof. solve_decision. Defined.

Inductive exn :=
| ValueError
| ZeroDivisionError
| OverflowError
| AttributeError (name : str)
| KeyError (key : str)
| SystemExit (code : Z)
| CalledProcessError (returncode : Z) (stderr : str).

Inductive res (A : Type) :=
| Ok (a : A)
| Raise (e : exn).
Arguments Ok {A} a.
Arguments Raise {A} e.

Definition res_bind {A B} (r : res A) (k : A -> res B) : res B :=
  match r with
  | Ok a => k a
  | Raise e => Raise e
  end.

Notation "x <-! r ; k" := (res_bind r (fun x => k))
  (at level 100, r at next level, right associativity).

(** ** The fragment of [re] the drivers use *)

Module Re.

(** A compiled pattern is a sequence of nodes. [GroupOpen] and
    [GroupClose] are the parentheses of capture group 1. *)
Inductive node :=
| Bol
| Lit (c : N)
| Plus (cls : N -> bool)
| GroupOpen
| GroupClose.

(** [re.escape(s)]: every character of [s] stands for itself. *)
Definition escape (s : str) : list node := map Lit s.

(** [^] under [re.MULTILINE]: at the start of the text or just after a
    newline. [prev] is the character before the position, if any. *)
Definition at_bol (prev : option N) : bool :=
  match prev with
  | None => true
  | Some c => (c =? 10)%N
  end.

(** The character before the position reached after consuming [k]
    characters of [rest]. *)
Definition prev_after (prev : option N) (rest : str) (k : nat) : option N :=
  match k with
  | O => prev
  | S k' => match nth_error rest k' with Some c => Some c | None => prev end
  end.

(** The first of [f k], [f (k-1)], ..., [f 1] that is a match. *)
Fixpoint give_back (f : nat -> option str) (k : nat) : option str :=
  match k with
  | O => None
  | S k' =>
      match f k with
      | Some g => Some g
      | None => give_back f k'
      end
  end.

(** The backtracking matcher at one position. [opened] is the input that
    remained when group 1 was opened and [g1] the text captured so far.
    A greedy [Plus] first takes every character of its class and gives
    them back one at a time while the rest of the pattern fails. *)
Fixpoint match_here (p : list node) (prev : option N) (rest : str)
    (opened : str) (g1 : str) : option str :=
  match p with
  | [] => Some g1
  | Bol :: p' =>
      if at_bol prev then match_here p' prev rest opened g1 else None
  | Lit c :: p' =>
      match rest with
      | d :: rest' =>
          if (c =? d)%N then match_here p' (Some d) rest' opened g1 else None
      | [] => None
      end
  | Plus cls :: p' =>
      give_back
        (fun k => match_here p' (prev_after prev rest k) (skipn k rest) opened g1)
        (length (fst (span cls rest)))
  | GroupOpen :: p' => match_here p' prev rest rest g1
  | GroupClose :: p' =>
      match_here p' prev rest opened
        (firstn (length opened - length rest) opened)
  end.

(** [re.search]: the match at the leftmost position that has one;
    the result is [match.group(1)]. *)
Fixpoint search_from (p : list node) (prev : option N) (rest : str)
    : option str :=
  match match_here p prev rest [] [] with
  | Some g => Some g
  | None =>
      match rest with
      | [] => None
      | c :: rest' => search_from p (Some c) rest'
      end
  end.

Definition search (p : list node) (s : str) : option str :=
  search_from p None s.

End Re.

(** The pattern [rf'^{re.escape(stat_name)}\s+(\S+)'] of both drivers. *)
Definition stat_pattern (stat_name : str) : list Re.node :=
  [Re.Bol] ++ Re.escape stat_name
  ++ [Re.Plus isspace; Re.GroupOpen; Re.Plus nonspace; Re.GroupClose].

(** ** Built-in conversions *)

Definition digit_val (c : N) : option Z :=
  if ((48 <=? c) && (c <=? 57))%N then Some (Z.of_N (c - 48)) else None.

(** The digits of an integer literal: decimal digits, single underscores
    allowed between two digits. *)
Fixpoint int_digits (s : str) (acc : Z) (after_digit : bool) : option Z :=
  match s with
  | [] => if after_digit then Some acc else None
  | c :: s' =>
      if (c =? 95)%N then
        if after_digit then int_digits s' acc false else None
      else
        match digit_val c with
        | Some d => int_digits s' (10 * acc + d) true
        | None => None
        end
  end.

(** [Py_ISSPACE], the whitespace [int] skips around a literal: tab, line
    feed, vertical tab, form feed, carriage return and space. The
    separators U+001C to U+001F, which [str.strip] removes, are not among
    them. *)
Definition ascii_space (c : N) : bool := ((9 <=? c) && (c <=? 13) || (c =? 32))%N.

Definition strip_ascii (s : str) : str :=
  rev (snd (span ascii_space (rev (snd (span ascii_space s))))).

(** The digit zero of every decimal script (general category Nd of
    Unicode 14.0, the version of CPython 3.11); the nine code points after
    each are its digits one to nine. *)
Definition decimal_zeros : list N :=
  [ 48; 1632; 1776; 1984; 2406; 2534; 2662; 2790; 2918; 3046; 3174; 3302;
    3430; 3558; 3664; 3792; 3872; 4160; 4240; 6112; 6160; 6470; 6608; 6784;
    6800; 6992; 7088; 7232; 7248; 42528; 43216; 43264; 43472; 43504; 43600;
    44016; 65296; 66720; 68912; 69734; 69872; 69942; 70096; 70384; 70736;
    70864; 71248; 71360; 71472; 71904; 72016; 72784; 73040; 73120; 92768;
    92864; 93008; 120782; 120792; 120802; 120812; 120822; 123200; 123632;
    125264; 130032 ]%N.

(** [Py_UNICODE_TODECIMAL]. *)
Definition decimal_value (c : N) : option N :=
  match List.find (fun z => (z <=? c) && (c <? z + 10))%N decimal_zeros with
  | Some z => Some (c - z)%N
  | None => None
  end.

(** What [int] does first with a text that is not all ASCII: a code point
    below 127 stays, Unicode whitespace becomes a space, a decimal digit of
    any script its ASCII digit, and the text is cut with a [?] at the
    first code point that is none of these. *)
Fixpoint to_ascii_digits (s : str) : str :=
  match s with
  | [] => []
  | c :: s' =>
      if (c <? 127)%N then c :: to_ascii_digits s'
      else if isspace c then 32%N :: to_ascii_digits s'
      else
        match decimal_value c with
        | Some d => (48 + d)%N :: to_ascii_digits s'
        | None => [63%N]
        end
  end.

Definition is_ascii (s : str) : bool := forallb (fun c => (c <? 128)%N) s.

(** [sys.get_int_max_str_digits()], at its default. *)
Definition int_max_str_digits : Z := 4300.

(** The digits of a literal, its underscores left out. *)
Definition count_digits (body : str) : Z :=
  Z.of_nat (length (List.filter (fun c => negb (c =? 95)%N) body)).

(** [int(s)] on a [str] (CPython 3.11, default settings): whitespace
    around, an optional sign, then decimal digits of any script with single
    underscores between them; [ValueError] otherwise, and also for a
    literal of more than 4300 digits. *)
Definition py_int (s : str) : res Z :=
  let t := strip_ascii (if is_ascii s then s else to_ascii_digits s) in
  let '(neg, body) :=
    match t with
    | 43%N :: b => (false, b)
    | 45%N :: b => (true, b)
    | _ => (false, t)
    end in
  match int_digits body 0 false with
  | Some n =>
      if int_max_str_digits <? count_digits body then Raise ValueError
      else Ok (if neg then - n else n)
  | None => Raise ValueError
  end.

(** The number of decimal digits of an [int]. *)
Definition digits (z : Z) : Z := Z.of_nat (length (str_of_Z (Z.abs z))).

(** [str(n)], [f"{n}"] and [f"{n:5d}"] up to padding, for an [int]:
    [ValueError] for more than 4300 digits. *)
Definition py_str (z : Z) : res str :=
  if int_max_str_digits <? digits z then Raise ValueError else Ok (str_of_Z z).

(** [a / b] on two [int]s. The quotient is correctly rounded to a double:
    [ZeroDivisionError] when [b] is zero, [OverflowError] when the rounded
    quotient leaves the range of a double, that is from
    [2^1024 - 2^970] on in absolute value. The quotient is kept exact as
    the pair of its operands; its rounding is not modelled. *)
Definition float_overflow (a b : Z) : bool :=
  (2 ^ 1024 - 2 ^ 970) * Z.abs b <=? Z.abs a.

Definition int_truediv (a b : Z) : res (Z * Z) :=
  if b =? 0 then Raise ZeroDivisionError
  else if float_overflow a b then Raise OverflowError
  else Ok (a, b).

(** [float / float]. *)
Definition float_truediv (a b : float) : res float :=
  if (b =? 0)%float then Raise ZeroDivisionError else Ok (a / b)%float.

(** [try: body  except: handler], the bare [except] that catches all. *)
Definition try_except {A} (body : res A) (handler : res A) : res A :=
  match body with
  | Ok a => Ok a
  | Raise _ => handler
  end.

(** [posixpath.join(a, b)]. *)
Definition os_path_join (a b : str) : str :=
  match b with
  | 47%N :: _ => b
  | _ =>
      match last a with
      | None => a ++ b
      | Some c => if (c =? 47)%N then a ++ b else a ++ [47%N] ++ b
      end
  end.

(** ** [argparse], as far as the configuration script uses it

    Long options with one value each ([--opt value] and [--opt=value]),
    unique-prefix abbreviations, [type=], [choices=], [required=], string
    defaults converted through [type], the help option, the separator
    [--] and clusters of single-dash flags, after the module of
    CPython 3.11, whose functions are named in brackets. A rejected
    command line ends in [SystemExit]. *)

Module Argparse.

Inductive conv := ToStr | ToInt.
Inductive kind := Store | Help.

(** [default = None] is [argparse.SUPPRESS]: no attribute is set. *)
Record action := {
  option_strings : list str;
  dest : str;
  default : option pyval;
  type_ : conv;
  required : bool;
  choices : option (list str);
  kind_ : kind }.

(** The attribute name of an option that gives no [dest=]: the option
    string without its leading dashes, every remaining [-] turned into
    [_]. No other character is changed. *)
Definition dest_of (option_string : str) : str :=
  map (fun c => if (c =? 45)%N then 95%N else c)
      (snd (span (fun c => (c =? 45)%N) option_string)).

Definition add_argument (option_string : str) (default : pyval)
    (type_ : conv) (required : bool) (choices : option (list str)) : action :=
  {| option_strings := [option_string]; dest := dest_of option_string;
     default := Some default; type_ := type_; required := required;
     choices := choices; kind_ := Store |}.

Definition help_action : action :=
  {| option_strings := [u "-h"; u "--help"]; dest := u "help";
     default := None; type_ := ToStr; required := false;
     choices := None; kind_ := Help |}.

(** [ArgumentParser()] with its default [add_help=True]. *)
Definition ArgumentParser : list action := [help_action].

Abbreviation Namespace := (gmap str pyval).

(** [args.name]. *)
Definition getattr (ns : Namespace) (name : str) : res pyval :=
  match ns !! name with
  | Some v => Ok v
  | None => Raise (AttributeError name)
  end.

Definition error {A} : res A := Raise (SystemExit 2).

Definition get_value (a : action) (arg : str) : res pyval :=
  match type_ a with
  | ToStr => Ok (PyStr arg)
  | ToInt =>
      match py_int arg with
      | Ok z => Ok (PyInt z)
      | Raise _ => error
      end
  end.

Definition check_value (a : action) (v : pyval) : res unit :=
  match choices a with
  | None => Ok tt
  | Some cs =>
      match v with
      | PyStr s => if existsb (str_eqb s) cs then Ok tt else error
      | _ => error
      end
  end.

(** How [_parse_known_args] reads one argument: a plain argument ([A] in
    its pattern), an option of the parser with the option string that was
    matched and the argument joined to it, an option the parser does not
    have (both [O]), or the separator [--] ([-]). *)
Inductive token :=
| TArg (s : str)
| TOpt (a : action) (option_string : str) (explicit_arg : option str)
| TUnknown
| TDashes.

Definition startswith (s p : str) : bool := str_eqb (firstn (length p) s) p.

Definition find_exact (parser : list action) (o : str) : option action :=
  List.find (fun a => existsb (str_eqb o) (option_strings a)) parser.

Definition find_prefixed (parser : list action) (o : str) : list (action * str) :=
  flat_map (fun a => map (fun os => (a, os))
                       (List.filter (fun os => startswith os o) (option_strings a)))
           parser.

(** The readings of a single-dash argument: a one-character flag with the
    rest joined to it as its argument, or the start of an option string. *)
Definition find_short (parser : list action) (arg_string : str)
    : list (action * str * option str) :=
  flat_map (fun a =>
              flat_map (fun os =>
                          if str_eqb os (firstn 2 arg_string)
                          then [(a, os, Some (skipn 2 arg_string))]
                          else if startswith os arg_string then [(a, os, None)]
                          else [])
                       (option_strings a))
           parser.

Definition split_eq (s : str) : str * option str :=
  let '(a, b) := span (fun c => negb (c =? 61)%N) s in
  (a, match b with _ :: b' => Some b' | [] => None end).

Definition all_digits (s : str) : bool :=
  forallb (fun c => bool_decide (digit_val c <> None)) s.

Definition all_decimal (s : str) : bool :=
  forallb (fun c => bool_decide (decimal_value c <> None)) s.

(** The pattern [^-\d+$|^-\d*\.\d+$] of a negative number: [\d] is any
    decimal digit of Unicode, and [$] also matches before a newline that
    ends the text. *)
Definition is_negative_number (s : str) : bool :=
  match s with
  | 45%N :: t =>
      let t := match last t with Some 10%N => removelast t | _ => t end in
      let '(a, b) := span (fun c => negb (c =? 46)%N) t in
      match b with
      | [] => all_decimal a && negb (bool_decide (a = []))
      | _ :: f => all_decimal a && all_decimal f && negb (bool_decide (f = []))
      end
  | _ => false
  end.

(** [_get_option_tuples]: a double-dash argument is split at its first
    [=] and may abbreviate an option string; a single-dash one is read by
    [find_short]. *)
Definition get_option_tuples (parser : list action) (arg_string : str)
    : list (action * str * option str) :=
  match arg_string with
  | _ :: 45%N :: _ =>
      let '(o, explicit_arg) := split_eq arg_string in
      map (fun m => (fst m, snd m, explicit_arg)) (find_prefixed parser o)
  | _ => find_short parser arg_string
  end.

(** [_parse_optional]: is the argument an option, and which one. An
    abbreviation of more than one option string is an error. *)
Definition parse_optional (parser : list action) (arg_string : str) : res token :=
  match arg_string with
  | 45%N :: rest =>
      match find_exact parser arg_string with
      | Some a => Ok (TOpt a arg_string None)
      | None =>
          if bool_decide (rest = []) then Ok (TArg arg_string) else
          let '(o, explicit_arg) := split_eq arg_string in
          match (match explicit_arg with
                 | Some _ => find_exact parser o
                 | None => None
                 end) with
          | Some a => Ok (TOpt a o explicit_arg)
          | None =>
              match get_option_tuples parser arg_string with
              | _ :: _ :: _ => error
              | [(a, os, e)] => Ok (TOpt a os e)
              | [] =>
                  if is_negative_number arg_string then Ok (TArg arg_string)
                  else if existsb (fun c => (c =? 32)%N) arg_string
                  then Ok (TArg arg_string)
                  else Ok TUnknown
              end
          end
      end
  | _ => Ok (TArg arg_string)
  end.

(** The first loop of [_parse_known_args]: every argument after a [--] is
    a plain argument, and is not looked at. *)
Fixpoint classify (parser : list action) (argv : list str) : res (list token) :=
  match argv with
  | [] => Ok []
  | a :: argv' =>
      if str_eqb a (u "--") then Ok (TDashes :: map TArg argv')
      else
        t <-! parse_optional parser a;
        ts <-! classify parser argv';
        Ok (t :: ts)
  end.

(** Storing the argument of an option ([_get_values] and the store
    action). An argument that is the text [--], which an option of the
    script can only get as [--opt=--], is dropped from the arguments
    before anything else; what is stored then, in the [argparse] of
    CPython 3.11, is the empty list of converted values, with no call of
    [type] and no check against [choices]. *)
Definition store (a : action) (arg : str) (ns : Namespace) : res Namespace :=
  if str_eqb arg (u "--") then Ok (<[dest a := PyEmptyList]> ns)
  else
    v <-! get_value a arg;
    _ <-! check_value a v;
    Ok (<[dest a := v]> ns).

(** [option_string[1] not in chars]. *)
Definition single_dash (option_string : str) : bool :=
  match option_string with
  | _ :: c :: _ => negb (c =? 45)%N
  | _ => false
  end.

(** The text joined to a single-dash flag that takes no argument is read
    as further single-dash flags, one character each. This tells whether
    each of them is an option of the parser, the last one finding the
    argument it needs; nothing is done for any of them before that is
    known. *)
Fixpoint flags_found (parser : list action) (explicit_arg : str)
    (arg_follows : bool) : bool :=
  match explicit_arg with
  | [] => true
  | c :: e =>
      match find_exact parser [45%N; c] with
      | Some a =>
          match kind_ a with
          | Help => flags_found parser e arg_follows
          | Store => match e with [] => arg_follows | _ :: _ => true end
          end
      | None => false
      end
  end.

(** Consuming the tokens left to right ([consume_optional], with no
    positional to fill). The result also lists the options that were
    given and tells whether some token was left over. The help action
    prints and exits with status 0 as soon as it is taken. *)
Fixpoint consume (parser : list action) (toks : list token) (ns : Namespace)
    (seen : list str) (extras : bool) : res (Namespace * list str * bool) :=
  match toks with
  | [] => Ok (ns, seen, extras)
  | TArg _ :: rest => consume parser rest ns seen true
  | TUnknown :: rest => consume parser rest ns seen true
  | TDashes :: rest => consume parser rest ns seen true
  | TOpt a option_string explicit_arg :: rest =>
      match kind_ a with
      | Help =>
          match explicit_arg with
          | None => Raise (SystemExit 0)
          | Some e =>
              if single_dash option_string && negb (bool_decide (e = []))
                 && flags_found parser e
                      match rest with TArg _ :: _ => true | _ => false end
              then Raise (SystemExit 0)
              else error
          end
      | Store =>
          match explicit_arg with
          | Some v =>
              ns' <-! store a v ns;
              consume parser rest ns' (dest a :: seen) extras
          | None =>
              match rest with
              | TArg v :: rest' =>
                  ns' <-! store a v ns;
                  consume parser rest' ns' (dest a :: seen) extras
              | _ => error
              end
          end
      end
  end.

(** The namespace before any token is read: every default that is not
    suppressed, the first action of a [dest] winning. *)
Fixpoint set_defaults (parser : list action) (ns : Namespace) : Namespace :=
  match parser with
  | [] => ns
  | a :: parser' =>
      set_defaults parser'
        match default a, ns !! dest a with
        | Some d, None => <[dest a := d]> ns
        | _, _ => ns
        end
  end.

(** After the tokens: an option that was not given must not be required,
    and its default, when it is a string, goes through [type]. *)
Fixpoint finish (parser : list action) (seen : list str) (ns : Namespace)
    : res Namespace :=
  match parser with
  | [] => Ok ns
  | a :: parser' =>
      if existsb (str_eqb (dest a)) seen then finish parser' seen ns
      else if required a then error
      else
        match default a with
        | Some (PyStr d) =>
            v <-! get_value a d;
            finish parser' seen (<[dest a := v]> ns)
        | _ => finish parser' seen ns
        end
  end.

Definition parse_args (parser : list action) (argv : list str) : res Namespace :=
  toks <-! classify parser argv;
  r <-! consume parser toks (set_defaults parser ∅) [] false;
  let '(ns, seen, extras) := r in
  ns' <-! finish parser seen ns;
  if (extras : bool) then error else Ok ns'.

End Argparse.

(** ** [assignment3.py] *)

Module Assignment3.
Import Argparse.

(** [gem5.isas.ISA]. *)
Inductive ISA := ARM | MIPS | POWER | RISCV | SPARC | X86 | NULL.

(** Lines 25 to 34: the options, in the order they are added. *)
Definition parser : list action :=
  ArgumentParser ++
  [ add_argument (u "--prog") PyNone ToStr true (Some [u "daxpy"; u "queens"]);
    add_argument (u "--daxpy-N") (PyInt 100) ToInt false None;
    add_argument (u "--queens-N") (PyInt 10) ToInt false None;
    add_argument (u "--bp") PyNone ToStr false None;
    add_argument (u "--bp_size") PyNone ToInt false None;
    add_argument (u "--bp_bits") PyNone ToInt false None;
    add_argument (u "--clock.freq") (PyStr (u "1GHz")) ToStr false None;
    add_argument (u "--l1d.assoc") (PyStr (u "8")) ToInt false None;
    add_argument (u "--l1d.size") (PyStr (u "64KiB")) ToStr false None ].

(** The keyword arguments handed to the gem5 constructors. The
    constructors belong to gem5 and are taken to succeed. *)
Inductive BranchPredictor :=
| TournamentBP (size bits btb_entries : pyval)
| LocalBP (size bits btb_entries : pyval).

Record MESITwoLevelCacheHierarchy := {
  l1d_size : pyval;
  l1d_assoc : pyval;
  l1i_size : str;
  l1i_assoc : Z;
  l2_size : str;
  l2_assoc : Z;
  num_l2_banks : Z }.

Record SimpleBoard := {
  board_clk_freq : str;
  board_branch_pred : BranchPredictor;
  board_memory_size : str;
  board_cache_hierarchy : MESITwoLevelCacheHierarchy }.

(** Lines 55 to 73. *)
Definition branchPred (args : Namespace) : res BranchPredictor :=
  bp <-! getattr args (u "bp");
  size <-! getattr args (u "bp_size");
  bits <-! getattr args (u "bp_bits");
  if bool_decide (bp = PyStr (u "TournamentBP"))
  then Ok (TournamentBP size bits size)
  else Ok (LocalBP size bits size).

(** Lines 75 to 77. *)
Definition clk_freq (isa : ISA) : str :=
  match isa with
  | ARM | RISCV => u "1.2GHz"
  | _ => u "1GHz"
  end.

(** Lines 80 to 88; the keyword arguments are evaluated in order. *)
Definition cache_hierarchy (args : Namespace) : res MESITwoLevelCacheHierarchy :=
  size <-! getattr args (u "l1d_size");
  assoc <-! getattr args (u "l1d_assoc");
  Ok {| l1d_size := size; l1d_assoc := assoc;
        l1i_size := u "16kB"; l1i_assoc := 2;
        l2_size := u "256kB"; l2_assoc := 8; num_l2_banks := 1 |}.

(** Lines 36 to 99: from the command line to the board. [isa] is the one
    ISA the gem5 binary supports. The script is followed from
    [parse_args] on: the lookup of [GEM5] in the environment at line 21 is
    taken to succeed, and so are the gem5 constructors, of which only the
    keyword arguments they are handed are kept. *)
Definition board (argv : list str) (isa : ISA) : res SimpleBoard :=
  args <-! parse_args parser argv;
  program_str <-! getattr args (u "prog");
  daxpy_N <-! getattr args (u "daxpy_N");
  queens_N <-! getattr args (u "queens_N");
  bp_core <-! branchPred args;
  let clk := clk_freq isa in
  caches <-! cache_hierarchy args;
  Ok {| board_clk_freq := clk; board_branch_pred := bp_core;
        board_memory_size := u "32MB"; board_cache_hierarchy := caches |}.

End Assignment3.

(** ** The interpreter and the operating system around the drivers

    What the drivers see of their environment: the simulator run as a
    subprocess, the statistics files it leaves behind, [pathlib]'s
    rendering of paths, and the conversion of text to and from doubles.
    The simulator binary is taken to start, so that [subprocess.run] ends
    with an exit status; creating a directory, reading a file that exists
    and opening a file for writing are taken to succeed, and the [GEM5]
    environment variable to be set. *)

Class Runtime := {
  World : Type;
  (** [subprocess.run(cmd, ...)]: the exit status and the captured
      standard error. *)
  subprocess_run : list str -> World -> Z * str * World;
  (** The text of a file, [None] when the path does not exist. *)
  read_text : str -> World -> option str;
  (** [float(s)], [None] for [ValueError]. *)
  float_of_str : str -> option float;
  (** [f"{x:.6f}"]. *)
  format_6f : float -> str;
  (** [str(Path(a) / b)]. *)
  path_div : str -> str -> str;
  SCRIPT_DIR : str;
  GEM5_PATH : str }.

(** One cell of a CSV row. [CPercent (n, d)] is the text
    [f"{n/d:.1f}%"] of the quotient [n/d]. *)
Inductive cell :=
| CStr (s : str)
| CInt (z : Z)
| CPercent (q : Z * Z).

(** The lines the drivers print, by the statement that prints them. *)
Inductive message :=
| Running (clock_freq : str) (l1d_assoc : Z) (l1d_size : str)
| RunningNamed (name l1d_size : str) (l1d_assoc : Z)
| OutputDir (path : str)
| Completed
| FailedWithError
| Stderr (text : str)
| StatsNotFound (path : str)
| Skipping
| Extracted
| ExtractFailed
| L1DMisses (misses : Z)
| ExtractMissesFailed
| ResultsWritten (path : str)
| TotalTested (n : nat)
| NoResults
| Rule
| Title
| BaselineConfig
| TotalMisses (total : Z)
| MissBreakdown
| ColdMisses (n : Z) (percent : Z * Z)
| CapacityMisses (n : Z) (percent : Z * Z)
| ConflictMisses (n : Z) (percent : Z * Z)
| Dashes
| Sum (n : Z)
| VerificationPassed
| SumMismatch
| NotAllCompleted.

(** What a driver does to the outside, in order. *)
Inductive event :=
| Mkdir (path : str)
| Run (cmd : list str) (returncode : Z)
| Read (path : str)
| Print (m : message)
| CsvOpen (path : str)
| CsvRow (path : str) (row : list cell).

(** Driver code: it may raise, it changes the world, it leaves events. *)
Definition M `{Runtime} (A : Type) : Type := World -> res A * World * list event.

Section Monad.
Context `{Runtime}.

Definition ret {A} (a : A) : M A := fun w => (Ok a, w, []).

Definition bind {A B} (m : M A) (k : A -> M B) : M B := fun w =>
  match m w with
  | (Ok a, w', t) => let '(r, w'', t') := k a w' in (r, w'', t ++ t')
  | (Raise e, w', t) => (Raise e, w', t)
  end.

Definition lift {A} (r : res A) : M A := fun w => (r, w, []).

Definition emit (e : event) : M unit := fun w => (Ok tt, w, [e]).

Definition print (m : message) : M unit := emit (Print m).

(** [try: m  except E as e: h e]; [h] re-raises what it does not handle. *)
Definition catch {A} (m : M A) (h : exn -> M A) : M A := fun w =>
  match m w with
  | (Ok a, w', t) => (Ok a, w', t)
  | (Raise e, w', t) => let '(r, w'', t') := h e w' in (r, w'', t ++ t')
  end.

(** [path.mkdir(exist_ok=True)]. *)
Definition mkdir (path : str) : M unit := emit (Mkdir path).

(** [subprocess.run(cmd, ..., check=True)]: blocks until the child has
    exited and raises [CalledProcessError] on a nonzero status. This is a
    run that ends with an exit status: a binary that cannot be started
    makes the real call raise [FileNotFoundError] or [PermissionError],
    which the drivers do not catch and this development leaves out. *)
Definition subprocess_run_check (cmd : list str) : M unit := fun w =>
  let '(returncode, stderr, w') := subprocess_run cmd w in
  (if returncode =? 0 then Ok tt else Raise (CalledProcessError returncode stderr),
   w', [Run cmd returncode]).

(** [path.exists()] followed by [open(path).read()]: the text of a file
    that can be read, [None] for a path that does not exist. A path that
    exists and cannot be read as text (a directory, a file without read
    permission or with undecodable bytes) makes the real code raise, which
    this development leaves out. *)
Definition read_file (path : str) : M (option str) := fun w =>
  (Ok (read_text path w), w, [Read path]).

(** [float(s)]. *)
Definition float_ (s : str) : res float :=
  match float_of_str s with
  | Some x => Ok x
  | None => Raise ValueError
  end.

End Monad.

Notation "x <- m ;; k" := (bind m (fun x => k))
  (at level 100, m at next level, right associativity).
Notation "m ;; k" := (bind m (fun _ => k))
  (at level 100, right associativity).

(** ** [run_experiments.py] *)

Module RunExperiments.

(** [(clock_freq, l1d_assoc, l1d_size)]. *)
Definition CONFIGS : list (str * Z * str) :=
  [ (u "1GHz", 2, u "1kB");
    (u "1GHz", 2, u "2kB");
    (u "1GHz", 2, u "4kB");
    (u "1GHz", 2, u "8kB");
    (u "0.8GHz", 4, u "1kB");
    (u "0.8GHz", 4, u "2kB");
    (u "0.8GHz", 4, u "4kB");
    (u "0.8GHz", 4, u "8kB") ].

Definition PROGRAM : str := u "queens".
Definition BP_TYPE : str := u "LocalBP".
Definition BP_SIZE : Z := 16.
Definition BP_BITS : Z := 2.

Definition parse_stat (stats_content stat_name : str) : str :=
  let pattern := stat_pattern stat_name in
  match Re.search pattern stats_content with
  | Some value =>
      let value := strip (split_head 35 value) in
      value
  | None => u "N/A"
  end.

Record metrics := {
  instructions_committed : str;
  avg_gap_between_requests : str;
  l1d_hits : str;
  l1d_replacements : str;
  l1d_miss_rate : str;
  l1i_miss_rate : str;
  l2_miss_rate : str;
  cpu_cycles : str }.

(** One element of [results]: the configuration and its metrics. *)
Record result := {
  clock_freq : str;
  l1d_assoc : Z;
  l1d_size : str;
  result_metrics : metrics }.

Definition fieldnames : list cell :=
  map (fun s => CStr (u s))
    [ "clock_freq"; "l1d_assoc"; "l1d_size"; "instructions_committed";
      "avg_gap_between_requests"; "l1d_hits"; "l1d_replacements";
      "l1d_miss_rate"; "l1i_miss_rate"; "l2_miss_rate"; "cpu_cycles" ]%string.

(** The row [csv.DictWriter] writes for one result. *)
Definition row (r : result) : list cell :=
  let m := result_metrics r in
  [ CStr (clock_freq r); CInt (l1d_assoc r); CStr (l1d_size r);
    CStr (instructions_committed m); CStr (avg_gap_between_requests m);
    CStr (l1d_hits m); CStr (l1d_replacements m); CStr (l1d_miss_rate m);
    CStr (l1i_miss_rate m); CStr (l2_miss_rate m); CStr (cpu_cycles m) ].

Section WithRuntime.
Context `{Runtime}.

Definition GEM5_BINARY : str := os_path_join GEM5_PATH (u "build/X86/gem5.opt").
Definition ASSIGNMENT_SCRIPT : str := path_div SCRIPT_DIR (u "assignment3.py").

Definition command (clock_freq : str) (l1d_assoc : Z) (l1d_size output_dir : str)
    : list str :=
  [ GEM5_BINARY;
    u "--outdir=" ++ output_dir;
    ASSIGNMENT_SCRIPT;
    u "--prog=" ++ PROGRAM;
    u "--bp=" ++ BP_TYPE;
    u "--bp_size=" ++ str_of_Z BP_SIZE;
    u "--bp_bits=" ++ str_of_Z BP_BITS;
    u "--l1d_size=" ++ l1d_size;
    u "--l1d_assoc=" ++ str_of_Z l1d_assoc;
    u "--clock_freq=" ++ clock_freq ].

Definition run_gem5_simulation (clock_freq : str) (l1d_assoc : Z)
    (l1d_size output_dir : str) : M bool :=
  let cmd := command clock_freq l1d_assoc l1d_size output_dir in
  print (Running clock_freq l1d_assoc l1d_size);;
  print (OutputDir output_dir);;
  catch
    (subprocess_run_check cmd;;
     print Completed;;
     ret true)
    (fun e =>
       match e with
       | CalledProcessError _ stderr =>
           print FailedWithError;;
           print (Stderr stderr);;
           ret false
       | _ => lift (Raise e)
       end).

(** The nested function of [extract_metrics]. *)
Definition calc_miss_rate (misses accesses : str) : res str :=
  try_except
    (positive <-!
       (if negb (str_eqb accesses (u "N/A"))
        then a <-! float_ accesses; Ok (0 <? a)%float
        else Ok false);
     if (positive : bool) then
       m <-! float_ misses;
       a <-! float_ accesses;
       q <-! float_truediv m a;
       Ok (format_6f q)
     else Ok (u "N/A"))
    (Ok (u "N/A")).

(** [extract_metrics] once the file has been read. *)
Definition metrics_of (stats_content : str) : res metrics :=
  let stat name := parse_stat stats_content (u name) in
  let instructions := stat "board.processor.cores.core.thread_0.numInsts"%string in
  let cpu_cycles := stat "board.processor.cores.core.numCycles"%string in
  let l1d_hits := stat "board.cache_hierarchy.ruby_system.l1_controllers.L1Dcache.m_demand_hits"%string in
  let l1d_misses := stat "board.cache_hierarchy.ruby_system.l1_controllers.L1Dcache.m_demand_misses"%string in
  let l1d_accesses := stat "board.cache_hierarchy.ruby_system.l1_controllers.L1Dcache.m_demand_accesses"%string in
  let l1i_misses := stat "board.cache_hierarchy.ruby_system.l1_controllers.L1Icache.m_demand_misses"%string in
  let l1i_accesses := stat "board.cache_hierarchy.ruby_system.l1_controllers.L1Icache.m_demand_accesses"%string in
  let l2_misses := stat "board.cache_hierarchy.ruby_system.l2_controllers.L2cache.m_demand_misses"%string in
  let l2_accesses := stat "board.cache_hierarchy.ruby_system.l2_controllers.L2cache.m_demand_accesses"%string in
  let l1_replacements := stat "board.cache_hierarchy.ruby_system.L1Cache_Controller.L1_Replacement"%string in
  let avg_gap := stat "board.memory.mem_ctrl.avgGap"%string in
  l1d_miss_rate <-! calc_miss_rate l1d_misses l1d_accesses;
  l1i_miss_rate <-! calc_miss_rate l1i_misses l1i_accesses;
  l2_miss_rate <-! calc_miss_rate l2_misses l2_accesses;
  Ok {| instructions_committed := instructions;
        avg_gap_between_requests := avg_gap;
        l1d_hits := l1d_hits;
        l1d_replacements := l1_replacements;
        l1d_miss_rate := l1d_miss_rate;
        l1i_miss_rate := l1i_miss_rate;
        l2_miss_rate := l2_miss_rate;
        cpu_cycles := cpu_cycles |}.

Definition extract_metrics (output_dir : str) : M (option metrics) :=
  let stats_file := path_div output_dir (u "stats.txt") in
  content <- read_file stats_file;;
  match content with
  | None => print (StatsNotFound stats_file);; ret None
  | Some stats_content =>
      metrics <- lift (metrics_of stats_content);;
      ret (Some metrics)
  end.

Definition output_dir_of (clock_freq : str) (l1d_assoc : Z) (l1d_size : str) : str :=
  path_div SCRIPT_DIR
    (u "results_clk" ++ clock_freq ++ u "_assoc" ++ str_of_Z l1d_assoc
     ++ u "_size" ++ l1d_size).

(** The [for] loop of [main] over the configurations still to run. *)
Fixpoint main_loop (configs : list (str * Z * str)) (results : list result)
    : M (list result) :=
  match configs with
  | [] => ret results
  | (clock_freq, l1d_assoc, l1d_size) :: configs' =>
      let output_dir := output_dir_of clock_freq l1d_assoc l1d_size in
      mkdir output_dir;;
      success <- run_gem5_simulation clock_freq l1d_assoc l1d_size output_dir;;
      if negb success then
        print Skipping;;
        main_loop configs' results
      else
        metrics <- extract_metrics output_dir;;
        match metrics with
        | Some metrics =>
            let result :=
              {| clock_freq := clock_freq; l1d_assoc := l1d_assoc;
                 l1d_size := l1d_size; result_metrics := metrics |} in
            print Extracted;;
            main_loop configs' (results ++ [result])
        | None =>
            print ExtractFailed;;
            main_loop configs' results
        end
  end.

Fixpoint writerows (csv_file : str) (rows : list (list cell)) : M unit :=
  match rows with
  | [] => ret tt
  | r :: rows' => emit (CsvRow csv_file r);; writerows csv_file rows'
  end.

Definition write_results (results : list result) : M unit :=
  match results with
  | [] => print NoResults
  | _ :: _ =>
      let csv_file := path_div SCRIPT_DIR (u "experiment_results.csv") in
      emit (CsvOpen csv_file);;
      emit (CsvRow csv_file fieldnames);;
      writerows csv_file (map row results);;
      print (ResultsWritten csv_file);;
      print (TotalTested (length results))
  end.

Definition main : M unit :=
  results <- main_loop CONFIGS [];;
  write_results results.

End WithRuntime.

End RunExperiments.

(** ** [classify_misses.py] *)

Module ClassifyMisses.

(** [(name, l1d_size, l1d_assoc, purpose)]. *)
Definition CONFIGS : list (str * str * Z * str) :=
  [ (u "baseline", u "1kB", 2, u "Total misses (cold + capacity + conflict)");
    (u "no_conflict", u "1kB", 8, u "Cold + capacity misses (no conflict)");
    (u "no_capacity", u "8kB", 8, u "Cold misses only (no capacity, no conflict)") ].

Definition CLOCK_FREQ : str := u "1GHz".
Definition PROGRAM : str := u "queens".
Definition BP_TYPE : str := u "LocalBP".
Definition BP_SIZE : Z := 2048.
Definition BP_BITS : Z := 2.

(** [None] is Python's [None]. *)
Definition parse_stat (stats_content stat_name : str) : option str :=
  let pattern := stat_pattern stat_name in
  match Re.search pattern stats_content with
  | Some value =>
      let value := strip (split_head 35 value) in
      Some value
  | None => None
  end.

(** One value of the dictionary [results]. *)
Record entry := {
  l1d_size : str;
  l1d_assoc : Z;
  misses : Z;
  purpose : str }.

(** [results[name][field]]. *)
Definition item {A : Type} (results : gmap str entry) (name : str) (field : entry -> A)
    : res A :=
  match results !! name with
  | Some e => Ok (field e)
  | None => Raise (KeyError name)
  end.

(** The text of the configuration column for a measured row; the
    separator between its two parts is an em dash. *)
Definition configuration_used (size : str) (assoc : Z) : str :=
  u "L1D$ Size: " ++ size ++ [32%N; 8212%N; 32%N] ++ u "L1D$ Association: "
  ++ str_of_Z assoc.

Section WithRuntime.
Context `{Runtime}.

Definition GEM5_BINARY : str := os_path_join GEM5_PATH (u "build/X86/gem5.opt").
Definition ASSIGNMENT_SCRIPT : str := path_div SCRIPT_DIR (u "assignment3.py").

Definition command (l1d_size : str) (l1d_assoc : Z) (output_dir : str) : list str :=
  [ GEM5_BINARY;
    u "--outdir=" ++ output_dir;
    ASSIGNMENT_SCRIPT;
    u "--prog=" ++ PROGRAM;
    u "--bp=" ++ BP_TYPE;
    u "--bp_size=" ++ str_of_Z BP_SIZE;
    u "--bp_bits=" ++ str_of_Z BP_BITS;
    u "--l1d_size=" ++ l1d_size;
    u "--l1d_assoc=" ++ str_of_Z l1d_assoc;
    u "--clock_freq=" ++ CLOCK_FREQ ].

Definition run_gem5_simulation (name l1d_size : str) (l1d_assoc : Z)
    (output_dir : str) : M bool :=
  let cmd := command l1d_size l1d_assoc output_dir in
  print (RunningNamed name l1d_size l1d_assoc);;
  print (OutputDir output_dir);;
  catch
    (subprocess_run_check cmd;;
     print Completed;;
     ret true)
    (fun e =>
       match e with
       | CalledProcessError _ stderr =>
           print FailedWithError;;
           print (Stderr stderr);;
           ret false
       | _ => lift (Raise e)
       end).

Definition extract_l1d_misses (output_dir : str) : M (option Z) :=
  let stats_file := path_div output_dir (u "stats.txt") in
  content <- read_file stats_file;;
  match content with
  | None => print (StatsNotFound stats_file);; ret None
  | Some stats_content =>
      let l1d_misses :=
        parse_stat stats_content
          (u "board.cache_hierarchy.ruby_system.l1_controllers.L1Dcache.m_demand_misses") in
      match l1d_misses with
      | Some (c :: s) => n <- lift (py_int (c :: s));; ret (Some n)
      | Some [] | None => ret None
      end
  end.

(** The [for] loop of [main] over the configurations still to run. *)
Fixpoint main_loop (configs : list (str * str * Z * str))
    (results : gmap str entry) : M (gmap str entry) :=
  match configs with
  | [] => ret results
  | (name, l1d_size, l1d_assoc, purpose) :: configs' =>
      let output_dir := path_div SCRIPT_DIR (u "miss_classify_" ++ name) in
      mkdir output_dir;;
      success <- run_gem5_simulation name l1d_size l1d_assoc output_dir;;
      if negb success then
        print Skipping;;
        main_loop configs' results
      else
        misses <- extract_l1d_misses output_dir;;
        match misses with
        | Some misses =>
            let e := {| l1d_size := l1d_size; l1d_assoc := l1d_assoc;
                        misses := misses; purpose := purpose |} in
            print (L1DMisses misses);;
            main_loop configs' (<[name := e]> results)
        | None =>
            print ExtractMissesFailed;;
            main_loop configs' results
        end
  end.

(** Lines 141 to 206: the body of [if len(results) == 3]. Printing an
    [int] is taken to succeed, as it does for the counters [int] has read
    and for differences of no more than 4300 digits ([printable]); beyond,
    the real f-string raises [ValueError]. *)
Definition classification (results : gmap str entry) : M unit :=
  print Rule;; print Title;; print Rule;;
  total_misses <- lift (item results (u "baseline") misses);;
  cold_capacity_misses <- lift (item results (u "no_conflict") misses);;
  cold_misses <- lift (item results (u "no_capacity") misses);;
  let capacity_misses := cold_capacity_misses - cold_misses in
  let conflict_misses := total_misses - cold_capacity_misses in
  print BaselineConfig;;
  print (TotalMisses total_misses);;
  print MissBreakdown;;
  p <- lift (int_truediv (100 * cold_misses) total_misses);;
  print (ColdMisses cold_misses p);;
  p <- lift (int_truediv (100 * capacity_misses) total_misses);;
  print (CapacityMisses capacity_misses p);;
  p <- lift (int_truediv (100 * conflict_misses) total_misses);;
  print (ConflictMisses conflict_misses p);;
  print Dashes;;
  print (Sum (cold_misses + capacity_misses + conflict_misses));;
  (if cold_misses + capacity_misses + conflict_misses =? total_misses
   then print VerificationPassed
   else print SumMismatch);;
  let csv_file := path_div SCRIPT_DIR (u "miss_classification.csv") in
  emit (CsvOpen csv_file);;
  emit (CsvRow csv_file
          [ CStr (u "Miss Type"); CStr (u "Total Misses"); CStr (u "Percentage");
            CStr (u "Configuration Used To Discover This") ]);;
  size <- lift (item results (u "baseline") l1d_size);;
  assoc <- lift (item results (u "baseline") l1d_assoc);;
  emit (CsvRow csv_file
          [ CStr (u "Total"); CInt total_misses; CStr (u "100%");
            CStr (configuration_used size assoc) ]);;
  p <- lift (int_truediv (100 * cold_misses) total_misses);;
  size <- lift (item results (u "no_capacity") l1d_size);;
  assoc <- lift (item results (u "no_capacity") l1d_assoc);;
  emit (CsvRow csv_file
          [ CStr (u "Cold"); CInt cold_misses; CPercent p;
            CStr (configuration_used size assoc) ]);;
  p <- lift (int_truediv (100 * capacity_misses) total_misses);;
  emit (CsvRow csv_file
          [ CStr (u "Capacity"); CInt capacity_misses; CPercent p;
            CStr (u "Difference between (1kB, 8-way) and (8kB, 8-way)") ]);;
  p <- lift (int_truediv (100 * conflict_misses) total_misses);;
  emit (CsvRow csv_file
          [ CStr (u "Conflict"); CInt conflict_misses; CPercent p;
            CStr (u "Difference between (1kB, 2-way) and (1kB, 8-way)") ]);;
  print (ResultsWritten csv_file).

Definition main : M unit :=
  results <- main_loop CONFIGS ∅;;
  if (size results =? 3)%nat
  then classification results
  else print NotAllCompleted.

End WithRuntime.

End ClassifyMisses.

(** ** Notions the properties are stated with *)

(** A position is at the start of a line when nothing or a newline
    precedes it. *)
Definition line_start (pre : str) : Prop :=
  pre = [] \/ exists pre', pre = pre' ++ [10%N].

(** A token ends at the end of the text or before whitespace. *)
Definition token_end (rest : str) : Prop :=
  match rest with
  | [] => True
  | c :: _ => isspace c = true
  end.

(** [content] holds, after [pre], the stat name at the start of a line,
    then the whitespace [ws], then the token [tok]. *)
Record stat_line (content name pre ws tok rest : str) : Prop := {
  sl_split : content = pre ++ name ++ ws ++ tok ++ rest;
  sl_start : line_start pre;
  sl_ws : ws <> [] /\ Forall (fun c => isspace c = true) ws;
  sl_tok : tok <> [] /\ Forall (fun c => isspace c = false) tok;
  sl_end : token_end rest }.

(** The first such line of [content]. *)
Definition first_stat_line (content name pre ws tok rest : str) : Prop :=
  stat_line content name pre ws tok rest /\
  forall pre' ws' tok' rest',
    stat_line content name pre' ws' tok' rest' -> (length pre <= length pre')%nat.

(** [v] is [tok] without its text from the first [#] on. *)
Definition hash_stripped (tok v : str) : Prop :=
  exists tail, tok = v ++ tail /\ ~ In 35%N v /\ (tail = [] \/ exists t, tail = 35%N :: t).

(** Every attribute of a namespace is a [dest] of [dests]. *)
Definition attrs_in (dests : list str) (ns : Argparse.Namespace) : Prop :=
  forall k, ns !! k <> None -> In k dests.

(** A namespace has every attribute of [names]. *)
Definition has_attrs (names : list str) (ns : Argparse.Namespace) : Prop :=
  forall k, In k names -> ns !! k <> None.

(** The subprocess runs of a trace, in order, each with its exit status. *)
Definition runs (t : list event) : list (list str * Z) :=
  omap (fun e => match e with Run cmd rc => Some (cmd, rc) | _ => None end) t.

(** The lines printed, in order. *)
Definition prints (t : list event) : list message :=
  omap (fun e => match e with Print m => Some m | _ => None end) t.

(** The CSV files opened for writing, in order. *)
Definition csv_opens (t : list event) : list str :=
  omap (fun e => match e with CsvOpen f => Some f | _ => None end) t.

(** The rows written to CSV files, in order. *)
Definition csv_rows (t : list event) : list (list cell) :=
  omap (fun e => match e with CsvRow _ r => Some r | _ => None end) t.

(** Running the commands one after the other, each in the world the
    previous one left. *)
Fixpoint run_all `{Runtime} (cmds : list (list str)) (w : World)
    : list (list str * Z) * World :=
  match cmds with
  | [] => ([], w)
  | c :: cmds' =>
      let '(rc, _, w1) := subprocess_run c w in
      let '(l, w2) := run_all cmds' w1 in
      ((c, rc) :: l, w2)
  end.

(** The character before the position that follows [pre]. *)
Definition prev_of (prev : option N) (pre : str) : option N :=
  match last pre with
  | Some c => Some c
  | None => prev
  end.

(** [s] without its prefix [p], when it has it. *)
Fixpoint strip_prefix (p s : str) : option str :=
  match p with
  | [] => Some s
  | c :: p' =>
      match s with
      | d :: s' => if (c =? d)%N then strip_prefix p' s' else None
      | [] => None
      end
  end.

(** The token that follows the whitespace at the start of [r]. *)
Definition token_after (r : str) : option str :=
  match fst (span isspace r), fst (span nonspace (snd (span isspace r))) with
  | _ :: _, c :: tok => Some (c :: tok)
  | _, _ => None
  end.

(** What the stat pattern matches at one position. *)
Definition match_at (name : str) (prev : option N) (rest : str) : option str :=
  if Re.at_bol prev then
    match strip_prefix name rest with
    | Some r => token_after r
    | None => None
    end
  else None.

(** The Python value a [parse_stat] result of either driver is. *)
Definition str_value (s : str) : pyval := PyStr s.
Definition opt_value (o : option str) : pyval :=
  match o with
  | Some s => PyStr s
  | None => PyNone
  end.

(** A dictionary that holds the three entries of a complete run. *)
Definition counters (base : gmap str ClassifyMisses.entry)
    (baseline no_conflict no_capacity : ClassifyMisses.entry)
    : gmap str ClassifyMisses.entry :=
  <[u "no_capacity" := no_capacity]>
    (<[u "no_conflict" := no_conflict]> (<[u "baseline" := baseline]> base)).

(** The configuration a result of [run_experiments.py] belongs to. *)
Definition config_of (r : RunExperiments.result) : str * Z * str :=
  (RunExperiments.clock_freq r, RunExperiments.l1d_assoc r, RunExperiments.l1d_size r).

(** The command [run_experiments.py] runs for a configuration. *)
Definition command_of `{Runtime} (c : str * Z * str) : list str :=
  let '(clock_freq, l1d_assoc, l1d_size) := c in
  RunExperiments.command clock_freq l1d_assoc l1d_size
    (RunExperiments.output_dir_of clock_freq l1d_assoc l1d_size).

(** The command [classify_misses.py] runs for a configuration. *)
Definition classify_command_of `{Runtime} (c : str * str * Z * str) : list str :=
  let '(name, l1d_size, l1d_assoc, _) := c in
  ClassifyMisses.command l1d_size l1d_assoc
    (path_div SCRIPT_DIR (u "miss_classify_" ++ name)).


(** The events of one iteration of either loop whose simulation failed. *)
Definition failed_iteration (announce : message) (output_dir : str)
    (cmd : list str) (returncode : Z) (stderr : str) : list event :=
  [ Mkdir output_dir; Print announce; Print (OutputDir output_dir);
    Run cmd returncode; Print FailedWithError; Print (Stderr stderr);
    Print Skipping ].

(** ** A runtime to run the drivers in

    The simulator and the file system are given by two tables: [sim]
    gives the exit status and standard error of a command, [files] the text
    of a path. Doubles are read from unsigned integer literals below
    [2^53] only, and printed exactly. *)

Module Demo.

Definition pad6 (s : str) : str := repeat 48%N (6 - length s) ++ s.

(** [f"{x:.6f}"]: the exact value of the double, rounded half to even
    at the sixth decimal. *)
Definition format_exact (x : float) : str :=
  let sign (s : bool) := if s then [45%N] else [] in
  match Prim2SF x with
  | S754_zero s => sign s ++ u "0.000000"
  | S754_infinity s => sign s ++ u "inf"
  | S754_nan => u "nan"
  | S754_finite s m e =>
      let num := Z.pos m * 10 ^ 6 * 2 ^ Z.max e 0 in
      let den := 2 ^ Z.max (- e) 0 in
      let q := num / den in
      let r := num mod den in
      let n :=
        if 2 * r <? den then q
        else if den <? 2 * r then q + 1
        else if Z.even q then q else q + 1 in
      sign s ++ str_of_Z (n / 10 ^ 6) ++ [46%N] ++ pad6 (str_of_Z (n mod 10 ^ 6))
  end.

Definition read_float (s : str) : option float :=
  match s with
  | [] => None
  | _ :: _ =>
      if Argparse.all_digits s then
        match int_digits s 0 false with
        | Some z => if z <? 2 ^ 53 then Some (of_uint63 (Uint63.of_Z z)) else None
        | None => None
        end
      else None
  end.

Definition runtime (sim : list str -> Z * str) (files : str -> option str)
    : Runtime :=
  {| World := unit;
     subprocess_run := fun cmd w => (sim cmd, w);
     read_text := fun path _ => files path;
     float_of_str := read_float;
     format_6f := format_exact;
     path_div := fun a b => a ++ [47%N] ++ b;
     SCRIPT_DIR := u "/work";
     GEM5_PATH := u "/opt/gem5" |}.

(** Every run succeeds and reports no L1D miss at all. *)
Definition no_misses : Runtime :=
  runtime (fun _ => (0, []))
    (fun _ => Some (u "board.cache_hierarchy.ruby_system.l1_controllers.L1Dcache.m_demand_misses            0                       # Number of cache demand misses (Unspecified)
")).


(** Every run succeeds and leaves the same small statistics file. *)
Definition all_succeed : Runtime :=
  runtime (fun _ => (0, []))
    (fun _ => Some (u "board.cache_hierarchy.ruby_system.l1_controllers.L1Dcache.m_demand_misses 1
board.cache_hierarchy.ruby_system.l1_controllers.L1Dcache.m_demand_accesses 4
")).

End Demo.

(** The value [v] was given on the command line for the option [a]: it is
    an argument converted by [type] that passed [choices], or it is the
    empty list, which is what the argument [--] leaves; [dashes] is what
    is known of the command line then. *)
Definition given (a : Argparse.action) (dashes : Prop) (v : pyval) : Prop :=
  v = PyEmptyList /\ dashes
  \/ exists arg, Argparse.get_value a arg = Ok v /\ Argparse.check_value a v = Ok tt.

(** The token hands the text [--] to the option [a] or, being a plain
    argument, to the option before it. *)
Definition dashes_token (a : Argparse.action) (t : Argparse.token) : Prop :=
  match t with
  | Argparse.TOpt a' _ (Some e) => a' = a /\ e = u "--"
  | Argparse.TArg s => s = u "--"
  | _ => False
  end.

(** Some argument of the command line is read as the option [a] with the
    text [--] joined to it. *)
Definition dashes_given (parser : list Argparse.action) (a : Argparse.action)
    (argv : list str) : Prop :=
  exists s os, In s argv
    /\ Argparse.parse_optional parser s = Ok (Argparse.TOpt a os (Some (u "--"))).

(** The value [v] is the empty list that an argument [--opt=--] leaves,
    [--opt] being the option string or the start of it. *)
Definition emptied (option_string : str) (argv : list str) (v : pyval) : Prop :=
  v = PyEmptyList
  /\ exists o, In (o ++ u "=--") argv /\ Argparse.startswith option_string o = true.

(** The value [v] is the default of the option [a], converted by [type]
    when it is a string. *)
Definition defaulted (a : Argparse.action) (v : pyval) : Prop :=
  match Argparse.default a with
  | Some (PyStr d) => Argparse.get_value a d = Ok v
  | Some d => v = d
  | None => False
  end.

(** While the tokens are consumed: once the option [a] has been seen its
    attribute holds a given value, and until then the default [d]. *)
Definition value_inv (a : Argparse.action) (d : pyval) (dashes : Prop)
    (ns : Argparse.Namespace) (seen : list str) : Prop :=
  (In (Argparse.dest a) seen ->
   exists v, ns !! Argparse.dest a = Some v /\ given a dashes v)
  /\ (~ In (Argparse.dest a) seen -> ns !! Argparse.dest a = Some d).

(** The attributes the options of [assignment3.py] give a namespace. *)
Definition script_attributes : list str :=
  map u [ "prog"; "daxpy_N"; "queens_N"; "bp"; "bp_size"; "bp_bits";
          "clock.freq"; "l1d.assoc"; "l1d.size" ]%string.

(** An [int]. *)
Definition is_int (v : pyval) : Prop := exists z, v = PyInt z.

(** A [str]. *)
Definition is_str (v : pyval) : Prop := exists s, v = PyStr s.

(** The number a sequence of decimal digits denotes after the digits read
    so far denote [acc]. *)
Fixpoint digits_value (d : Decimal.uint) (acc : Z) : Z :=
  match d with
  | Decimal.Nil => acc
  | Decimal.D0 l => digits_value l (10 * acc + 0)
  | Decimal.D1 l => digits_value l (10 * acc + 1)
  | Decimal.D2 l => digits_value l (10 * acc + 2)
  | Decimal.D3 l => digits_value l (10 * acc + 3)
  | Decimal.D4 l => digits_value l (10 * acc + 4)
  | Decimal.D5 l => digits_value l (10 * acc + 5)
  | Decimal.D6 l => digits_value l (10 * acc + 6)
  | Decimal.D7 l => digits_value l (10 * acc + 7)
  | Decimal.D8 l => digits_value l (10 * acc + 8)
  | Decimal.D9 l => digits_value l (10 * acc + 9)
  end.


(** The stat [classify_misses.py] reads. *)
Definition misses_stat : str :=
  u "board.cache_hierarchy.ruby_system.l1_controllers.L1Dcache.m_demand_misses".

(** Every run succeeds and reports a miss counter with a fraction. *)
Definition fractional_counter : Runtime :=
  Demo.runtime (fun _ => (0, []))
    (fun _ => Some (u "board.cache_hierarchy.ruby_system.l1_controllers.L1Dcache.m_demand_misses 12.5
")).

(** [extract_l1d_misses] once the file has been read. *)
Definition l1d_misses_of (stats_content : str) : res (option Z) :=
  match ClassifyMisses.parse_stat stats_content misses_stat with
  | Some (c :: s) => n <-! py_int (c :: s); Ok (Some n)
  | Some [] | None => Ok None
  end.



(** The metrics whose every field is the text [N/A]. *)
Definition not_available : RunExperiments.metrics :=
  {| RunExperiments.instructions_committed := u "N/A";
     RunExperiments.avg_gap_between_requests := u "N/A";
     RunExperiments.l1d_hits := u "N/A";
     RunExperiments.l1d_replacements := u "N/A";
     RunExperiments.l1d_miss_rate := u "N/A";
     RunExperiments.l1i_miss_rate := u "N/A";
     RunExperiments.l2_miss_rate := u "N/A";
     RunExperiments.cpu_cycles := u "N/A" |}.

(** The miss counters a trace reports as extracted, in order. *)
Definition extracted (t : list event) : list Z :=
  omap (fun e => match e with Print (L1DMisses n) => Some n | _ => None end) t.

(** The lines with which the loop of [classify_misses.py] is over: the
    title of the breakdown, or the notice that a simulation is missing. *)
Definition verdict (t : list event) : list message :=
  omap (fun e => match e with
                 | Print Title => Some Title
                 | Print NotAllCompleted => Some NotAllCompleted
                 | _ => None
                 end) t.

(** The statistics file of a configuration of [run_experiments.py]. *)
Definition stats_file_of `{Runtime} (c : str * Z * str) : str :=
  let '(clock_freq, l1d_assoc, l1d_size) := c in
  path_div (RunExperiments.output_dir_of clock_freq l1d_assoc l1d_size) (u "stats.txt").

(** What running the commands of [configs] one after the other gives:
    for each configuration, in order, the exit status of its run and the
    world the run left, in which the next one starts. *)
Fixpoint outcomes `{Runtime} (configs : list (str * Z * str)) (w : World)
    : list ((str * Z * str) * Z * World) :=
  match configs with
  | [] => []
  | c :: configs' =>
      let '(rc, _, w1) := subprocess_run (command_of c) w in
      (c, rc, w1) :: outcomes configs' w1
  end.

(** The result a configuration is expected to contribute: none when its
    run failed or left no statistics file, otherwise the configuration
    with the metrics of that file. *)
Definition result_of `{Runtime} (o : (str * Z * str) * Z * World)
    : option RunExperiments.result :=
  let '(c, rc, w1) := o in
  if rc =? 0 then
    match read_text (stats_file_of c) w1 with
    | Some content =>
        match RunExperiments.metrics_of content with
        | Ok m =>
            Some {| RunExperiments.clock_freq := fst (fst c);
                    RunExperiments.l1d_assoc := snd (fst c);
                    RunExperiments.l1d_size := snd c;
                    RunExperiments.result_metrics := m |}
        | Raise _ => None
        end
    | None => None
    end
  else None.

(** The three miss rates [extract_metrics] computes from the text of a
    statistics file: [calc_miss_rate] on the parsed miss and access
    counters of the L1D, the L1I and the L2 cache. *)
Definition miss_rates `{Runtime} (content l1d l1i l2 : str) : Prop :=
  RunExperiments.calc_miss_rate
    (RunExperiments.parse_stat content
       (u "board.cache_hierarchy.ruby_system.l1_controllers.L1Dcache.m_demand_misses"))
    (RunExperiments.parse_stat content
       (u "board.cache_hierarchy.ruby_system.l1_controllers.L1Dcache.m_demand_accesses"))
  = Ok l1d
  /\ RunExperiments.calc_miss_rate
       (RunExperiments.parse_stat content
          (u "board.cache_hierarchy.ruby_system.l1_controllers.L1Icache.m_demand_misses"))
       (RunExperiments.parse_stat content
          (u "board.cache_hierarchy.ruby_system.l1_controllers.L1Icache.m_demand_accesses"))
     = Ok l1i
  /\ RunExperiments.calc_miss_rate
       (RunExperiments.parse_stat content
          (u "board.cache_hierarchy.ruby_system.l2_controllers.L2cache.m_demand_misses"))
       (RunExperiments.parse_stat content
          (u "board.cache_hierarchy.ruby_system.l2_controllers.L2cache.m_demand_accesses"))
     = Ok l2.

#[global] Instance cell_eq_dec : EqDecision cell.
Proof. solve_decision. Defined.

(** The cell of a row under the column [name] of the header. *)
Definition column (name : string) (header cells : list cell) : option cell :=
  match List.find (fun p => bool_decide (fst p = CStr (u name))) (combine header cells) with
  | Some (_, c) => Some c
  | None => None
  end.

(** An [int] that [str] and the [d] format can print: at most 4300
    digits. Every [int] that [int] has read from a text is one; a
    difference of two of them may have one digit more. *)
Definition printable (n : Z) : Prop := digits n <= int_max_str_digits.

(** The three counters of [classify_misses.py] and the differences it
    prints can all be printed. *)
Definition printable_counters (total cold_capacity cold : Z) : Prop :=
  printable total /\ printable cold
  /\ printable (cold_capacity - cold) /\ printable (total - cold_capacity).

(** * Properties *)

(** ** Text helpers *)

Lemma span_app_eq (p : N -> bool) (s : str) :
  fst (span p s) ++ snd (span p s) = s.
Proof.
  induction s as [|c s IH]; simpl; [reflexivity|].
  destruct (p c); [|reflexivity].
  destruct (span p s) as [a b]; simpl in *. now rewrite IH.
Qed.

Lemma span_fst_Forall (p : N -> bool) (s : str) :
  Forall (fun c => p c = true) (fst (span p s)).
Proof.
  induction s as [|c s IH]; simpl; [constructor|].
  destruct (p c) eqn:E; [|constructor].
  destruct (span p s) as [a b]; simpl in *. now constructor.
Qed.

Lemma span_snd_head (p : N -> bool) (s : str) :
  match snd (span p s) with
  | [] => True
  | c :: _ => p c = false
  end.
Proof.
  induction s as [|c s IH]; simpl; [exact I|].
  destruct (p c) eqn:E; [|exact E].
  destruct (span p s) as [a b]; simpl in *. exact IH.
Qed.

(** [span] splits exactly at the end of a maximal run. *)
Lemma span_run (p : N -> bool) (a b : str) :
  Forall (fun c => p c = true) a ->
  match b with [] => True | c :: _ => p c = false end ->
  span p (a ++ b) = (a, b).
Proof.
  intros Ha Hb. induction Ha as [|c a Hc Ha IH]; simpl.
  - destruct b as [|c b]; simpl; [reflexivity|]. now rewrite Hb.
  - now rewrite Hc, IH.
Qed.

Lemma lstrip_nonspace (s : str) :
  match s with [] => True | c :: _ => isspace c = false end -> lstrip s = s.
Proof.
  unfold lstrip. destruct s as [|c s]; simpl; [reflexivity|]. now intros ->.
Qed.

(** [strip] leaves a text without whitespace as it is. *)
Lemma strip_nonspace (s : str) :
  Forall (fun c => isspace c = false) s -> strip s = s.
Proof.
  intros Hs. unfold strip, rstrip.
  rewrite (lstrip_nonspace s) by (destruct Hs; auto).
  rewrite lstrip_nonspace, rev_involutive; [reflexivity|].
  apply Forall_rev in Hs. destruct Hs; auto.
Qed.

Lemma split_head_stripped (tok : str) : hash_stripped tok (split_head 35 tok).
Proof.
  unfold hash_stripped, split_head.
  set (p := fun c : N => negb (c =? 35)%N).
  exists (snd (span p tok)). split; [now rewrite span_app_eq|]. split.
  - intros Hin. pose proof (span_fst_Forall p tok) as HF.
    rewrite List.Forall_forall in HF. apply HF in Hin. now vm_compute in Hin.
  - pose proof (span_snd_head p tok) as Hh.
    destruct (snd (span p tok)) as [|c t]; [now left|right].
    exists t. f_equal. unfold p in Hh. apply negb_false_iff in Hh.
    now apply N.eqb_eq in Hh.
Qed.

Lemma split_head_nonspace (tok : str) :
  Forall (fun c => isspace c = false) tok ->
  Forall (fun c => isspace c = false) (split_head 35 tok).
Proof.
  intros Ht. unfold split_head.
  rewrite <- (span_app_eq (fun c => negb (c =? 35)%N) tok) in Ht.
  now apply Forall_app in Ht.
Qed.

(** ** The matcher on the stat pattern *)

Lemma prev_of_cons (prev : option N) (c : N) (s : str) :
  prev_of prev (c :: s) = prev_of (Some c) s.
Proof.
  unfold prev_of. destruct s as [|d s]; [reflexivity|].
  change (last (c :: d :: s)) with (last (d :: s)).
  destruct (last (d :: s)) eqn:E; [reflexivity|].
  now apply last_None in E.
Qed.

Lemma strip_prefix_app (p r : str) : strip_prefix p (p ++ r) = Some r.
Proof. induction p as [|c p IH]; simpl; [reflexivity|]. now rewrite N.eqb_refl. Qed.

Lemma strip_prefix_Some (p s r : str) : strip_prefix p s = Some r -> s = p ++ r.
Proof.
  revert s. induction p as [|c p IH]; intros s; simpl.
  - now intros [= ->].
  - destruct s as [|d s]; [discriminate|].
    destruct (c =? d)%N eqn:E; [|discriminate].
    apply N.eqb_eq in E. subst d. intros Hs. now rewrite (IH _ Hs).
Qed.

Lemma match_here_escape (name : str) (q : list Re.node) (prev : option N)
    (rest opened g : str) :
  Re.match_here (Re.escape name ++ q) prev rest opened g =
  match strip_prefix name rest with
  | Some r => Re.match_here q (prev_of prev name) r opened g
  | None => None
  end.
Proof.
  revert prev rest. induction name as [|c name IH]; intros prev rest; simpl.
  - reflexivity.
  - destruct rest as [|d rest]; [reflexivity|].
    destruct (c =? d)%N eqn:E; [|reflexivity].
    apply N.eqb_eq in E. subst d. now rewrite IH, prev_of_cons.
Qed.

Lemma give_back_ext (f f' : nat -> option str) (k : nat) :
  (forall j, f j = f' j) -> Re.give_back f k = Re.give_back f' k.
Proof. intros E. induction k as [|k IH]; simpl; [reflexivity|]. now rewrite E, IH. Qed.

Lemma give_back_none (f : nat -> option str) (k : nat) :
  (forall j, (1 <= j <= k)%nat -> f j = None) -> Re.give_back f k = None.
Proof.
  induction k as [|k IH]; intros Hf; simpl; [reflexivity|].
  rewrite Hf by lia. apply IH. intros j Hj. apply Hf. lia.
Qed.

(** The capture group with its greedy run of non-whitespace. *)
Lemma match_here_group (prev : option N) (r opened g : str) :
  Re.match_here [Re.GroupOpen; Re.Plus nonspace; Re.GroupClose] prev r opened g =
  match fst (span nonspace r) with
  | [] => None
  | c :: tok => Some (c :: tok)
  end.
Proof.
  simpl. pose proof (span_app_eq nonspace r) as Hr.
  destruct (fst (span nonspace r)) as [|c tok]; [reflexivity|].
  cbn [length Re.give_back]. rewrite <- Hr at 1 2 3.
  change (S (length tok)) with (length (c :: tok)).
  rewrite drop_app_length, length_app.
  replace (length (c :: tok) + length (snd (span nonspace r)) - length (snd (span nonspace r)))%nat
    with (length (c :: tok)) by lia.
  now rewrite take_app_length.
Qed.

Lemma match_here_plus (cls : N -> bool) (q : list Re.node) (prev : option N)
    (rest opened g : str) :
  Re.match_here (Re.Plus cls :: q) prev rest opened g =
  Re.give_back
    (fun k => Re.match_here q (Re.prev_after prev rest k) (skipn k rest) opened g)
    (length (fst (span cls rest))).
Proof. reflexivity. Qed.

Lemma match_here_tail (prev : option N) (r opened g : str) :
  Re.match_here [Re.Plus isspace; Re.GroupOpen; Re.Plus nonspace; Re.GroupClose]
    prev r opened g = token_after r.
Proof.
  rewrite match_here_plus.
  erewrite give_back_ext by (intros j; apply match_here_group).
  unfold token_after.
  pose proof (span_app_eq isspace r) as Hr.
  pose proof (span_fst_Forall isspace r) as Hws.
  destruct (span isspace r) as [[|c ws] r1]; cbn [fst snd] in *; [reflexivity|].
  assert (Hskip : skipn (length (c :: ws)) r = r1)
    by (rewrite <- Hr; apply drop_app_length).
  destruct (fst (span nonspace r1)) as [|d tok] eqn:Htok.
  - apply give_back_none. intros j Hj.
    destruct (decide (j = length (c :: ws))) as [->|Hne].
    + now rewrite Hskip, Htok.
    + rewrite <- Hr, drop_app_le by lia.
      assert (Hd : Forall (fun c => isspace c = true) (skipn j (c :: ws)))
        by now apply Forall_drop.
      destruct (skipn j (c :: ws)) as [|e l] eqn:El.
      * apply (f_equal length) in El. rewrite length_drop in El. simpl in *. lia.
      * simpl. unfold nonspace at 1. inversion Hd as [|? ? He _]; subst. now rewrite He.
  - cbn [length Re.give_back]. cbn [length] in Hskip. now rewrite Hskip, Htok.
Qed.

Lemma match_here_stat_pattern (name : str) (prev : option N) (rest : str) :
  Re.match_here (stat_pattern name) prev rest [] [] = match_at name prev rest.
Proof.
  unfold stat_pattern, match_at. cbn [app Re.match_here].
  destruct (Re.at_bol prev); [|reflexivity].
  rewrite match_here_escape.
  destruct (strip_prefix name rest); [apply match_here_tail|reflexivity].
Qed.

Lemma token_after_Some (r tok : str) :
  token_after r = Some tok <->
  exists ws rest,
    r = ws ++ tok ++ rest
    /\ (ws <> [] /\ Forall (fun c => isspace c = true) ws)
    /\ (tok <> [] /\ Forall (fun c => isspace c = false) tok)
    /\ token_end rest.
Proof.
  unfold token_after. split.
  - pose proof (span_app_eq isspace r) as Hr.
    pose proof (span_fst_Forall isspace r) as Hws.
    destruct (span isspace r) as [[|c ws] r1]; cbn [fst snd] in *; [discriminate|].
    pose proof (span_app_eq nonspace r1) as Hr1.
    pose proof (span_fst_Forall nonspace r1) as Htok.
    pose proof (span_snd_head nonspace r1) as Hend.
    destruct (span nonspace r1) as [[|d t] rest]; cbn [fst snd] in *; [discriminate|].
    intros [= <-]. exists (c :: ws), rest. subst r1. repeat split; try easy.
    + eapply Forall_impl; [exact Htok|]. intros x Hx. now apply negb_true_iff in Hx.
    + destruct rest as [|e rest]; [exact I|]. now apply negb_false_iff in Hend.
  - intros (ws & rest & -> & [Hne Hws] & [Hnt Htok] & Hend).
    assert (Htok' : Forall (fun c => nonspace c = true) tok).
    { eapply Forall_impl; [exact Htok|]. intros x Hx. unfold nonspace. now rewrite Hx. }
    rewrite (span_run isspace ws (tok ++ rest)); cbn [fst snd].
    + rewrite (span_run nonspace tok rest); cbn [fst].
      * destruct ws; [easy|]. destruct tok; easy.
      * exact Htok'.
      * destruct rest as [|e rest]; [exact I|]. unfold nonspace. simpl in Hend. now rewrite Hend.
    + exact Hws.
    + destruct tok as [|d tok]; [easy|]. simpl. now inversion Htok.
Qed.

Lemma at_bol_line_start (pre : str) :
  Re.at_bol (prev_of None pre) = true <-> line_start pre.
Proof.
  unfold prev_of, line_start. destruct (last pre) as [c|] eqn:E; simpl.
  - apply last_Some in E as [pre' ->]. split.
    + intros Hc. apply N.eqb_eq in Hc. subst c. right. now exists pre'.
    + intros [H|[l H]]; [now destruct pre'|].
      apply app_inj_tail in H as [_ ->]. reflexivity.
  - apply last_None in E. subst pre. split; [now left|reflexivity].
Qed.

Lemma stat_line_match (content name pre ws tok rest : str) :
  stat_line content name pre ws tok rest ->
  match_at name (prev_of None pre) (name ++ ws ++ tok ++ rest) = Some tok.
Proof.
  intros [_ Hstart Hws Htok Hend]. unfold match_at.
  apply at_bol_line_start in Hstart. rewrite Hstart, strip_prefix_app.
  apply token_after_Some. now exists ws, rest.
Qed.

Lemma match_stat_line (content name pre post tok : str) :
  content = pre ++ post ->
  match_at name (prev_of None pre) post = Some tok ->
  exists ws rest, stat_line content name pre ws tok rest.
Proof.
  intros -> Hm. unfold match_at in Hm.
  destruct (Re.at_bol (prev_of None pre)) eqn:Hb; [|discriminate].
  destruct (strip_prefix name post) as [r|] eqn:Hp; [|discriminate].
  apply strip_prefix_Some in Hp. subst post.
  apply token_after_Some in Hm as (ws & rest & -> & Hws & Htok & Hend).
  exists ws, rest. split; try easy. now apply at_bol_line_start.
Qed.

(** ** [re.search] finds the leftmost match *)

Lemma search_from_Some (p : list Re.node) (prev : option N) (rest g : str) :
  Re.search_from p prev rest = Some g ->
  exists pre post,
    rest = pre ++ post
    /\ Re.match_here p (prev_of prev pre) post [] [] = Some g
    /\ forall pre' post',
         rest = pre' ++ post' -> (length pre' < length pre)%nat ->
         Re.match_here p (prev_of prev pre') post' [] [] = None.
Proof.
  revert prev. induction rest as [|c rest IH]; intros prev; simpl.
  - destruct (Re.match_here p prev [] [] []) as [g0|] eqn:E; [|discriminate].
    intros [= <-]. exists [], []. repeat split; [exact E|]. simpl. lia.
  - destruct (Re.match_here p prev (c :: rest) [] []) as [g0|] eqn:E.
    + intros [= <-]. exists [], (c :: rest). repeat split; [exact E|]. simpl. lia.
    + intros Hs. apply IH in Hs as (pre & post & -> & Hm & Hmin).
      exists (c :: pre), post. rewrite prev_of_cons. repeat split; [exact Hm|].
      intros [|d pre'] post' Heq Hlen.
      * simpl in Heq. subst post'. exact E.
      * simpl in Heq. injection Heq as <- Heq. rewrite prev_of_cons.
        apply Hmin; [exact Heq|]. simpl in Hlen. lia.
Qed.

Lemma search_from_None (p : list Re.node) (prev : option N) (rest : str) :
  Re.search_from p prev rest = None ->
  forall pre post,
    rest = pre ++ post -> Re.match_here p (prev_of prev pre) post [] [] = None.
Proof.
  revert prev. induction rest as [|c rest IH]; intros prev; simpl.
  - destruct (Re.match_here p prev [] [] []) eqn:E; [discriminate|].
    intros _ pre post Heq. symmetry in Heq. apply app_eq_nil in Heq as [-> ->]. exact E.
  - destruct (Re.match_here p prev (c :: rest) [] []) eqn:E; [discriminate|].
    intros Hs [|d pre] post Heq.
    + simpl in Heq. subst post. exact E.
    + simpl in Heq. injection Heq as <- Heq. rewrite prev_of_cons. now apply IH.
Qed.

Lemma search_first_stat_line (content name pre ws tok rest : str) :
  first_stat_line content name pre ws tok rest ->
  Re.search (stat_pattern name) content = Some tok.
Proof.
  intros [Hline Hmin]. pose proof (stat_line_match _ _ _ _ _ _ Hline) as Hm.
  pose proof (sl_split _ _ _ _ _ _ Hline) as Hc.
  unfold Re.search. destruct (Re.search_from (stat_pattern name) None content) as [g|] eqn:E.
  - apply search_from_Some in E as (pre1 & post1 & Hc1 & Hm1 & Hmin1).
    rewrite match_here_stat_pattern in Hm1.
    destruct (match_stat_line _ _ _ _ _ Hc1 Hm1) as (ws1 & rest1 & Hline1).
    pose proof (Hmin _ _ _ _ Hline1) as Hle.
    destruct (decide (length pre < length pre1)%nat) as [Hlt|Hge].
    + specialize (Hmin1 _ _ Hc Hlt). rewrite match_here_stat_pattern in Hmin1. congruence.
    + assert (Hlen : length pre1 = length pre) by lia.
      rewrite Hc in Hc1. apply app_inj_1 in Hc1 as [-> <-]; [|now symmetry]. congruence.
  - pose proof (search_from_None _ _ _ E _ _ Hc) as Hn.
    rewrite match_here_stat_pattern in Hn. congruence.
Qed.

Lemma search_Some_first (content name tok : str) :
  Re.search (stat_pattern name) content = Some tok ->
  exists pre ws rest, first_stat_line content name pre ws tok rest.
Proof.
  intros E. apply search_from_Some in E as (pre & post & Hc & Hm & Hmin).
  rewrite match_here_stat_pattern in Hm.
  destruct (match_stat_line _ _ _ _ _ Hc Hm) as (ws & rest & Hline).
  exists pre, ws, rest. split; [exact Hline|].
  intros pre' ws' tok' rest' Hline'.
  destruct (decide (length pre' < length pre)%nat) as [Hlt|Hge]; [|lia].
  specialize (Hmin _ _ (sl_split _ _ _ _ _ _ Hline') Hlt).
  rewrite match_here_stat_pattern, (stat_line_match _ _ _ _ _ _ Hline') in Hmin.
  discriminate.
Qed.

Lemma search_None_iff (content name : str) :
  Re.search (stat_pattern name) content = None <->
  ~ exists pre ws tok rest, stat_line content name pre ws tok rest.
Proof.
  split.
  - intros E (pre & ws & tok & rest & Hline).
    pose proof (search_from_None _ _ _ E _ _ (sl_split _ _ _ _ _ _ Hline)) as Hn.
    rewrite match_here_stat_pattern, (stat_line_match _ _ _ _ _ _ Hline) in Hn.
    discriminate.
  - intros Hno. destruct (Re.search (stat_pattern name) content) as [tok|] eqn:E;
      [|reflexivity].
    exfalso. apply Hno. apply search_Some_first in E as (pre & ws & rest & [Hline _]).
    now exists pre, ws, tok, rest.
Qed.

(** ** [parse_stat] *)

Lemma parse_stat_found (content name tok : str) :
  Re.search (stat_pattern name) content = Some tok ->
  Forall (fun c => isspace c = false) tok ->
  RunExperiments.parse_stat content name = split_head 35 tok
  /\ ClassifyMisses.parse_stat content name = Some (split_head 35 tok).
Proof.
  intros E Htok. unfold RunExperiments.parse_stat, ClassifyMisses.parse_stat.
  rewrite E, strip_nonspace by now apply split_head_nonspace. easy.
Qed.

Lemma parse_stat_not_found (content name : str) :
  Re.search (stat_pattern name) content = None ->
  RunExperiments.parse_stat content name = u "N/A"
  /\ ClassifyMisses.parse_stat content name = None.
Proof.
  intros E. unfold RunExperiments.parse_stat, ClassifyMisses.parse_stat.
  now rewrite E.
Qed.

(** C4. [parse_stat], in either driver, matches anchored at the start of a
    line. When [content] has a line that starts with the stat name followed
    by whitespace and a token, the result is the token of the first such
    line without its text from [#] on; a value is returned exactly when
    there is such a line; without one, and so when the name only occurs
    inside lines, the result is the no-match value (["N/A"] in
    [run_experiments.py], [None] in [classify_misses.py]). *)
Theorem parse_stat_line_anchored (content name : str) :
  (forall pre ws tok rest,
     first_stat_line content name pre ws tok rest ->
     exists v,
       hash_stripped tok v
       /\ RunExperiments.parse_stat content name = v
       /\ ClassifyMisses.parse_stat content name = Some v)
  /\ ((exists v, ClassifyMisses.parse_stat content name = Some v) <->
      (exists pre ws tok rest, stat_line content name pre ws tok rest))
  /\ ((exists pre ws tok rest, stat_line content name pre ws tok rest) ->
      exists pre ws tok rest, first_stat_line content name pre ws tok rest)
  /\ (~ (exists pre ws tok rest, stat_line content name pre ws tok rest) ->
      RunExperiments.parse_stat content name = u "N/A"
      /\ ClassifyMisses.parse_stat content name = None)
  /\ ((forall pre post, content = pre ++ name ++ post -> ~ line_start pre) ->
      RunExperiments.parse_stat content name = u "N/A"
      /\ ClassifyMisses.parse_stat content name = None).
Proof.
  assert (Hsome : (exists pre ws tok rest, stat_line content name pre ws tok rest) ->
                  exists pre ws tok rest, first_stat_line content name pre ws tok rest).
  { intros Hex. destruct (Re.search (stat_pattern name) content) as [tok|] eqn:E.
    - apply search_Some_first in E as (pre & ws & rest & Hf). now exists pre, ws, tok, rest.
    - apply search_None_iff in E. contradiction. }
  split; [|split; [|split; [|split]]].
  - intros pre ws tok rest Hf. exists (split_head 35 tok).
    split; [apply split_head_stripped|].
    apply parse_stat_found; [now apply (search_first_stat_line _ _ pre ws tok rest)|].
    destruct Hf as [Hline _]. apply (sl_tok _ _ _ _ _ _ Hline).
  - split.
    + intros [v Hv]. destruct (Re.search (stat_pattern name) content) as [tok|] eqn:E.
      * apply search_Some_first in E as (pre & ws & rest & [Hline _]).
        now exists pre, ws, tok, rest.
      * apply parse_stat_not_found in E as [_ E]. congruence.
    + intros Hex. destruct (Hsome Hex) as (pre & ws & tok & rest & Hf).
      exists (split_head 35 tok).
      apply parse_stat_found; [now apply (search_first_stat_line _ _ pre ws tok rest)|].
      destruct Hf as [Hline _]. apply (sl_tok _ _ _ _ _ _ Hline).
  - exact Hsome.
  - intros Hno. apply parse_stat_not_found. now apply search_None_iff.
  - intros Hmid. apply parse_stat_not_found. apply search_None_iff.
    intros (pre & ws & tok & rest & Hline).
    apply (Hmid pre (ws ++ tok ++ rest)); [apply (sl_split _ _ _ _ _ _ Hline)|].
    apply (sl_start _ _ _ _ _ _ Hline).
Qed.

(** A stats file whose first line for [a.b] carries a comment. *)
Lemma stat_line_example :
  first_stat_line (u "sim.x 1
a.b   12#k  # c
a.b 7
") (u "a.b") (u "sim.x 1
") (u "   ") (u "12#k") (u "  # c
a.b 7
").
Proof.
  split.
  - split; try (vm_compute; easy).
    + right. now exists (u "sim.x 1").
    + split; [easy|]. repeat constructor.
    + split; [easy|]. repeat constructor.
  - intros pre' ws' tok' rest' Hline.
    destruct (decide (length (u "sim.x 1
") <= length pre')%nat) as [Hle|Hgt]; [exact Hle|exfalso].
    destruct Hline as [Hsplit Hstart _ _ _].
    destruct Hstart as [->|[l ->]].
    + vm_compute in Hsplit. discriminate.
    + rewrite length_app in Hgt. vm_compute in Hgt.
      do 8 (destruct l as [|? l]; [vm_compute in Hsplit; try discriminate|]);
        simpl in Hgt; lia.
Qed.

(** The first [a.b] line of that file gives [12], in both drivers. *)
Lemma parse_stat_line_anchored_witness :
  exists v,
    hash_stripped (u "12#k") v
    /\ RunExperiments.parse_stat (u "sim.x 1
a.b   12#k  # c
a.b 7
") (u "a.b") = v
    /\ ClassifyMisses.parse_stat (u "sim.x 1
a.b   12#k  # c
a.b 7
") (u "a.b") = Some v.
Proof.
  exact (proj1 (parse_stat_line_anchored _ _) _ _ _ _ stat_line_example).
Defined.

(** C9, as the code has it. The two [parse_stat] functions extract the same
    text whenever the pattern matches; when it does not,
    [run_experiments.py] returns the string ["N/A"] where
    [classify_misses.py] returns [None]. *)
Theorem parse_stat_agree_on_match (content name : str) :
  RunExperiments.parse_stat content name =
  match ClassifyMisses.parse_stat content name with
  | Some v => v
  | None => u "N/A"
  end.
Proof.
  unfold RunExperiments.parse_stat, ClassifyMisses.parse_stat.
  now destruct (Re.search (stat_pattern name) content).
Qed.

(** C9 as stated fails: on an empty stats file the two functions return
    different values, a string and [None]. *)
Lemma parse_stat_results_differ :
  str_value (RunExperiments.parse_stat [] (u "numCycles")) = PyStr (u "N/A")
  /\ opt_value (ClassifyMisses.parse_stat [] (u "numCycles")) = PyNone
  /\ str_value (RunExperiments.parse_stat [] (u "numCycles"))
     <> opt_value (ClassifyMisses.parse_stat [] (u "numCycles")).
Proof. vm_compute. repeat split; discriminate. Qed.

(** ** The classification step *)

Lemma item_counters (base : gmap str ClassifyMisses.entry)
    (b nc ncap : ClassifyMisses.entry) {A : Type} (f : ClassifyMisses.entry -> A) :
  ClassifyMisses.item (counters base b nc ncap) (u "baseline") f = Ok (f b)
  /\ ClassifyMisses.item (counters base b nc ncap) (u "no_conflict") f = Ok (f nc)
  /\ ClassifyMisses.item (counters base b nc ncap) (u "no_capacity") f = Ok (f ncap).
Proof.
  unfold ClassifyMisses.item, counters. repeat split.
  - rewrite lookup_insert_ne, lookup_insert_ne, lookup_insert_eq by (vm_compute; discriminate).
    reflexivity.
  - rewrite lookup_insert_ne, lookup_insert_eq by (vm_compute; discriminate). reflexivity.
  - now rewrite lookup_insert_eq.
Qed.

(** The step completes exactly when the baseline counter is not zero and
    none of the three percentages leaves the range of a double. *)
Lemma classification_completes_iff `{Runtime}
    (base : gmap str ClassifyMisses.entry) (b nc ncap : ClassifyMisses.entry)
    (w : World) :
  let total := ClassifyMisses.misses b in
  let cold_capacity := ClassifyMisses.misses nc in
  let cold := ClassifyMisses.misses ncap in
  fst (fst (ClassifyMisses.classification (counters base b nc ncap) w)) = Ok tt <->
  (total =? 0) = false
  /\ float_overflow (100 * cold) total = false
  /\ float_overflow (100 * (cold_capacity - cold)) total = false
  /\ float_overflow (100 * (total - cold_capacity)) total = false.
Proof.
  intros total cold_capacity cold.
  unfold ClassifyMisses.classification, bind, lift, print, emit.
  destruct (item_counters base b nc ncap ClassifyMisses.misses) as (-> & -> & ->).
  destruct (item_counters base b nc ncap ClassifyMisses.l1d_size) as (-> & _ & ->).
  destruct (item_counters base b nc ncap ClassifyMisses.l1d_assoc) as (-> & _ & ->).
  fold total cold_capacity cold. unfold int_truediv.
  destruct (total =? 0); [simpl; intuition congruence|].
  destruct (float_overflow (100 * cold) total); [simpl; intuition congruence|].
  destruct (float_overflow (100 * (cold_capacity - cold)) total);
    [simpl; intuition congruence|].
  destruct (float_overflow (100 * (total - cold_capacity)) total);
    [simpl; intuition congruence|].
  destruct (_ =? total); simpl; intuition congruence.
Qed.

(** C1. For any three counters, the capacity misses printed and written
    are [cold_capacity - cold], the conflict misses [total - cold_capacity],
    the sum printed is [total], and the warning that the sum does not match
    is never printed. The step completes, for counters and differences
    that can be printed, exactly when the baseline counter is not zero and
    none of the three percentages leaves the range of a double; when it
    completes, the three kinds of misses, the sum and the confirmation
    have been printed and the rows of the three kinds written, each once. *)
Theorem classification_sums_to_total `{Runtime}
    (base : gmap str ClassifyMisses.entry) (b nc ncap : ClassifyMisses.entry)
    (w : World) :
  let total := ClassifyMisses.misses b in
  let cold_capacity := ClassifyMisses.misses nc in
  let cold := ClassifyMisses.misses ncap in
  let '(r, _, t) := ClassifyMisses.classification (counters base b nc ncap) w in
  ~ In (Print SumMismatch) t
  /\ (forall n, In (Print (Sum n)) t -> n = total)
  /\ (forall n p, In (Print (ColdMisses n p)) t -> n = cold)
  /\ (forall n p, In (Print (CapacityMisses n p)) t -> n = cold_capacity - cold)
  /\ (forall n p, In (Print (ConflictMisses n p)) t -> n = total - cold_capacity)
  /\ (forall f kind n p c,
        In (CsvRow f [CStr kind; CInt n; CPercent p; c]) t ->
        kind = u "Cold" /\ n = cold
        \/ kind = u "Capacity" /\ n = cold_capacity - cold
        \/ kind = u "Conflict" /\ n = total - cold_capacity)
  /\ (r = Ok tt ->
      In (Print (Sum total)) t /\ In (Print VerificationPassed) t
      /\ In (Print (CapacityMisses (cold_capacity - cold)
                      (100 * (cold_capacity - cold), total))) t
      /\ In (Print (ConflictMisses (total - cold_capacity)
                      (100 * (total - cold_capacity), total))) t)
  /\ (printable_counters total cold_capacity cold ->
      (r = Ok tt <->
       total <> 0
       /\ float_overflow (100 * cold) total = false
       /\ float_overflow (100 * (cold_capacity - cold)) total = false
       /\ float_overflow (100 * (total - cold_capacity)) total = false))
  /\ (r = Ok tt ->
      prints t =
      [ Rule; Title; Rule; BaselineConfig; TotalMisses total; MissBreakdown;
        ColdMisses cold (100 * cold, total);
        CapacityMisses (cold_capacity - cold) (100 * (cold_capacity - cold), total);
        ConflictMisses (total - cold_capacity) (100 * (total - cold_capacity), total);
        Dashes; Sum total; VerificationPassed;
        ResultsWritten (path_div SCRIPT_DIR (u "miss_classification.csv")) ]
      /\ csv_rows t =
         [ [ CStr (u "Miss Type"); CStr (u "Total Misses"); CStr (u "Percentage");
             CStr (u "Configuration Used To Discover This") ];
           [ CStr (u "Total"); CInt total; CStr (u "100%");
             CStr (ClassifyMisses.configuration_used (ClassifyMisses.l1d_size b)
                     (ClassifyMisses.l1d_assoc b)) ];
           [ CStr (u "Cold"); CInt cold; CPercent (100 * cold, total);
             CStr (ClassifyMisses.configuration_used (ClassifyMisses.l1d_size ncap)
                     (ClassifyMisses.l1d_assoc ncap)) ];
           [ CStr (u "Capacity"); CInt (cold_capacity - cold);
             CPercent (100 * (cold_capacity - cold), total);
             CStr (u "Difference between (1kB, 8-way) and (8kB, 8-way)") ];
           [ CStr (u "Conflict"); CInt (total - cold_capacity);
             CPercent (100 * (total - cold_capacity), total);
             CStr (u "Difference between (1kB, 2-way) and (1kB, 8-way)") ] ]).
Proof.
  intros total cold_capacity cold.
  unfold ClassifyMisses.classification, bind, lift, print, emit.
  destruct (item_counters base b nc ncap ClassifyMisses.misses) as (-> & -> & ->).
  destruct (item_counters base b nc ncap ClassifyMisses.l1d_size) as (-> & _ & ->).
  destruct (item_counters base b nc ncap ClassifyMisses.l1d_assoc) as (-> & _ & ->).
  fold total cold_capacity cold.
  replace (cold + (cold_capacity - cold) + (total - cold_capacity) =? total) with true
    by (symmetry; apply Z.eqb_eq; lia).
  replace (cold + (cold_capacity - cold) + (total - cold_capacity)) with total by lia.
  unfold int_truediv.
  destruct (total =? 0) eqn:E0.
  - apply Z.eqb_eq in E0. simpl. intuition congruence.
  - apply Z.eqb_neq in E0.
    destruct (float_overflow (100 * cold) total);
      [simpl; intuition congruence|].
    destruct (float_overflow (100 * (cold_capacity - cold)) total);
      [simpl; intuition congruence|].
    destruct (float_overflow (100 * (total - cold_capacity)) total);
      [simpl; intuition congruence|].
    simpl. repeat split; try reflexivity; intuition congruence.
Qed.

(** With the counters 100, 60 and 20 the step completes and reports 20
    cold, 40 capacity and 40 conflict misses. *)
Lemma classification_sums_to_total_witness :
  let e n := {| ClassifyMisses.l1d_size := u "1kB"; ClassifyMisses.l1d_assoc := 2;
                ClassifyMisses.misses := n; ClassifyMisses.purpose := [] |} in
  let '(r, _, t) :=
    @ClassifyMisses.classification Demo.all_succeed (counters ∅ (e 100) (e 60) (e 20)) tt in
  r = Ok tt
  /\ In (Print (CapacityMisses 40 (4000, 100))) t
  /\ In (Print (ConflictMisses 40 (4000, 100))) t
  /\ In (Print (Sum 100)) t /\ In (Print VerificationPassed) t.
Proof.
  intros e.
  pose proof (@classification_sums_to_total Demo.all_succeed ∅ (e 100) (e 60) (e 20) tt)
    as H.
  cbv zeta in H.
  destruct (@ClassifyMisses.classification Demo.all_succeed
              (counters ∅ (e 100) (e 60) (e 20)) tt) as [[r w] t].
  destruct H as (_ & _ & _ & _ & _ & _ & Hok & Hiff & _).
  assert (Hr : r = Ok tt).
  { apply Hiff.
    - repeat split; vm_compute; discriminate.
    - repeat split; [discriminate|vm_compute; reflexivity..]. }
  destruct (Hok Hr) as (H1 & H2 & H3 & H4). now repeat split.
Defined.

(** C10, what the code does. With a baseline counter of zero the first
    percentage divides by zero: the step stops with [ZeroDivisionError]
    after six lines of output, before any CSV file is opened. *)
Theorem classification_zero_total_raises `{Runtime}
    (base : gmap str ClassifyMisses.entry) (nc ncap : ClassifyMisses.entry)
    (size purpose : str) (assoc : Z) (w : World) :
  ClassifyMisses.classification
    (counters base
       {| ClassifyMisses.l1d_size := size; ClassifyMisses.l1d_assoc := assoc;
          ClassifyMisses.misses := 0; ClassifyMisses.purpose := purpose |}
       nc ncap) w
  = (Raise ZeroDivisionError, w,
     [ Print Rule; Print Title; Print Rule; Print BaselineConfig;
       Print (TotalMisses 0); Print MissBreakdown ]).
Proof.
  unfold ClassifyMisses.classification, bind, lift, print, emit.
  destruct (item_counters base
              {| ClassifyMisses.l1d_size := size; ClassifyMisses.l1d_assoc := assoc;
                 ClassifyMisses.misses := 0; ClassifyMisses.purpose := purpose |}
              nc ncap ClassifyMisses.misses) as (-> & -> & ->).
  reflexivity.
Qed.

(** C6, what the code does. All three simulations succeed and each
    statistics file gives a counter, namely zero: [results] has its three
    entries, yet [main] stops with [ZeroDivisionError] and no CSV file is
    opened or written. *)
Theorem main_three_results_no_csv :
  let '(r, _, t) := @ClassifyMisses.main Demo.no_misses tt in
  r = Raise ZeroDivisionError
  /\ map snd (runs t) = [0; 0; 0]
  /\ List.filter (fun m => match m with L1DMisses _ => true | _ => false end) (prints t)
     = [L1DMisses 0; L1DMisses 0; L1DMisses 0]
  /\ csv_opens t = []
  /\ csv_rows t = [].
Proof. vm_compute. repeat split. Qed.

(** ** [assignment3.py] *)

Lemma attrs_in_insert (dests : list str) (ns : Argparse.Namespace) (k : str) (v : pyval) :
  In k dests -> attrs_in dests ns -> attrs_in dests (<[k := v]> ns).
Proof.
  intros Hk Hns j Hj. destruct (decide (k = j)) as [<-|Hne]; [exact Hk|].
  rewrite lookup_insert_ne in Hj by exact Hne. now apply Hns.
Qed.

Lemma find_prefixed_in (parser : list Argparse.action) (o : str)
    (a : Argparse.action) (os : str) :
  In (a, os) (Argparse.find_prefixed parser o) ->
  In a parser /\ In os (Argparse.option_strings a) /\ Argparse.startswith os o = true.
Proof.
  unfold Argparse.find_prefixed. intros Hin.
  apply in_flat_map in Hin as (x & Hx & Hin).
  apply in_map_iff in Hin as (y & [= <- <-] & Hy).
  apply filter_In in Hy as [Hy Hs]. now repeat split.
Qed.

Lemma find_short_in (parser : list Argparse.action) (s : str)
    (a : Argparse.action) (os : str) (e : option str) :
  In (a, os, e) (Argparse.find_short parser s) ->
  In a parser /\ In os (Argparse.option_strings a)
  /\ (os = firstn 2 s /\ e = Some (skipn 2 s) \/ e = None).
Proof.
  unfold Argparse.find_short. intros Hin.
  apply in_flat_map in Hin as (x & Hx & Hin).
  apply in_flat_map in Hin as (y & Hy & Hin).
  unfold str_eqb in Hin. destruct (bool_decide (y = firstn 2 s)) eqn:E.
  - apply bool_decide_eq_true in E. destruct Hin as [[= <- <- <-]|[]].
    split; [exact Hx|]. split; [exact Hy|]. left. now split.
  - destruct (Argparse.startswith y s); [|destruct Hin].
    destruct Hin as [[= <- <- <-]|[]]. split; [exact Hx|]. split; [exact Hy|]. now right.
Qed.

Lemma split_eq_Some (s o e : str) :
  Argparse.split_eq s = (o, Some e) -> s = o ++ 61%N :: e.
Proof.
  unfold Argparse.split_eq.
  pose proof (span_app_eq (fun c => negb (c =? 61)%N) s) as Happ.
  pose proof (span_snd_head (fun c => negb (c =? 61)%N) s) as Hhead.
  destruct (span (fun c => negb (c =? 61)%N) s) as [a b]. cbn [fst snd] in *.
  destruct b as [|c b]; [discriminate|]. intros [= <- <-].
  apply negb_false_iff, N.eqb_eq in Hhead. now subst c.
Qed.

Lemma startswith_refl (s : str) : Argparse.startswith s s = true.
Proof.
  unfold Argparse.startswith, str_eqb. rewrite firstn_all. now apply bool_decide_eq_true.
Qed.

Lemma find_exact_in (parser : list Argparse.action) (o : str) (a : Argparse.action) :
  Argparse.find_exact parser o = Some a -> In a parser /\ In o (Argparse.option_strings a).
Proof.
  unfold Argparse.find_exact. intros E. apply List.find_some in E as [Ha E].
  split; [exact Ha|]. apply existsb_exists in E as (x & Hx & E).
  unfold str_eqb in E. apply bool_decide_eq_true in E. now subst x.
Qed.

(** What a token that names an option says of the argument it was read
    from. *)
Lemma parse_optional_TOpt (parser : list Argparse.action) (s : str)
    (a : Argparse.action) (os : str) (e : option str) :
  Argparse.parse_optional parser s = Ok (Argparse.TOpt a os e) ->
  In a parser /\ In os (Argparse.option_strings a)
  /\ forall x, e = Some x ->
       (exists o, s = o ++ 61%N :: x /\ Argparse.startswith os o = true)
       \/ os = firstn 2 s /\ x = skipn 2 s.
Proof.
  unfold Argparse.parse_optional.
  destruct s as [|c rest]; [discriminate|].
  destruct (c =? 45)%N eqn:Ec; [|].
  - apply N.eqb_eq in Ec. subst c.
    destruct (Argparse.find_exact parser (45%N :: rest)) as [a0|] eqn:E0.
    + intros [= <- <- <-]. apply find_exact_in in E0 as [H1 H2].
      split; [exact H1|]. split; [exact H2|]. discriminate.
    + destruct (bool_decide (rest = [])); [discriminate|].
      destruct (Argparse.split_eq (45%N :: rest)) as [o ex] eqn:Es.
      destruct (match ex with Some _ => Argparse.find_exact parser o | None => None end)
        as [a1|] eqn:E1.
      * intros [= <- <- <-]. destruct ex as [x|]; [|discriminate].
        apply find_exact_in in E1 as [H1 H2].
        split; [exact H1|]. split; [exact H2|]. intros y [= <-]. left.
        exists o. split; [now apply split_eq_Some|apply startswith_refl].
      * destruct (Argparse.get_option_tuples parser (45%N :: rest))
          as [|[[a2 os2] e2] [|m l]] eqn:E2.
        -- repeat match goal with |- context [if ?b then _ else _] => destruct b end;
             discriminate.
        -- intros [= <- <- <-].
           assert (Hin : In (a2, os2, e2) (Argparse.get_option_tuples parser (45%N :: rest)))
             by (rewrite E2; now left).
           clear E2. unfold Argparse.get_option_tuples in Hin.
           destruct rest as [|c2 rest2].
           ++ apply find_short_in in Hin as (H1 & H2 & [[-> ->] | ->]);
                (split; [exact H1|]; split; [exact H2|]); [|discriminate].
              intros y [= <-]. now right.
           ++ destruct (c2 =? 45)%N eqn:Ec2.
              ** apply N.eqb_eq in Ec2. subst c2. rewrite Es in Hin.
                 apply in_map_iff in Hin as ([a3 os3] & [= <- <- <-] & Hin).
                 apply find_prefixed_in in Hin as (H1 & H2 & H3).
                 split; [exact H1|]. split; [exact H2|]. intros y ->. left.
                 exists o. split; [now apply split_eq_Some|exact H3].
              ** assert (Hs : In (a2, os2, e2)
                                (Argparse.find_short parser (45%N :: c2 :: rest2))).
                 { destruct c2 as [|q]; [exact Hin|].
                   repeat (destruct q as [q|q|]; try exact Hin); discriminate Ec2. }
                 apply find_short_in in Hs as (H1 & H2 & [[-> ->] | ->]);
                   (split; [exact H1|]; split; [exact H2|]); [|discriminate].
                 intros y [= <-]. now right.
        -- discriminate.
  - destruct c as [|q]; try discriminate.
    repeat (destruct q as [q|q|]; try discriminate; try (now vm_compute in Ec)).
Qed.

Lemma parse_optional_TArg (parser : list Argparse.action) (s v : str) :
  Argparse.parse_optional parser s = Ok (Argparse.TArg v) -> v = s.
Proof.
  unfold Argparse.parse_optional.
  destruct s as [|c rest]; [now intros [= <-]|].
  destruct (c =? 45)%N eqn:Ec; [|].
  - apply N.eqb_eq in Ec. subst c.
    destruct (Argparse.find_exact parser (45%N :: rest)); [discriminate|].
    destruct (bool_decide (rest = [])); [now intros [= <-]|].
    destruct (Argparse.split_eq (45%N :: rest)) as [o ex].
    destruct (match ex with Some _ => Argparse.find_exact parser o | None => None end);
      [discriminate|].
    destruct (Argparse.get_option_tuples parser (45%N :: rest))
      as [|[[a2 os2] e2] [|m l]]; try discriminate.
    repeat match goal with |- context [if ?b then _ else _] => destruct b end;
      try discriminate; now intros [= <-].
  - destruct c as [|q]; try (now intros [= <-]).
    repeat (destruct q as [q|q|]; try (now intros [= <-]); try (now vm_compute in Ec)).
Qed.

(** The tokens of a command line: an option token was read from one of
    its arguments, and a plain argument [--] comes after the separator. *)
Lemma classify_tokens (parser : list Argparse.action) (argv : list str)
    (toks : list Argparse.token) :
  Argparse.classify parser argv = Ok toks ->
  (forall a os e, In (Argparse.TOpt a os e) toks ->
     exists s, In s argv /\ Argparse.parse_optional parser s = Ok (Argparse.TOpt a os e))
  /\ (In (Argparse.TArg (u "--")) toks -> In Argparse.TDashes toks).
Proof.
  revert toks. induction argv as [|s argv IH]; intros toks; cbn [Argparse.classify].
  - intros [= <-]. split; [intros a os e []|intros []].
  - unfold str_eqb. destruct (bool_decide (s = u "--")) eqn:Ed.
    + intros [= <-]. split; [|intros _; now left].
      intros a os e [Hf|Hin]; [discriminate Hf|].
      apply in_map_iff in Hin as (x & Hf & _). discriminate Hf.
    + apply bool_decide_eq_false in Ed.
      destruct (Argparse.parse_optional parser s) as [t|] eqn:Et; [|discriminate].
      cbn [res_bind]. destruct (Argparse.classify parser argv) as [ts|]; [|discriminate].
      cbn [res_bind]. intros [= <-]. destruct (IH ts eq_refl) as [H1 H2]. split.
      * intros a os e [->|Hin]; [exists s; split; [now left|exact Et]|].
        destruct (H1 a os e Hin) as (x & Hx & E). exists x. split; [now right|exact E].
      * intros [->|Hin]; [|right; now apply H2].
        apply parse_optional_TArg in Et. congruence.
Qed.

Lemma classify_in (parser : list Argparse.action) (argv : list str)
    (toks : list Argparse.token) :
  Argparse.classify parser argv = Ok toks ->
  forall a os e, In (Argparse.TOpt a os e) toks -> In a parser.
Proof.
  intros Hc a os e Hin.
  destruct (proj1 (classify_tokens parser argv toks Hc) a os e Hin) as (s & _ & E).
  now apply parse_optional_TOpt in E.
Qed.

(** What a successful [store] has stored. *)
Lemma store_Ok (a : Argparse.action) (arg : str) (ns ns' : Argparse.Namespace) :
  Argparse.store a arg ns = Ok ns' ->
  exists v, ns' = <[Argparse.dest a := v]> ns /\ given a (arg = u "--") v.
Proof.
  unfold Argparse.store, given, str_eqb.
  destruct (bool_decide (arg = u "--")) eqn:Ed.
  { apply bool_decide_eq_true in Ed. intros [= <-]. exists PyEmptyList.
    split; [reflexivity|]. left. now split. }
  destruct (Argparse.get_value a arg) as [v|] eqn:Ev; [|discriminate]. simpl.
  destruct (Argparse.check_value a v) as [[]|] eqn:Ec; [|discriminate]. simpl.
  intros [= <-]. exists v. split; [reflexivity|]. right. now exists arg.
Qed.

Lemma store_attrs (dests : list str) (a : Argparse.action) (arg : str)
    (ns ns' : Argparse.Namespace) :
  In (Argparse.dest a) dests -> attrs_in dests ns ->
  Argparse.store a arg ns = Ok ns' -> attrs_in dests ns'.
Proof.
  intros Ha Hns Hs. destruct (store_Ok _ _ _ _ Hs) as (v & -> & _).
  now apply attrs_in_insert.
Qed.

(** The help action raises whatever is joined to it. *)
Ltac help_raises :=
  match goal with
  | e : option str |- _ =>
      destruct e; [match goal with |- context [if ?b then _ else _] => destruct b end|];
      discriminate
  end.

Lemma consume_attrs (dests : list str) (parser : list Argparse.action)
    (toks : list Argparse.token) :
  (forall a os e, In (Argparse.TOpt a os e) toks -> In (Argparse.dest a) dests) ->
  forall ns seen extras ns' seen' extras',
    attrs_in dests ns ->
    Argparse.consume parser toks ns seen extras = Ok (ns', seen', extras') ->
    attrs_in dests ns'.
Proof.
  remember (length toks) as n eqn:Hn. revert toks Hn.
  induction n as [n IH] using lt_wf_ind.
  intros toks -> Htoks ns seen extras ns' seen' extras' Hns.
  destruct toks as [|[s|a os e| |] rest]; simpl.
  - now intros [= <- _ _].
  - apply (IH (length rest)); [simpl; lia|reflexivity|intros; eapply Htoks; right; eauto|exact Hns].
  - assert (Ha : In (Argparse.dest a) dests) by (eapply Htoks; left; reflexivity).
    destruct (Argparse.kind_ a); [|help_raises].
    destruct e as [v|].
    + destruct (Argparse.store a v ns) as [ns1|] eqn:Es; [|discriminate]. simpl.
      apply (IH (length rest)); [simpl; lia|reflexivity|intros; eapply Htoks; right; eauto|].
      now apply (store_attrs dests a v ns).
    + destruct rest as [|[v| | |] rest']; try discriminate.
      destruct (Argparse.store a v ns) as [ns1|] eqn:Es; [|discriminate]. simpl.
      apply (IH (length rest')); [simpl; lia|reflexivity|intros; eapply Htoks; right; right; eauto|].
      now apply (store_attrs dests a v ns).
  - apply (IH (length rest)); [simpl; lia|reflexivity|intros; eapply Htoks; right; eauto|exact Hns].
  - apply (IH (length rest)); [simpl; lia|reflexivity|intros; eapply Htoks; right; eauto|exact Hns].
Qed.

Lemma set_defaults_attrs (dests : list str) (parser : list Argparse.action)
    (ns : Argparse.Namespace) :
  (forall a, In a parser -> In (Argparse.dest a) dests) ->
  attrs_in dests ns -> attrs_in dests (Argparse.set_defaults parser ns).
Proof.
  revert ns. induction parser as [|a parser IH]; intros ns Hp Hns; simpl; [exact Hns|].
  apply IH; [intros; apply Hp; now right|].
  destruct (Argparse.default a); [|exact Hns].
  destruct (ns !! Argparse.dest a); [exact Hns|].
  apply attrs_in_insert; [apply Hp; now left|exact Hns].
Qed.

Lemma finish_attrs (dests : list str) (parser : list Argparse.action)
    (seen : list str) (ns ns' : Argparse.Namespace) :
  (forall a, In a parser -> In (Argparse.dest a) dests) ->
  attrs_in dests ns -> Argparse.finish parser seen ns = Ok ns' -> attrs_in dests ns'.
Proof.
  revert ns. induction parser as [|a parser IH]; intros ns Hp Hns; simpl.
  - now intros [= <-].
  - assert (Hp' : forall a, In a parser -> In (Argparse.dest a) dests)
      by (intros; apply Hp; now right).
    destruct (existsb _ seen); [now apply IH|].
    destruct (Argparse.required a); [discriminate|].
    destruct (Argparse.default a) as [[|d| |]|]; try (now apply IH).
    destruct (Argparse.get_value a d) as [v|]; [|discriminate]. simpl.
    apply IH; [exact Hp'|]. apply attrs_in_insert; [apply Hp; now left|exact Hns].
Qed.

(** The attributes of a parsed namespace are [dest]s of the parser. *)
Lemma parse_args_attrs (parser : list Argparse.action) (argv : list str)
    (args : Argparse.Namespace) :
  Argparse.parse_args parser argv = Ok args ->
  attrs_in (map Argparse.dest parser) args.
Proof.
  unfold Argparse.parse_args.
  destruct (Argparse.classify parser argv) as [toks|] eqn:Ec; [|discriminate]. simpl.
  destruct (Argparse.consume parser toks _ [] false) as [[[ns seen] extras]|] eqn:Eo;
    [|discriminate]. simpl.
  destruct (Argparse.finish parser seen ns) as [ns'|] eqn:Ef; [|discriminate]. simpl.
  destruct extras; [discriminate|]. intros [= <-].
  assert (Hp : forall a, In a parser -> In (Argparse.dest a) (map Argparse.dest parser))
    by (intros; now apply in_map).
  eapply finish_attrs; [exact Hp| |exact Ef].
  eapply consume_attrs; [| |exact Eo].
  - intros a os e Hin. apply Hp. eapply classify_in; eauto.
  - apply set_defaults_attrs; [exact Hp|]. intros k Hk. now rewrite lookup_empty in Hk.
Qed.

Lemma has_attrs_insert (names : list str) (ns : Argparse.Namespace) (k : str) (v : pyval) :
  has_attrs names ns -> has_attrs names (<[k := v]> ns).
Proof.
  intros Hns j Hj. destruct (decide (k = j)) as [<-|Hne].
  - now rewrite lookup_insert_eq.
  - rewrite lookup_insert_ne by exact Hne. now apply Hns.
Qed.

Lemma consume_has_attrs (names : list str) (parser : list Argparse.action)
    (toks : list Argparse.token) :
  forall ns seen extras ns' seen' extras',
    has_attrs names ns ->
    Argparse.consume parser toks ns seen extras = Ok (ns', seen', extras') ->
    has_attrs names ns'.
Proof.
  remember (length toks) as n eqn:Hn. revert toks Hn.
  induction n as [n IH] using lt_wf_ind.
  intros toks -> ns seen extras ns' seen' extras' Hns.
  assert (Hstore : forall a v ns1, Argparse.store a v ns = Ok ns1 -> has_attrs names ns1).
  { intros a v ns1 Hs. destruct (store_Ok _ _ _ _ Hs) as (x & -> & _).
    now apply has_attrs_insert. }
  destruct toks as [|[s|a os e| |] rest]; simpl.
  - now intros [= <- _ _].
  - apply (IH (length rest)); [simpl; lia|reflexivity|exact Hns].
  - destruct (Argparse.kind_ a); [|help_raises].
    destruct e as [v|].
    + destruct (Argparse.store a v ns) as [ns1|] eqn:Es; [|discriminate]. simpl.
      apply (IH (length rest)); [simpl; lia|reflexivity|]. now apply (Hstore a v).
    + destruct rest as [|[v| | |] rest']; try discriminate.
      destruct (Argparse.store a v ns) as [ns1|] eqn:Es; [|discriminate]. simpl.
      apply (IH (length rest')); [simpl; lia|reflexivity|]. now apply (Hstore a v).
  - apply (IH (length rest)); [simpl; lia|reflexivity|exact Hns].
  - apply (IH (length rest)); [simpl; lia|reflexivity|exact Hns].
Qed.

Lemma finish_has_attrs (names : list str) (parser : list Argparse.action)
    (seen : list str) (ns ns' : Argparse.Namespace) :
  has_attrs names ns -> Argparse.finish parser seen ns = Ok ns' -> has_attrs names ns'.
Proof.
  revert ns. induction parser as [|a parser IH]; intros ns Hns; simpl.
  - now intros [= <-].
  - destruct (existsb _ seen); [now apply IH|].
    destruct (Argparse.required a); [discriminate|].
    destruct (Argparse.default a) as [[|d| |]|]; try (now apply IH).
    destruct (Argparse.get_value a d) as [v|]; [|discriminate]. simpl.
    apply IH. now apply has_attrs_insert.
Qed.

(** Every attribute set by a default is still there after parsing. *)
Lemma parse_args_has_attrs (parser : list Argparse.action) (argv : list str)
    (args : Argparse.Namespace) :
  Argparse.parse_args parser argv = Ok args ->
  forall k, Argparse.set_defaults parser ∅ !! k <> None -> args !! k <> None.
Proof.
  unfold Argparse.parse_args.
  destruct (Argparse.classify parser argv) as [toks|] eqn:Ec; [|discriminate]. simpl.
  destruct (Argparse.consume parser toks _ [] false) as [[[ns seen] extras]|] eqn:Eo;
    [|discriminate]. simpl.
  destruct (Argparse.finish parser seen ns) as [ns'|] eqn:Ef; [|discriminate]. simpl.
  destruct extras; [discriminate|]. intros [= <-] k Hk.
  assert (H0 : has_attrs [k] (Argparse.set_defaults parser ∅))
    by (intros j [<-|[]]; exact Hk).
  pose proof (consume_has_attrs _ _ _ _ _ _ _ _ _ H0 Eo) as H1.
  pose proof (finish_has_attrs _ _ _ _ _ H1 Ef) as H2.
  apply H2. now left.
Qed.

Lemma getattr_defaulted (argv : list str) (args : Argparse.Namespace) (k : str) :
  Argparse.parse_args Assignment3.parser argv = Ok args ->
  Argparse.set_defaults Assignment3.parser ∅ !! k <> None ->
  exists v, Argparse.getattr args k = Ok v.
Proof.
  intros Hp Hk. pose proof (parse_args_has_attrs _ _ _ Hp k Hk) as Hs.
  unfold Argparse.getattr. destruct (args !! k) as [v|]; [now exists v|easy].
Qed.

(** C3, what the code does. No accepted command line gives the namespace
    an attribute [l1d_size]: the options are declared as [--l1d.size] and
    [--l1d.assoc], so the values sit under [l1d.size] and [l1d.assoc]. The
    read of [args.l1d_size] raises [AttributeError], and the script stops
    there, before the board is built. *)
Theorem cache_hierarchy_read_fails (argv : list str) (args : Argparse.Namespace)
    (isa : Assignment3.ISA) :
  Argparse.parse_args Assignment3.parser argv = Ok args ->
  Assignment3.cache_hierarchy args = Raise (AttributeError (u "l1d_size"))
  /\ Assignment3.board argv isa = Raise (AttributeError (u "l1d_size"))
  /\ (exists size assoc,
        Argparse.getattr args (u "l1d.size") = Ok size
        /\ Argparse.getattr args (u "l1d.assoc") = Ok assoc).
Proof.
  intros Hp.
  assert (Hc : Assignment3.cache_hierarchy args = Raise (AttributeError (u "l1d_size"))).
  { unfold Assignment3.cache_hierarchy, Argparse.getattr.
    destruct (args !! u "l1d_size") as [v|] eqn:E; [exfalso|reflexivity].
    pose proof (parse_args_attrs _ _ _ Hp (u "l1d_size")) as Hin.
    rewrite E in Hin. specialize (Hin ltac:(discriminate)).
    vm_compute in Hin. intuition discriminate. }
  assert (Hd : forall k, Argparse.set_defaults Assignment3.parser ∅ !! u k <> None ->
                         exists v, Argparse.getattr args (u k) = Ok v)
    by (intros k; apply (getattr_defaulted argv args (u k) Hp)).
  split; [exact Hc|split].
  - unfold Assignment3.board, Assignment3.branchPred. rewrite Hp. simpl.
    destruct (Hd "prog"%string) as [? ->]; [vm_compute; discriminate|]. simpl.
    destruct (Hd "daxpy_N"%string) as [? ->]; [vm_compute; discriminate|]. simpl.
    destruct (Hd "queens_N"%string) as [? ->]; [vm_compute; discriminate|]. simpl.
    destruct (Hd "bp"%string) as [? ->]; [vm_compute; discriminate|]. simpl.
    destruct (Hd "bp_size"%string) as [? ->]; [vm_compute; discriminate|]. simpl.
    destruct (Hd "bp_bits"%string) as [? ->]; [vm_compute; discriminate|]. simpl.
    rewrite Hc. now destruct (bool_decide _).
  - destruct (Hd "l1d.size"%string) as [size ->]; [vm_compute; discriminate|].
    destruct (Hd "l1d.assoc"%string) as [assoc ->]; [vm_compute; discriminate|].
    now exists size, assoc.
Qed.

Lemma queens_accepted :
  exists args, Argparse.parse_args Assignment3.parser [u "--prog=queens"] = Ok args.
Proof.
  assert (H : match Argparse.parse_args Assignment3.parser [u "--prog=queens"] with
              | Ok _ => true
              | Raise _ => false
              end = true) by (vm_compute; reflexivity).
  destruct (Argparse.parse_args Assignment3.parser [u "--prog=queens"]) as [args|];
    [now exists args|discriminate].
Qed.

(** The command line [--prog=queens] is accepted and fails so. *)
Lemma cache_hierarchy_read_fails_witness :
  exists args,
    Argparse.parse_args Assignment3.parser [u "--prog=queens"] = Ok args
    /\ Assignment3.cache_hierarchy args = Raise (AttributeError (u "l1d_size"))
    /\ Assignment3.board [u "--prog=queens"] Assignment3.X86
       = Raise (AttributeError (u "l1d_size")).
Proof.
  destruct queens_accepted as [args E]. exists args. split; [exact E|].
  destruct (cache_hierarchy_read_fails _ args Assignment3.X86 E) as (H1 & H2 & _).
  split; [exact H1|exact H2].
Defined.

(** C2, what the code does. The command line
    [--prog=queens --clock.freq=2GHz] is accepted and the namespace holds
    ["2GHz"], but [clk_freq] is the constant ["1GHz"] (["1.2GHz"] on ARM
    and RISC-V) whatever the namespace holds; and the script raises before
    it builds the board. *)
Theorem clk_freq_ignores_option :
  (exists args,
     Argparse.parse_args Assignment3.parser [u "--prog=queens"; u "--clock.freq=2GHz"]
       = Ok args
     /\ Argparse.getattr args (u "clock.freq") = Ok (PyStr (u "2GHz")))
  /\ Assignment3.clk_freq Assignment3.X86 = u "1GHz"
  /\ Assignment3.clk_freq Assignment3.ARM = u "1.2GHz"
  /\ Assignment3.board [u "--prog=queens"; u "--clock.freq=2GHz"] Assignment3.X86
     = Raise (AttributeError (u "l1d_size")).
Proof.
  split; [|vm_compute; repeat split].
  assert (H : match Argparse.parse_args Assignment3.parser
                      [u "--prog=queens"; u "--clock.freq=2GHz"] with
              | Ok args =>
                  bool_decide (args !! u "clock.freq" = Some (PyStr (u "2GHz")))
              | Raise _ => false
              end = true) by (vm_compute; reflexivity).
  destruct (Argparse.parse_args Assignment3.parser
              [u "--prog=queens"; u "--clock.freq=2GHz"]) as [args|];
    [|discriminate].
  exists args. split; [reflexivity|].
  apply bool_decide_eq_true in H. unfold Argparse.getattr. now rewrite H.
Qed.


(** ** [calc_miss_rate] *)

(** A double above zero is not zero, so the guarded division cannot raise. *)
Lemma positive_not_zero (a : float) :
  (0 <? a)%float = true -> (a =? 0)%float = false.
Proof.
  rewrite FloatAxioms.ltb_spec, FloatAxioms.eqb_spec. unfold SFltb, SFeqb.
  change (Prim2SF 0) with (S754_zero false).
  destruct (Prim2SF a) as [s|s| |s m e]; simpl; try discriminate.
  - now destruct s.
  - now destruct s.
Qed.

Lemma calc_miss_rate_total `{Runtime} (misses accesses : str) :
  exists text, RunExperiments.calc_miss_rate misses accesses = Ok text.
Proof.
  unfold RunExperiments.calc_miss_rate, try_except. destruct (res_bind _ _); eauto.
Qed.

Lemma metrics_of_total `{Runtime} (stats_content : str) :
  exists m, RunExperiments.metrics_of stats_content = Ok m.
Proof.
  unfold RunExperiments.metrics_of.
  repeat match goal with
  | |- context [res_bind (RunExperiments.calc_miss_rate ?m ?a) _] =>
      let text := fresh "text" in
      destruct (calc_miss_rate_total m a) as [text ->]; cbn [res_bind]
  end.
  eauto.
Qed.

(** ** The loops of the drivers *)

Lemma run_main_loop_cons `{Runtime} (clock_freq : str) (l1d_assoc : Z) (l1d_size : str)
    (configs : list (str * Z * str)) (results : list RunExperiments.result) (w : World) :
  RunExperiments.main_loop ((clock_freq, l1d_assoc, l1d_size) :: configs) results w =
  let output_dir := RunExperiments.output_dir_of clock_freq l1d_assoc l1d_size in
  let cmd := RunExperiments.command clock_freq l1d_assoc l1d_size output_dir in
  let stats_file := path_div output_dir (u "stats.txt") in
  let start := [ Mkdir output_dir; Print (Running clock_freq l1d_assoc l1d_size);
                 Print (OutputDir output_dir) ] in
  let '(rc, err, w1) := subprocess_run cmd w in
  if rc =? 0 then
    match read_text stats_file w1 with
    | Some stats_content =>
        match RunExperiments.metrics_of stats_content with
        | Ok m =>
            let '(r, w2, t) :=
              RunExperiments.main_loop configs
                (results ++ [ {| RunExperiments.clock_freq := clock_freq;
                                 RunExperiments.l1d_assoc := l1d_assoc;
                                 RunExperiments.l1d_size := l1d_size;
                                 RunExperiments.result_metrics := m |} ]) w1 in
            (r, w2, start ++ [Run cmd rc; Print Completed; Read stats_file; Print Extracted] ++ t)
        | Raise e => (Raise e, w1, start ++ [Run cmd rc; Print Completed; Read stats_file])
        end
    | None =>
        let '(r, w2, t) := RunExperiments.main_loop configs results w1 in
        (r, w2, start ++ [ Run cmd rc; Print Completed; Read stats_file;
                           Print (StatsNotFound stats_file); Print ExtractFailed ] ++ t)
    end
  else
    let '(r, w2, t) := RunExperiments.main_loop configs results w1 in
    (r, w2, failed_iteration (Running clock_freq l1d_assoc l1d_size) output_dir cmd rc err ++ t).
Proof.
  cbn [RunExperiments.main_loop].
  unfold RunExperiments.run_gem5_simulation, RunExperiments.extract_metrics,
    bind, catch, mkdir, print, emit, ret, lift, subprocess_run_check, read_file.
  cbv zeta.
  destruct (subprocess_run _ w) as [[rc err] w1].
  destruct (rc =? 0); cbn [negb app].
  - destruct (read_text _ w1) as [stats_content|].
    + destruct (RunExperiments.metrics_of stats_content) as [m|e]; [|reflexivity].
      now destruct (RunExperiments.main_loop configs _ w1) as [[r w2] t].
    + now destruct (RunExperiments.main_loop configs results w1) as [[r w2] t].
  - now destruct (RunExperiments.main_loop configs results w1) as [[r w2] t].
Qed.

Lemma runs_app (t1 t2 : list event) : runs (t1 ++ t2) = runs t1 ++ runs t2.
Proof. apply omap_app. Qed.

Lemma csv_rows_app (t1 t2 : list event) : csv_rows (t1 ++ t2) = csv_rows t1 ++ csv_rows t2.
Proof. apply omap_app. Qed.

Lemma csv_opens_app (t1 t2 : list event) :
  csv_opens (t1 ++ t2) = csv_opens t1 ++ csv_opens t2.
Proof. apply omap_app. Qed.

(** The loop of [run_experiments.py] never raises; it runs the command of
    each configuration once, in order, each in the world its predecessor
    left; what it adds to [results] belongs to configurations whose run
    succeeded, in the order of the configurations; it writes no CSV. *)
Lemma run_main_loop_spec `{Runtime} (configs : list (str * Z * str)) :
  forall (results : list RunExperiments.result) (w : World),
  exists new,
    let '(r, w', t) := RunExperiments.main_loop configs results w in
    r = Ok (results ++ new)
    /\ (runs t, w') = run_all (map command_of configs) w
    /\ sublist (map config_of new) configs
    /\ (forall c, In c (map config_of new) -> In (command_of c, 0) (runs t))
    /\ csv_opens t = [] /\ csv_rows t = [].
Proof.
  induction configs as [|[[clock_freq l1d_assoc] l1d_size] configs IH]; intros results w.
  - exists []. cbn. rewrite app_nil_r. repeat split; [constructor|intros c []].
  - rewrite run_main_loop_cons. cbn [map run_all]. cbv zeta.
    change (command_of (clock_freq, l1d_assoc, l1d_size))
      with (RunExperiments.command clock_freq l1d_assoc l1d_size
              (RunExperiments.output_dir_of clock_freq l1d_assoc l1d_size)).
    destruct (subprocess_run _ w) as [[rc err] w1].
    destruct (rc =? 0) eqn:Erc.
    + apply Z.eqb_eq in Erc. subst rc.
      destruct (read_text _ w1) as [stats_content|].
      * destruct (metrics_of_total stats_content) as [m ->].
        specialize (IH (results ++ [ {| RunExperiments.clock_freq := clock_freq;
                                        RunExperiments.l1d_assoc := l1d_assoc;
                                        RunExperiments.l1d_size := l1d_size;
                                        RunExperiments.result_metrics := m |} ]) w1).
        destruct IH as [new IH].
        destruct (RunExperiments.main_loop configs _ w1) as [[r w2] t].
        destruct IH as (-> & Hruns & Hsub & Hok & Hopen & Hrows).
        destruct (run_all (map command_of configs) w1) as [l w3].
        injection Hruns as Hruns ->.
        eexists (_ :: new). rewrite <- app_assoc. split; [reflexivity|].
        rewrite !runs_app, !csv_opens_app, !csv_rows_app, Hruns, Hopen, Hrows.
        cbn. repeat split.
        -- now apply sublist_skip.
        -- intros c [<-|Hc]; [now left|right]. rewrite <- Hruns. now apply Hok.
      * destruct (IH results w1) as [new IH'].
        destruct (RunExperiments.main_loop configs results w1) as [[r w2] t].
        destruct IH' as (-> & Hruns & Hsub & Hok & Hopen & Hrows).
        destruct (run_all (map command_of configs) w1) as [l w3].
        injection Hruns as Hruns ->.
        exists new. split; [reflexivity|].
        rewrite !runs_app, !csv_opens_app, !csv_rows_app, Hruns, Hopen, Hrows.
        cbn. repeat split.
        -- now apply sublist_cons.
        -- intros c Hc. right. rewrite <- Hruns. now apply Hok.
    + destruct (IH results w1) as [new IH'].
      destruct (RunExperiments.main_loop configs results w1) as [[r w2] t].
      destruct IH' as (-> & Hruns & Hsub & Hok & Hopen & Hrows).
      destruct (run_all (map command_of configs) w1) as [l w3].
      injection Hruns as Hruns ->.
      exists new. split; [reflexivity|].
      rewrite !runs_app, !csv_opens_app, !csv_rows_app, Hruns, Hopen, Hrows.
      cbn. repeat split.
      * now apply sublist_cons.
      * intros c Hc. right. rewrite <- Hruns. now apply Hok.
Qed.

(** The loop adds exactly the expected results, in order. *)
Lemma run_main_loop_outcomes `{Runtime} (configs : list (str * Z * str)) :
  forall (results : list RunExperiments.result) (w : World),
    let '(r, _, t) := RunExperiments.main_loop configs results w in
    r = Ok (results ++ omap result_of (outcomes configs w))
    /\ runs t = map (fun o => (command_of (fst (fst o)), snd (fst o))) (outcomes configs w).
Proof.
  induction configs as [|[[clock_freq l1d_assoc] l1d_size] configs IH]; intros results w.
  - cbn. now rewrite app_nil_r.
  - rewrite run_main_loop_cons. cbn [outcomes]. cbv zeta.
    change (command_of (clock_freq, l1d_assoc, l1d_size))
      with (RunExperiments.command clock_freq l1d_assoc l1d_size
              (RunExperiments.output_dir_of clock_freq l1d_assoc l1d_size)).
    destruct (subprocess_run _ w) as [[rc err] w1].
    cbn [omap list_omap map fst snd result_of].
    change (stats_file_of (clock_freq, l1d_assoc, l1d_size))
      with (path_div (RunExperiments.output_dir_of clock_freq l1d_assoc l1d_size)
              (u "stats.txt")).
    change (command_of (clock_freq, l1d_assoc, l1d_size))
      with (RunExperiments.command clock_freq l1d_assoc l1d_size
              (RunExperiments.output_dir_of clock_freq l1d_assoc l1d_size)).
    destruct (rc =? 0) eqn:Erc.
    + destruct (read_text _ w1) as [stats_content|].
      * destruct (metrics_of_total stats_content) as [m ->].
        match goal with
        | |- context [RunExperiments.main_loop configs ?r w1] =>
            specialize (IH r w1);
            destruct (RunExperiments.main_loop configs r w1) as [[r' w2] t]
        end.
        destruct IH as [-> Hruns]. rewrite <- app_assoc. split; [reflexivity|].
        rewrite !runs_app, Hruns. reflexivity.
      * specialize (IH results w1).
        destruct (RunExperiments.main_loop configs results w1) as [[r' w2] t].
        destruct IH as [-> Hruns]. split; [reflexivity|].
        rewrite !runs_app, Hruns. reflexivity.
    + specialize (IH results w1).
      destruct (RunExperiments.main_loop configs results w1) as [[r' w2] t].
      destruct IH as [-> Hruns]. split; [reflexivity|].
      rewrite !runs_app, Hruns. reflexivity.
Qed.


Lemma writerows_spec `{Runtime} (csv_file : str) (rows : list (list cell)) (w : World) :
  RunExperiments.writerows csv_file rows w = (Ok tt, w, map (CsvRow csv_file) rows).
Proof.
  induction rows as [|r rows IH]; cbn; [reflexivity|].
  unfold bind, emit. now rewrite IH.
Qed.




Lemma result_of_config `{Runtime} (o : (str * Z * str) * Z * World)
    (r : RunExperiments.result) :
  result_of o = Some r ->
  config_of r = fst (fst o) /\ snd (fst o) = 0
  /\ exists content,
       read_text (stats_file_of (fst (fst o))) (snd o) = Some content
       /\ RunExperiments.metrics_of content = Ok (RunExperiments.result_metrics r).
Proof.
  destruct o as [[[[clock_freq l1d_assoc] l1d_size] rc] w1]. cbn [result_of fst snd].
  destruct (rc =? 0) eqn:Erc; [|discriminate]. apply Z.eqb_eq in Erc.
  destruct (read_text _ w1) as [content|]; [|discriminate].
  destruct (RunExperiments.metrics_of content) as [m|] eqn:Em; [|discriminate].
  intros [= <-]. split; [reflexivity|]. split; [exact Erc|].
  exists content. now split.
Qed.

Lemma result_of_Some `{Runtime} (c : str * Z * str) (w1 : World) (content : str) :
  read_text (stats_file_of c) w1 = Some content ->
  exists m,
    RunExperiments.metrics_of content = Ok m
    /\ result_of (c, 0, w1) =
       Some {| RunExperiments.clock_freq := fst (fst c);
               RunExperiments.l1d_assoc := snd (fst c);
               RunExperiments.l1d_size := snd c;
               RunExperiments.result_metrics := m |}.
Proof.
  intros Hr. destruct (metrics_of_total content) as [m Em]. exists m.
  split; [exact Em|]. cbn [result_of Z.eqb]. now rewrite Hr, Em.
Qed.


(** ** The CSV file of [run_experiments.py] *)

Lemma metrics_of_rates `{Runtime} (content : str) (m : RunExperiments.metrics) :
  RunExperiments.metrics_of content = Ok m ->
  miss_rates content (RunExperiments.l1d_miss_rate m) (RunExperiments.l1i_miss_rate m)
    (RunExperiments.l2_miss_rate m).
Proof.
  unfold RunExperiments.metrics_of, miss_rates.
  repeat match goal with
  | |- context [res_bind (RunExperiments.calc_miss_rate ?m ?a) _] =>
      let text := fresh "text" in
      destruct (calc_miss_rate_total m a) as [text ->]; cbn [res_bind]
  end.
  intros [= <-]. cbn. now repeat split.
Qed.

Lemma no_csv_rows (t : list event) (f : str) (cells : list cell) :
  csv_rows t = [] -> ~ In (CsvRow f cells) t.
Proof.
  intros Hrows Hin. apply list_elem_of_In in Hin.
  assert (Hc : cells ∈ csv_rows t).
  { unfold csv_rows. apply list_elem_of_omap. exists (CsvRow f cells). now split. }
  rewrite Hrows in Hc. now apply not_elem_of_nil in Hc.
Qed.

(** The rows [main] writes: the header and the row of each expected
    result, all to [experiment_results.csv]. *)
Lemma main_csv_events `{Runtime} (w : World) :
  let csv_file := path_div SCRIPT_DIR (u "experiment_results.csv") in
  let '(_, _, t) := RunExperiments.main w in
  (forall f cells,
     In (CsvRow f cells) t ->
     f = csv_file
     /\ (cells = RunExperiments.fieldnames
         \/ exists c w1 content m,
              In (c, 0, w1) (outcomes RunExperiments.CONFIGS w)
              /\ read_text (stats_file_of c) w1 = Some content
              /\ RunExperiments.metrics_of content = Ok m
              /\ cells = RunExperiments.row
                           {| RunExperiments.clock_freq := fst (fst c);
                              RunExperiments.l1d_assoc := snd (fst c);
                              RunExperiments.l1d_size := snd c;
                              RunExperiments.result_metrics := m |}))
  /\ (forall c w1 content,
        In (c, 0, w1) (outcomes RunExperiments.CONFIGS w) ->
        read_text (stats_file_of c) w1 = Some content ->
        exists m,
          RunExperiments.metrics_of content = Ok m
          /\ In (CsvRow csv_file
                   (RunExperiments.row
                      {| RunExperiments.clock_freq := fst (fst c);
                         RunExperiments.l1d_assoc := snd (fst c);
                         RunExperiments.l1d_size := snd c;
                         RunExperiments.result_metrics := m |})) t
          /\ In (CsvRow csv_file RunExperiments.fieldnames) t).
Proof.
  intros csv_file. unfold RunExperiments.main, bind.
  generalize RunExperiments.CONFIGS. intros configs.
  destruct (run_main_loop_spec configs [] w) as [new Hloop].
  pose proof (run_main_loop_outcomes configs [] w) as Hexact.
  destruct (RunExperiments.main_loop configs [] w) as [[r w1] t].
  destruct Hloop as (-> & _ & _ & _ & _ & Hrows).
  destruct Hexact as [Hnew _]. cbn [app] in Hnew. injection Hnew as ->.
  cbn [app].
  assert (Hrow : forall x, In x (omap result_of (outcomes configs w)) ->
            exists c w1 content m,
              In (c, 0, w1) (outcomes configs w)
              /\ read_text (stats_file_of c) w1 = Some content
              /\ RunExperiments.metrics_of content = Ok m
              /\ x = {| RunExperiments.clock_freq := fst (fst c);
                        RunExperiments.l1d_assoc := snd (fst c);
                        RunExperiments.l1d_size := snd c;
                        RunExperiments.result_metrics := m |}).
  { intros x Hx. apply list_elem_of_In, list_elem_of_omap in Hx as (o & Ho & Hres).
    destruct (result_of_config o x Hres) as (Hcfg & Hrc & content & Hread & Hm).
    destruct o as [[c rc] w1']. cbn [fst snd] in *. subst rc.
    exists c, w1', content, (RunExperiments.result_metrics x).
    split; [now apply list_elem_of_In|]. split; [exact Hread|]. split; [exact Hm|].
    destruct x as [cf la ls m]. unfold config_of in Hcfg. cbn in Hcfg. now subst c. }
  destruct (omap result_of (outcomes configs w)) as [|x results] eqn:Eres.
  - cbn. split.
    + intros f cells Hin. apply in_app_or in Hin as [Hin|[Hin|[]]]; [|discriminate Hin].
      now apply (no_csv_rows _ _ _ Hrows) in Hin.
    + intros c w1' content Ho Hread.
      destruct (result_of_Some c w1' content Hread) as (m & _ & Hres).
      assert (Hx : Some {| RunExperiments.clock_freq := fst (fst c);
                           RunExperiments.l1d_assoc := snd (fst c);
                           RunExperiments.l1d_size := snd c;
                           RunExperiments.result_metrics := m |}
                   = result_of (c, 0, w1')) by now rewrite Hres.
      assert (Hin : {| RunExperiments.clock_freq := fst (fst c);
                       RunExperiments.l1d_assoc := snd (fst c);
                       RunExperiments.l1d_size := snd c;
                       RunExperiments.result_metrics := m |}
                    ∈ omap result_of (outcomes configs w)).
      { apply list_elem_of_omap. exists (c, 0, w1').
        split; [now apply list_elem_of_In|now symmetry]. }
      rewrite Eres in Hin. now apply not_elem_of_nil in Hin.
  - unfold RunExperiments.write_results, bind, print, emit.
    rewrite writerows_spec. cbv beta iota zeta. fold csv_file.
    split.
    + intros f cells Hin. apply in_app_or in Hin as [Hin|Hin];
        [now apply (no_csv_rows _ _ _ Hrows) in Hin|].
      cbn [app] in Hin. destruct Hin as [Hin|[Hin|Hin]]; [discriminate Hin| |].
      * injection Hin as <- <-. split; [reflexivity|now left].
      * apply in_app_or in Hin as [Hin|[Hin|[Hin|[]]]]; try discriminate Hin.
        apply in_map_iff in Hin as (cells' & [= <- <-] & Hin).
        apply in_map_iff in Hin as (y & <- & Hy).
        split; [reflexivity|right].
        destruct (Hrow y Hy) as (c & w1' & content & m & Ho & Hread & Hm & ->).
        now exists c, w1', content, m.
    + intros c w1' content Ho Hread.
      destruct (result_of_Some c w1' content Hread) as (m & Hm & Hres).
      exists m. split; [exact Hm|]. split.
      * apply in_or_app. right. cbn [app]. right. right. apply in_or_app. left.
        apply in_map, in_map. rewrite <- Eres.
        apply list_elem_of_In, list_elem_of_omap. exists (c, 0, w1').
        split; [now apply list_elem_of_In|exact Hres].
      * apply in_or_app. right. cbn [app]. right. now left.
Qed.

(** C7. [calc_miss_rate] never raises. It returns ["N/A"] when [accesses]
    is ["N/A"], when either text is not a number, and when [accesses] is
    not above zero; otherwise it returns the quotient of the two doubles
    printed with six fraction digits. The three miss-rate fields of the
    metrics are computed by it from the parsed counters, and so are the
    columns [l1d_miss_rate], [l1i_miss_rate] and [l2_miss_rate] of the CSV
    file: every row [main] writes after the header belongs to a
    configuration whose run exited with status 0 and holds, in these
    columns, the three rates of the statistics file that run left; and
    every such configuration with a statistics file has its row. *)
Theorem calc_miss_rate_rule `{Runtime} (misses accesses : str) :
  (exists text, RunExperiments.calc_miss_rate misses accesses = Ok text)
  /\ (accesses = u "N/A" ->
      RunExperiments.calc_miss_rate misses accesses = Ok (u "N/A"))
  /\ (float_of_str accesses = None ->
      RunExperiments.calc_miss_rate misses accesses = Ok (u "N/A"))
  /\ (float_of_str misses = None ->
      RunExperiments.calc_miss_rate misses accesses = Ok (u "N/A"))
  /\ (forall a, float_of_str accesses = Some a -> (0 <? a)%float = false ->
      RunExperiments.calc_miss_rate misses accesses = Ok (u "N/A"))
  /\ (forall m a,
        accesses <> u "N/A" ->
        float_of_str misses = Some m -> float_of_str accesses = Some a ->
        (0 <? a)%float = true ->
        RunExperiments.calc_miss_rate misses accesses = Ok (format_6f (m / a)%float))
  /\ (forall stats_content,
        exists m,
          RunExperiments.metrics_of stats_content = Ok m
          /\ Ok (RunExperiments.l1d_miss_rate m) =
             RunExperiments.calc_miss_rate
               (RunExperiments.parse_stat stats_content
                  (u "board.cache_hierarchy.ruby_system.l1_controllers.L1Dcache.m_demand_misses"))
               (RunExperiments.parse_stat stats_content
                  (u "board.cache_hierarchy.ruby_system.l1_controllers.L1Dcache.m_demand_accesses"))
          /\ Ok (RunExperiments.l1i_miss_rate m) =
             RunExperiments.calc_miss_rate
               (RunExperiments.parse_stat stats_content
                  (u "board.cache_hierarchy.ruby_system.l1_controllers.L1Icache.m_demand_misses"))
               (RunExperiments.parse_stat stats_content
                  (u "board.cache_hierarchy.ruby_system.l1_controllers.L1Icache.m_demand_accesses"))
          /\ Ok (RunExperiments.l2_miss_rate m) =
             RunExperiments.calc_miss_rate
               (RunExperiments.parse_stat stats_content
                  (u "board.cache_hierarchy.ruby_system.l2_controllers.L2cache.m_demand_misses"))
               (RunExperiments.parse_stat stats_content
                  (u "board.cache_hierarchy.ruby_system.l2_controllers.L2cache.m_demand_accesses")))
  /\ (forall (w : World),
        let '(_, _, t) := RunExperiments.main w in
        (forall f cells,
           In (CsvRow f cells) t ->
           f = path_div SCRIPT_DIR (u "experiment_results.csv")
           /\ (cells = RunExperiments.fieldnames
               \/ exists c w1 content l1d l1i l2,
                    In (c, 0, w1) (outcomes RunExperiments.CONFIGS w)
                    /\ read_text (stats_file_of c) w1 = Some content
                    /\ miss_rates content l1d l1i l2
                    /\ column "clock_freq" RunExperiments.fieldnames cells
                       = Some (CStr (fst (fst c)))
                    /\ column "l1d_assoc" RunExperiments.fieldnames cells
                       = Some (CInt (snd (fst c)))
                    /\ column "l1d_size" RunExperiments.fieldnames cells
                       = Some (CStr (snd c))
                    /\ column "l1d_miss_rate" RunExperiments.fieldnames cells
                       = Some (CStr l1d)
                    /\ column "l1i_miss_rate" RunExperiments.fieldnames cells
                       = Some (CStr l1i)
                    /\ column "l2_miss_rate" RunExperiments.fieldnames cells
                       = Some (CStr l2)))
        /\ (forall c w1 content,
              In (c, 0, w1) (outcomes RunExperiments.CONFIGS w) ->
              read_text (stats_file_of c) w1 = Some content ->
              exists cells l1d l1i l2,
                In (CsvRow (path_div SCRIPT_DIR (u "experiment_results.csv")) cells) t
                /\ In (CsvRow (path_div SCRIPT_DIR (u "experiment_results.csv"))
                         RunExperiments.fieldnames) t
                /\ miss_rates content l1d l1i l2
                /\ column "clock_freq" RunExperiments.fieldnames cells
                   = Some (CStr (fst (fst c)))
                /\ column "l1d_assoc" RunExperiments.fieldnames cells
                   = Some (CInt (snd (fst c)))
                /\ column "l1d_size" RunExperiments.fieldnames cells
                   = Some (CStr (snd c))
                /\ column "l1d_miss_rate" RunExperiments.fieldnames cells
                   = Some (CStr l1d)
                /\ column "l1i_miss_rate" RunExperiments.fieldnames cells
                   = Some (CStr l1i)
                /\ column "l2_miss_rate" RunExperiments.fieldnames cells
                   = Some (CStr l2))).
Proof.
  pose proof calc_miss_rate_total as Htotal.
  split; [apply Htotal|].
  split; [|split; [|split; [|split; [|split; [|split]]]]];
    [unfold RunExperiments.calc_miss_rate, float_, float_truediv, str_eqb ..| |].
  - intros ->. now rewrite bool_decide_eq_true_2.
  - intros ->. now destruct (bool_decide _).
  - intros ->. destruct (bool_decide _); [reflexivity|]. simpl.
    destruct (float_of_str accesses) as [a|]; [|reflexivity]. simpl.
    now destruct (0 <? a)%float.
  - intros a -> Ha. destruct (bool_decide _); [reflexivity|]. simpl. now rewrite Ha.
  - intros m a Hne -> -> Ha. rewrite bool_decide_eq_false_2 by exact Hne. simpl.
    now rewrite Ha, (positive_not_zero a Ha).
  - intros stats_content. unfold RunExperiments.metrics_of.
    repeat match goal with
    | |- context [res_bind (RunExperiments.calc_miss_rate ?m ?a) _] =>
        let text := fresh "text" in
        destruct (Htotal m a) as [text ->]; cbn [res_bind]
    end.
    eexists. split; [reflexivity|]. cbn. repeat split.
  - intros w. pose proof (main_csv_events w) as Hmain.
    destruct (RunExperiments.main w) as [[r w'] t]. destruct Hmain as [Hall Hex].
    split.
    + intros f cells Hin. destruct (Hall f cells Hin) as [-> [->|Hrow]];
        (split; [reflexivity|]); [now left|right].
      destruct Hrow as (c & w1 & content & m & Ho & Hread & Hm & ->).
      destruct (metrics_of_rates content m Hm) as (H1 & H2 & H3).
      exists c, w1, content, (RunExperiments.l1d_miss_rate m),
        (RunExperiments.l1i_miss_rate m), (RunExperiments.l2_miss_rate m).
      split; [exact Ho|]. split; [exact Hread|]. split; [now repeat split|].
      now repeat split.
    + intros c w1 content Ho Hread.
      destruct (Hex c w1 content Ho Hread) as (m & Hm & Hrow & Hhead).
      destruct (metrics_of_rates content m Hm) as (H1 & H2 & H3).
      eexists _, (RunExperiments.l1d_miss_rate m),
        (RunExperiments.l1i_miss_rate m), (RunExperiments.l2_miss_rate m).
      split; [exact Hrow|]. split; [exact Hhead|]. split; [now repeat split|].
      now repeat split.
Qed.

(** With the table runtime: one miss in four accesses is printed as
    [0.250000], and that is what the column [l1d_miss_rate] of a row of
    the CSV file holds when every statistics file reports one L1D miss in
    four accesses; the L1I counters are missing and its column holds
    [N/A]. *)
Lemma calc_miss_rate_rule_witness :
  @RunExperiments.calc_miss_rate Demo.all_succeed (u "1") (u "4") = Ok (u "0.250000")
  /\ let '(_, _, t) := @RunExperiments.main Demo.all_succeed tt in
     exists cells,
       In (CsvRow (u "/work/experiment_results.csv") cells) t
       /\ column "l1d_miss_rate" RunExperiments.fieldnames cells
          = Some (CStr (u "0.250000"))
       /\ column "l1i_miss_rate" RunExperiments.fieldnames cells
          = Some (CStr (u "N/A")).
Proof.
  destruct (@calc_miss_rate_rule Demo.all_succeed (u "1") (u "4"))
    as (_ & _ & _ & _ & _ & Hq & _ & Hrows).
  split; [exact (Hq 1%float 4%float ltac:(discriminate) eq_refl eq_refl eq_refl)|].
  specialize (Hrows tt).
  destruct (@RunExperiments.main Demo.all_succeed tt) as [[r w'] t].
  destruct Hrows as [_ Hex].
  destruct (Hex (u "1GHz", 2, u "1kB") tt _ ltac:(left; reflexivity) eq_refl)
    as (cells & l1d & l1i & l2 & Hin & _ & (H1 & H2 & _) & _ & _ & _ & C1 & C2 & _).
  exists cells. split; [exact Hin|].
  vm_compute in H1, H2. injection H1 as <-. injection H2 as <-.
  split; assumption.
Defined.




Lemma classify_main_loop_cons `{Runtime} (name l1d_size : str) (l1d_assoc : Z)
    (purpose : str) (configs : list (str * str * Z * str))
    (results : gmap str ClassifyMisses.entry) (w : World) :
  ClassifyMisses.main_loop ((name, l1d_size, l1d_assoc, purpose) :: configs) results w =
  let output_dir := path_div SCRIPT_DIR (u "miss_classify_" ++ name) in
  let cmd := ClassifyMisses.command l1d_size l1d_assoc output_dir in
  let stats_file := path_div output_dir (u "stats.txt") in
  let start := [ Mkdir output_dir; Print (RunningNamed name l1d_size l1d_assoc);
                 Print (OutputDir output_dir) ] in
  let '(rc, err, w1) := subprocess_run cmd w in
  if rc =? 0 then
    match read_text stats_file w1 with
    | Some stats_content =>
        match ClassifyMisses.parse_stat stats_content
                (u "board.cache_hierarchy.ruby_system.l1_controllers.L1Dcache.m_demand_misses") with
        | Some (c :: text) =>
            match py_int (c :: text) with
            | Ok n =>
                let '(r, w2, t) :=
                  ClassifyMisses.main_loop configs
                    (<[name := {| ClassifyMisses.l1d_size := l1d_size;
                                  ClassifyMisses.l1d_assoc := l1d_assoc;
                                  ClassifyMisses.misses := n;
                                  ClassifyMisses.purpose := purpose |}]> results) w1 in
                (r, w2, start ++ [ Run cmd rc; Print Completed; Read stats_file;
                                   Print (L1DMisses n) ] ++ t)
            | Raise e => (Raise e, w1, start ++ [Run cmd rc; Print Completed; Read stats_file])
            end
        | _ =>
            let '(r, w2, t) := ClassifyMisses.main_loop configs results w1 in
            (r, w2, start ++ [ Run cmd rc; Print Completed; Read stats_file;
                               Print ExtractMissesFailed ] ++ t)
        end
    | None =>
        let '(r, w2, t) := ClassifyMisses.main_loop configs results w1 in
        (r, w2, start ++ [ Run cmd rc; Print Completed; Read stats_file;
                           Print (StatsNotFound stats_file); Print ExtractMissesFailed ] ++ t)
    end
  else
    let '(r, w2, t) := ClassifyMisses.main_loop configs results w1 in
    (r, w2,
     failed_iteration (RunningNamed name l1d_size l1d_assoc) output_dir cmd rc err ++ t).
Proof.
  cbn [ClassifyMisses.main_loop].
  unfold ClassifyMisses.run_gem5_simulation, ClassifyMisses.extract_l1d_misses,
    bind, catch, mkdir, print, emit, ret, lift, subprocess_run_check, read_file.
  cbv zeta.
  destruct (subprocess_run _ w) as [[rc err] w1].
  destruct (rc =? 0); cbn [negb app].
  - destruct (read_text _ w1) as [stats_content|].
    + destruct (ClassifyMisses.parse_stat stats_content _) as [[|c text]|].
      * now destruct (ClassifyMisses.main_loop configs results w1) as [[r w2] t].
      * destruct (py_int (c :: text)) as [n|e]; [|reflexivity].
        now destruct (ClassifyMisses.main_loop configs _ w1) as [[r w2] t].
      * now destruct (ClassifyMisses.main_loop configs results w1) as [[r w2] t].
    + now destruct (ClassifyMisses.main_loop configs results w1) as [[r w2] t].
  - now destruct (ClassifyMisses.main_loop configs results w1) as [[r w2] t].
Qed.

(** The loop of [classify_misses.py] writes no CSV. When it does not raise,
    it has run the command of each configuration once, in order, and an
    entry of [results] that it set belongs to a configuration whose run
    succeeded. *)
Lemma classify_main_loop_spec `{Runtime} (configs : list (str * str * Z * str)) :
  forall (results : gmap str ClassifyMisses.entry) (w : World),
    let '(r, w', t) := ClassifyMisses.main_loop configs results w in
    csv_opens t = [] /\ csv_rows t = []
    /\ forall results',
         r = Ok results' ->
         (runs t, w') = run_all (map classify_command_of configs) w
         /\ forall name,
              results' !! name = results !! name
              \/ exists l1d_size l1d_assoc purpose,
                   In (name, l1d_size, l1d_assoc, purpose) configs
                   /\ In (classify_command_of (name, l1d_size, l1d_assoc, purpose), 0)
                        (runs t).
Proof.
  induction configs as [|[[[name l1d_size] l1d_assoc] purpose] configs IH];
    intros results w.
  - cbn. split; [reflexivity|split; [reflexivity|]].
    intros results' [= <-]. split; [reflexivity|]. intros name. now left.
  - rewrite classify_main_loop_cons. cbn [map run_all]. cbv zeta.
    change (classify_command_of (name, l1d_size, l1d_assoc, purpose))
      with (ClassifyMisses.command l1d_size l1d_assoc
              (path_div SCRIPT_DIR (u "miss_classify_" ++ name))).
    set (cmd := ClassifyMisses.command l1d_size l1d_assoc
                  (path_div SCRIPT_DIR (u "miss_classify_" ++ name))).
    assert (Hskip : forall rc (r : res (gmap str ClassifyMisses.entry)) w1 w2 t tr,
      csv_opens tr = csv_opens t -> csv_rows tr = csv_rows t ->
      runs tr = (cmd, rc) :: runs t ->
      (csv_opens t = [] /\ csv_rows t = []
       /\ forall results',
            r = Ok results' ->
            (runs t, w2) = run_all (map classify_command_of configs) w1
            /\ forall k,
                 results' !! k = results !! k
                 \/ exists s a p,
                      In (k, s, a, p) configs
                      /\ In (classify_command_of (k, s, a, p), 0) (runs t)) ->
      csv_opens tr = [] /\ csv_rows tr = []
      /\ forall results',
           r = Ok results' ->
           (runs tr, w2) =
             (let '(l, w3) := run_all (map classify_command_of configs) w1 in
              ((cmd, rc) :: l, w3))
           /\ forall k,
                results' !! k = results !! k
                \/ exists s a p,
                     In (k, s, a, p) ((name, l1d_size, l1d_assoc, purpose) :: configs)
                     /\ In (classify_command_of (k, s, a, p), 0) (runs tr)).
    { intros rc r w1 w2 t tr -> -> -> (Hopen & Hrows & Hok).
      split; [exact Hopen|split; [exact Hrows|]].
      intros results' Hr. destruct (Hok results' Hr) as [Hruns Hent]. split.
      - destruct (run_all (map classify_command_of configs) w1) as [l w3].
        now injection Hruns as -> ->.
      - intros k. destruct (Hent k) as [Hk|(s & a & p & Hin & Hrun)]; [now left|right].
        exists s, a, p. split; [now right|]. now right. }
    destruct (subprocess_run cmd w) as [[rc err] w1] eqn:Hrun.
    destruct (rc =? 0) eqn:Erc.
    + apply Z.eqb_eq in Erc. subst rc.
      destruct (read_text _ w1) as [stats_content|].
      * destruct (ClassifyMisses.parse_stat stats_content _) as [[|c text]|].
        -- specialize (IH results w1).
           destruct (ClassifyMisses.main_loop configs results w1) as [[r w2] t].
           now apply (Hskip 0 r w1 w2 t).
        -- destruct (py_int (c :: text)) as [n|e]; [|repeat split; discriminate].
           match goal with
           | |- context [ClassifyMisses.main_loop configs ?m w1] => specialize (IH m w1)
           end.
           destruct (ClassifyMisses.main_loop configs _ w1) as [[r w2] t].
           destruct IH as (Hopen & Hrows & IH).
           split; [exact Hopen|split; [exact Hrows|]].
           intros results' Hr. destruct (IH results' Hr) as [Hruns Hent]. split.
           ++ destruct (run_all (map classify_command_of configs) w1) as [l w3].
              injection Hruns as <- <-. reflexivity.
           ++ intros k. destruct (decide (name = k)) as [<-|Hne].
              ** right. exists l1d_size, l1d_assoc, purpose. split; now left.
              ** destruct (Hent k) as [Hk|(s & a & p & Hin & Hok)].
                 --- left. now rewrite Hk, lookup_insert_ne.
                 --- right. exists s, a, p. split; [now right|]. now right.
        -- specialize (IH results w1).
           destruct (ClassifyMisses.main_loop configs results w1) as [[r w2] t].
           now apply (Hskip 0 r w1 w2 t).
      * specialize (IH results w1).
        destruct (ClassifyMisses.main_loop configs results w1) as [[r w2] t].
        now apply (Hskip 0 r w1 w2 t).
    + specialize (IH results w1).
      destruct (ClassifyMisses.main_loop configs results w1) as [[r w2] t].
      now apply (Hskip rc r w1 w2 t).
Qed.




(** ** The drivers against the script *)

(** X1. The command lines the drivers build are not accepted by the script's
    parser: it knows [--l1d.size], [--l1d.assoc] and [--clock.freq], the
    drivers pass [--l1d_size], [--l1d_assoc] and [--clock_freq]. The
    script sees what follows its own path on the command line. *)
Theorem driver_commands_rejected `{Runtime} :
  Forall (fun c => Argparse.parse_args Assignment3.parser (skipn 3 (command_of c))
                   = Raise (SystemExit 2)) RunExperiments.CONFIGS
  /\ Forall (fun c => Argparse.parse_args Assignment3.parser
                        (skipn 3 (classify_command_of c))
                      = Raise (SystemExit 2)) ClassifyMisses.CONFIGS.
Proof. split; repeat constructor; vm_compute; reflexivity. Qed.

(** X2. [classify_misses.py] opens its CSV file only after each of its
    three commands has exited with status 0. *)
Theorem csv_only_after_three_runs `{Runtime} (w : World) :
  let '(_, _, t) := ClassifyMisses.main w in
  csv_opens t = []
  \/ Forall (fun c => In (classify_command_of c, 0) (runs t)) ClassifyMisses.CONFIGS.
Proof.
  unfold ClassifyMisses.main, bind.
  pose proof (classify_main_loop_spec ClassifyMisses.CONFIGS ∅ w) as Hspec.
  destruct (ClassifyMisses.main_loop ClassifyMisses.CONFIGS ∅ w) as [[[results|e] w1] t];
    destruct Hspec as (Hopen & _ & Hspec); [|now left].
  destruct (Hspec results eq_refl) as [_ Hent].
  destruct (size results =? 3)%nat eqn:Esize.
  - apply Nat.eqb_eq in Esize.
    destruct (ClassifyMisses.classification results w1) as [[r w2] t'].
    right.
    set (names := ({[u "baseline"; u "no_conflict"; u "no_capacity"]} : gset str)).
    assert (Hdom : dom results = names).
    { apply set_subseteq_size_eq.
      - intros k Hk. apply elem_of_dom in Hk as [e Hk].
        destruct (Hent k) as [Hnone|(s & a & p & Hcfg & _)].
        + rewrite lookup_empty in Hnone. congruence.
        + vm_compute in Hcfg. unfold names.
          destruct Hcfg as [E|[E|[E|[]]]]; simplify_eq; set_solver.
      - rewrite size_dom, Esize. now vm_compute. }
    assert (Hrun : forall k s a p,
              k ∈ names -> In (k, s, a, p) ClassifyMisses.CONFIGS ->
              In (classify_command_of (k, s, a, p), 0) (runs (t ++ t'))).
    { intros k s a p Hk Hcfg. rewrite <- Hdom in Hk. apply elem_of_dom in Hk as [e Hk].
      destruct (Hent k) as [Hnone|(s' & a' & p' & Hcfg' & Hok)].
      - rewrite lookup_empty in Hnone. congruence.
      - assert (Hsame : (k, s', a', p') = (k, s, a, p)).
        { clear -Hcfg Hcfg'. vm_compute in Hcfg, Hcfg'.
          destruct Hcfg as [E|[E|[E|[]]]], Hcfg' as [E'|[E'|[E'|[]]]];
            simplify_eq; reflexivity. }
        rewrite Hsame in Hok. rewrite runs_app. apply in_or_app. now left. }
    unfold ClassifyMisses.CONFIGS.
    repeat constructor; (apply Hrun; [unfold names; set_solver|]);
      unfold ClassifyMisses.CONFIGS; cbn [In]; auto.
  - left. unfold print, emit. now rewrite csv_opens_app, Hopen.
Qed.

(** ** The values of a parsed namespace *)

Lemma set_defaults_keep (parser : list Argparse.action) (ns : Argparse.Namespace)
    (k : str) (v : pyval) :
  ns !! k = Some v -> Argparse.set_defaults parser ns !! k = Some v.
Proof.
  revert ns. induction parser as [|a parser IH]; intros ns Hk; simpl; [exact Hk|].
  apply IH. destruct (Argparse.default a) as [d|]; [|exact Hk].
  destruct (ns !! Argparse.dest a) eqn:E; [exact Hk|].
  rewrite lookup_insert_ne; [exact Hk|]. intros <-. congruence.
Qed.

Lemma set_defaults_lookup (parser : list Argparse.action) (ns : Argparse.Namespace)
    (a : Argparse.action) (d : pyval) :
  NoDup (map Argparse.dest parser) -> In a parser ->
  Argparse.default a = Some d -> ns !! Argparse.dest a = None ->
  Argparse.set_defaults parser ns !! Argparse.dest a = Some d.
Proof.
  revert ns. induction parser as [|a' parser IH]; intros ns Hnd Hin Hd Hk; [destruct Hin|].
  cbn in Hnd. apply NoDup_cons in Hnd as [Hfresh Hnd]. simpl.
  destruct Hin as [->|Hin].
  - rewrite Hd, Hk. apply set_defaults_keep. apply lookup_insert_eq.
  - apply IH; try assumption.
    assert (Hne : Argparse.dest a' <> Argparse.dest a).
    { intros E. apply Hfresh. rewrite E. apply list_elem_of_In. now apply in_map. }
    destruct (Argparse.default a'); [|exact Hk].
    destruct (ns !! Argparse.dest a'); [exact Hk|].
    now rewrite lookup_insert_ne.
Qed.

Lemma set_defaults_none (parser : list Argparse.action) (ns : Argparse.Namespace)
    (k : str) :
  (forall a, In a parser -> Argparse.dest a = k -> Argparse.default a = None) ->
  ns !! k = None -> Argparse.set_defaults parser ns !! k = None.
Proof.
  revert ns. induction parser as [|a parser IH]; intros ns Hp Hk; simpl; [exact Hk|].
  apply IH; [intros; apply Hp; [now right|assumption]|].
  destruct (Argparse.default a) as [d|] eqn:Ed; [|exact Hk].
  destruct (ns !! Argparse.dest a); [exact Hk|].
  rewrite lookup_insert_ne; [exact Hk|].
  intros E. rewrite (Hp a (or_introl eq_refl) E) in Ed. discriminate.
Qed.

Lemma seen_In (k : str) (seen : list str) :
  existsb (str_eqb k) seen = true <-> In k seen.
Proof.
  rewrite existsb_exists. unfold str_eqb. split.
  - intros (x & Hx & E). apply bool_decide_eq_true in E. now subst.
  - intros Hk. exists k. split; [exact Hk|]. now apply bool_decide_eq_true.
Qed.

Lemma store_value (a a' : Argparse.action) (d : pyval) (dashes : Prop) (arg : str)
    (ns ns' : Argparse.Namespace) (seen : list str) :
  (Argparse.dest a' = Argparse.dest a -> a' = a) ->
  (a' = a -> arg = u "--" -> dashes) ->
  value_inv a d dashes ns seen -> Argparse.store a' arg ns = Ok ns' ->
  value_inv a d dashes ns' (Argparse.dest a' :: seen).
Proof.
  intros Hinj Hd [Hseen Hnot] Hs. destruct (store_Ok _ _ _ _ Hs) as (v & -> & Hg).
  destruct (decide (Argparse.dest a' = Argparse.dest a)) as [E|Hne].
  - specialize (Hd (Hinj E)). rewrite (Hinj E) in *. split.
    + intros _. exists v. rewrite lookup_insert_eq. split; [reflexivity|].
      destruct Hg as [[-> Harg]|Hg]; [left; split; [reflexivity|now apply Hd]|now right].
    + intros Hn. exfalso. apply Hn. now left.
  - split.
    + intros [E|Hin]; [congruence|]. rewrite lookup_insert_ne by exact Hne. now apply Hseen.
    + intros Hn. rewrite lookup_insert_ne by exact Hne. apply Hnot.
      intros Hin. apply Hn. now right.
Qed.

Lemma consume_value (parser : list Argparse.action) (a : Argparse.action) (d : pyval)
    (dashes : Prop) (toks : list Argparse.token) :
  (forall a', In a' parser -> Argparse.dest a' = Argparse.dest a -> a' = a) ->
  (forall a' os e, In (Argparse.TOpt a' os e) toks -> In a' parser) ->
  (forall t, In t toks -> dashes_token a t -> dashes) ->
  forall ns seen extras ns' seen' extras',
    value_inv a d dashes ns seen ->
    Argparse.consume parser toks ns seen extras = Ok (ns', seen', extras') ->
    value_inv a d dashes ns' seen'.
Proof.
  intros Hinj. remember (length toks) as n eqn:Hn. revert toks Hn.
  induction n as [n IH] using lt_wf_ind.
  intros toks -> Htoks Hd ns seen extras ns' seen' extras' Hinv.
  destruct toks as [|[s|a' os e| |] rest]; simpl.
  - now intros [= <- <- _].
  - apply (IH (length rest));
      [simpl; lia|reflexivity|intros; eapply Htoks; right; eauto
      |intros t Ht; apply Hd; now right|exact Hinv].
  - assert (Ha' : In a' parser) by (eapply Htoks; left; reflexivity).
    destruct (Argparse.kind_ a'); [|help_raises].
    destruct e as [v|].
    + destruct (Argparse.store a' v ns) as [ns1|] eqn:Es; [|discriminate]. simpl.
      apply (IH (length rest));
        [simpl; lia|reflexivity|intros; eapply Htoks; right; eauto
        |intros t Ht; apply Hd; now right|].
      apply (store_value a a' d dashes v ns); auto.
      intros Ea Ev. apply (Hd (Argparse.TOpt a' os (Some v))); [now left|now split].
    + destruct rest as [|[v| | |] rest']; try discriminate.
      destruct (Argparse.store a' v ns) as [ns1|] eqn:Es; [|discriminate]. simpl.
      apply (IH (length rest'));
        [simpl; lia|reflexivity|intros; eapply Htoks; right; right; eauto
        |intros t Ht; apply Hd; right; now right|].
      apply (store_value a a' d dashes v ns); auto.
      intros _ Ev. apply (Hd (Argparse.TArg v)); [right; now left|exact Ev].
  - apply (IH (length rest));
      [simpl; lia|reflexivity|intros; eapply Htoks; right; eauto
      |intros t Ht; apply Hd; now right|exact Hinv].
  - apply (IH (length rest));
      [simpl; lia|reflexivity|intros; eapply Htoks; right; eauto
      |intros t Ht; apply Hd; now right|exact Hinv].
Qed.

(** A separator [--] among the tokens is left over, when nothing before
    it ends the parsing. *)
Lemma consume_dashes (parser : list Argparse.action) (toks : list Argparse.token) :
  forall ns seen extras ns' seen' extras',
    In Argparse.TDashes toks \/ extras = true ->
    Argparse.consume parser toks ns seen extras = Ok (ns', seen', extras') ->
    extras' = true.
Proof.
  remember (length toks) as n eqn:Hn. revert toks Hn.
  induction n as [n IH] using lt_wf_ind.
  intros toks -> ns seen extras ns' seen' extras' Hd.
  destruct toks as [|[s|a os e| |] rest]; simpl.
  - intros [= _ _ <-]. now destruct Hd as [[]|Hd].
  - apply (IH (length rest)); [simpl; lia|reflexivity|now right].
  - destruct (Argparse.kind_ a); [|help_raises].
    assert (Hd' : In Argparse.TDashes rest \/ extras = true).
    { destruct Hd as [[Hf|Hd]|Hd]; [discriminate Hf|now left|now right]. }
    destruct e as [v|].
    + destruct (Argparse.store a v ns) as [ns1|]; [|discriminate]. simpl.
      now apply (IH (length rest)); [simpl; lia|reflexivity|].
    + destruct rest as [|[v| | |] rest']; try discriminate.
      destruct (Argparse.store a v ns) as [ns1|]; [|discriminate]. simpl.
      apply (IH (length rest')); [simpl; lia|reflexivity|].
      destruct Hd' as [[Hf|Hd']|Hd']; [discriminate Hf|now left|now right].
  - apply (IH (length rest)); [simpl; lia|reflexivity|now right].
  - apply (IH (length rest)); [simpl; lia|reflexivity|now right].
Qed.

Lemma finish_value (a : Argparse.action) (parser : list Argparse.action)
    (seen : list str) :
  NoDup (map Argparse.dest parser) ->
  (forall a', In a' parser -> a' = a \/ Argparse.dest a' <> Argparse.dest a) ->
  forall ns ns',
    Argparse.finish parser seen ns = Ok ns' ->
    (In (Argparse.dest a) seen \/ ~ In a parser ->
     ns' !! Argparse.dest a = ns !! Argparse.dest a)
    /\ (~ In (Argparse.dest a) seen -> In a parser ->
        Argparse.required a = false
        /\ match Argparse.default a with
           | Some (PyStr d) =>
               exists v, Argparse.get_value a d = Ok v /\ ns' !! Argparse.dest a = Some v
           | _ => ns' !! Argparse.dest a = ns !! Argparse.dest a
           end).
Proof.
  induction parser as [|a' parser IH]; intros Hnd Hp ns ns'; simpl.
  - intros [= <-]. split; [reflexivity|intros _ []].
  - cbn in Hnd. apply NoDup_cons in Hnd as [Hfresh Hnd]. specialize (IH Hnd).
    assert (Hp' : forall x, In x parser -> x = a \/ Argparse.dest x <> Argparse.dest a)
      by (intros; apply Hp; now right).
    destruct (existsb (str_eqb (Argparse.dest a')) seen) eqn:Eseen.
    + intros Hf. destruct (IH Hp' ns ns' Hf) as [H1 H2]. split.
      * intros [Hs|Hn]; apply H1; [now left|right]. intros Hin. apply Hn. now right.
      * intros Hs [->|Hin]; [|now apply H2].
        apply seen_In in Eseen. contradiction.
    + destruct (Argparse.required a') eqn:Ereq; [discriminate|].
      destruct (Hp a' (or_introl eq_refl)) as [->|Hne].
      * (* the action itself *)
        assert (Hnin : ~ In a parser).
        { intros Hin. apply Hfresh. apply list_elem_of_In. now apply in_map. }
        destruct (Argparse.default a) as [[|d|z|]|] eqn:Ed.
        -- intros Hf. destruct (IH Hp' ns ns' Hf) as [H1 H2]. split.
           ++ intros [Hs|Hn]; [apply H1; now left|exfalso; apply Hn; now left].
           ++ intros Hs _. split; [exact Ereq|].
              apply H1. now right.
        -- destruct (Argparse.get_value a d) as [v|] eqn:Ev; [|discriminate]. simpl.
           intros Hf. destruct (IH Hp' _ ns' Hf) as [H1 H2]. split.
           ++ intros [Hs|Hn]; [|exfalso; apply Hn; now left].
              apply seen_In in Hs. congruence.
           ++ intros Hs _. split; [exact Ereq|].
              exists v. split; [reflexivity|].
              rewrite H1 by now right. apply lookup_insert_eq.
        -- intros Hf. destruct (IH Hp' ns ns' Hf) as [H1 H2]. split.
           ++ intros [Hs|Hn]; [apply H1; now left|exfalso; apply Hn; now left].
           ++ intros Hs _. split; [exact Ereq|].
              apply H1. now right.
        -- intros Hf. destruct (IH Hp' ns ns' Hf) as [H1 H2]. split.
           ++ intros [Hs|Hn]; [apply H1; now left|exfalso; apply Hn; now left].
           ++ intros Hs _. split; [exact Ereq|].
              apply H1. now right.
        -- intros Hf. destruct (IH Hp' ns ns' Hf) as [H1 H2]. split.
           ++ intros [Hs|Hn]; [apply H1; now left|exfalso; apply Hn; now left].
           ++ intros Hs _. split; [exact Ereq|].
              apply H1. now right.
      * (* another action, with another attribute *)
        assert (Hother : forall ns1, Argparse.finish parser seen ns1 = Ok ns' ->
                  ns1 !! Argparse.dest a = ns !! Argparse.dest a ->
                  (In (Argparse.dest a) seen \/ ~ In a (a' :: parser) ->
                   ns' !! Argparse.dest a = ns !! Argparse.dest a)
                  /\ (~ In (Argparse.dest a) seen -> In a (a' :: parser) ->
                      Argparse.required a = false
                      /\ match Argparse.default a with
                         | Some (PyStr d) =>
                             exists v, Argparse.get_value a d = Ok v
                                       /\ ns' !! Argparse.dest a = Some v
                         | _ => ns' !! Argparse.dest a = ns !! Argparse.dest a
                         end)).
        { intros ns1 Hf Hsame. destruct (IH Hp' ns1 ns' Hf) as [H1 H2]. split.
          - intros [Hs|Hn]; rewrite <- Hsame; apply H1; [now left|right].
            intros Hin. apply Hn. now right.
          - intros Hs [E|Hin]; [congruence|]. destruct (H2 Hs Hin) as [Hr H].
            split; [exact Hr|]. destruct (Argparse.default a) as [[|d|z|]|];
              try (now rewrite <- Hsame); exact H. }
        destruct (Argparse.default a') as [[|d|z|]|]; try (intros Hf; now apply (Hother ns)).
        destruct (Argparse.get_value a' d) as [v|]; [|discriminate]. simpl.
        intros Hf. apply (Hother _ Hf). now rewrite lookup_insert_ne.
Qed.

Lemma dest_inj (parser : list Argparse.action) (a a' : Argparse.action) :
  NoDup (map Argparse.dest parser) -> In a parser -> In a' parser ->
  Argparse.dest a' = Argparse.dest a -> a' = a.
Proof.
  induction parser as [|x parser IH]; intros Hnd Ha Ha' E; [destruct Ha|].
  cbn in Hnd. apply NoDup_cons in Hnd as [Hfresh Hnd].
  destruct Ha as [->|Ha], Ha' as [->|Ha'].
  - reflexivity.
  - exfalso. apply Hfresh. rewrite <- E. apply list_elem_of_In. now apply in_map.
  - exfalso. apply Hfresh. rewrite E. apply list_elem_of_In. now apply in_map.
  - now apply IH.
Qed.

(** Where the value of an attribute comes from: the command line, through
    [type] and [choices], or, for an option that is not required and was
    not given, its default, through [type] when it is a string. *)
Lemma parse_args_value (parser : list Argparse.action) (a : Argparse.action)
    (d : pyval) (argv : list str) (args : Argparse.Namespace) :
  NoDup (map Argparse.dest parser) -> In a parser ->
  Argparse.default a = Some d ->
  Argparse.parse_args parser argv = Ok args ->
  exists v,
    args !! Argparse.dest a = Some v
    /\ (given a (dashes_given parser a argv) v
        \/ Argparse.required a = false /\ defaulted a v).
Proof.
  intros Hnd Ha Hd. unfold Argparse.parse_args.
  destruct (Argparse.classify parser argv) as [toks|] eqn:Ec; [|discriminate]. simpl.
  destruct (Argparse.consume parser toks _ [] false) as [[[ns seen] extras]|] eqn:Eo;
    [|discriminate]. simpl.
  destruct (Argparse.finish parser seen ns) as [ns'|] eqn:Ef; [|discriminate]. simpl.
  destruct extras; [discriminate|]. intros [= <-].
  assert (Hinj : forall a', In a' parser -> Argparse.dest a' = Argparse.dest a -> a' = a)
    by (intros a' Ha' E; now apply (dest_inj parser a a')).
  assert (Hinv : value_inv a d (dashes_given parser a argv) ns seen).
  { destruct (classify_tokens parser argv toks Ec) as [Hopt Harg].
    assert (Hdashes : forall t, In t toks -> dashes_token a t -> dashes_given parser a argv).
    { intros [s|a' os [e|]| |] Ht; cbn [dashes_token]; try (now intros []).
      - intros ->. pose proof (consume_dashes _ _ _ _ _ _ _ _ (or_introl (Harg Ht)) Eo).
        discriminate.
      - intros [-> ->]. destruct (Hopt _ _ _ Ht) as (s & Hs & E). now exists s, os. }
    apply (consume_value parser a d _ toks Hinj
             (fun a' os e Hin => classify_in parser argv toks Ec a' os e Hin)
             Hdashes _ _ _ _ _ _) with (2 := Eo).
    split; [intros []|]. intros _.
    apply set_defaults_lookup; [exact Hnd|exact Ha|exact Hd|apply lookup_empty]. }
  destruct Hinv as [Hseen Hnot].
  assert (Hp : forall a', In a' parser -> a' = a \/ Argparse.dest a' <> Argparse.dest a).
  { intros a' Ha'. destruct (decide (Argparse.dest a' = Argparse.dest a)) as [E|Hne];
      [left; now apply Hinj|now right]. }
  destruct (finish_value a parser seen Hnd Hp ns ns' Ef) as [H1 H2].
  destruct (existsb (str_eqb (Argparse.dest a)) seen) eqn:Es.
  - apply seen_In in Es. destruct (Hseen Es) as (v & Hv & Hg).
    exists v. rewrite H1 by now left. split; [exact Hv|now left].
  - assert (Hn : ~ In (Argparse.dest a) seen).
    { intros Hin. apply seen_In in Hin. congruence. }
    destruct (H2 Hn Ha) as [Hreq Hval]. unfold defaulted. rewrite Hd in *.
    destruct d as [|d'|z|].
    + exists PyNone. rewrite Hval. split; [now apply Hnot|]. right. now split.
    + destruct Hval as (v & Hv & Hl). exists v. split; [exact Hl|]. right. now split.
    + exists (PyInt z). rewrite Hval. split; [now apply Hnot|]. right. now split.
    + exists PyEmptyList. rewrite Hval. split; [now apply Hnot|]. right. now split.
Qed.

Lemma consume_none (k : str) (parser : list Argparse.action)
    (toks : list Argparse.token) :
  (forall a os e, In (Argparse.TOpt a os e) toks ->
     Argparse.kind_ a = Argparse.Store -> Argparse.dest a <> k) ->
  forall ns seen extras ns' seen' extras',
    ns !! k = None ->
    Argparse.consume parser toks ns seen extras = Ok (ns', seen', extras') ->
    ns' !! k = None.
Proof.
  remember (length toks) as n eqn:Hn. revert toks Hn.
  induction n as [n IH] using lt_wf_ind.
  intros toks -> Htoks ns seen extras ns' seen' extras' Hk.
  assert (Hstore : forall a v ns1,
            Argparse.dest a <> k -> Argparse.store a v ns = Ok ns1 -> ns1 !! k = None).
  { intros a v ns1 Hne Hs. destruct (store_Ok _ _ _ _ Hs) as (x & -> & _).
    now rewrite lookup_insert_ne. }
  destruct toks as [|[s|a os e| |] rest]; simpl.
  - now intros [= <- _ _].
  - apply (IH (length rest));
      [simpl; lia|reflexivity
      |intros a0 os0 e0 Hin0 Hk0; apply (Htoks a0 os0 e0); [now right|exact Hk0]|exact Hk].
  - destruct (Argparse.kind_ a) eqn:Ekind; [|help_raises].
    assert (Hne : Argparse.dest a <> k) by (apply (Htoks a os e); [now left|exact Ekind]).
    destruct e as [v|].
    + destruct (Argparse.store a v ns) as [ns1|] eqn:Es; [|discriminate]. simpl.
      apply (IH (length rest));
        [simpl; lia|reflexivity
        |intros a0 os0 e0 Hin0 Hk0; apply (Htoks a0 os0 e0); [now right|exact Hk0]|].
      now apply (Hstore a v).
    + destruct rest as [|[v| | |] rest']; try discriminate.
      destruct (Argparse.store a v ns) as [ns1|] eqn:Es; [|discriminate]. simpl.
      apply (IH (length rest'));
        [simpl; lia|reflexivity
        |intros a0 os0 e0 Hin0 Hk0; apply (Htoks a0 os0 e0); [right; now right|exact Hk0]|].
      now apply (Hstore a v).
  - apply (IH (length rest));
      [simpl; lia|reflexivity
      |intros a0 os0 e0 Hin0 Hk0; apply (Htoks a0 os0 e0); [now right|exact Hk0]|exact Hk].
  - apply (IH (length rest));
      [simpl; lia|reflexivity
      |intros a0 os0 e0 Hin0 Hk0; apply (Htoks a0 os0 e0); [now right|exact Hk0]|exact Hk].
Qed.

Lemma finish_none (k : str) (parser : list Argparse.action) (seen : list str)
    (ns ns' : Argparse.Namespace) :
  (forall a, In a parser -> Argparse.dest a = k -> Argparse.default a = None) ->
  ns !! k = None -> Argparse.finish parser seen ns = Ok ns' -> ns' !! k = None.
Proof.
  revert ns. induction parser as [|a parser IH]; intros ns Hp Hk; simpl.
  - now intros [= <-].
  - assert (Hp' : forall x, In x parser -> Argparse.dest x = k -> Argparse.default x = None)
      by (intros; apply Hp; [now right|assumption]).
    destruct (existsb _ seen); [now apply IH|].
    destruct (Argparse.required a); [discriminate|].
    destruct (Argparse.default a) as [[|d| |]|] eqn:Ed; try (now apply IH).
    destruct (Argparse.get_value a d) as [v|]; [|discriminate]. simpl.
    apply IH; [exact Hp'|]. rewrite lookup_insert_ne; [exact Hk|].
    intros E. rewrite (Hp a (or_introl eq_refl) E) in Ed. discriminate.
Qed.

(** An attribute that only a help option could name is never set. *)
Lemma parse_args_absent (parser : list Argparse.action) (k : str)
    (argv : list str) (args : Argparse.Namespace) :
  (forall a, In a parser -> Argparse.dest a = k ->
     Argparse.kind_ a = Argparse.Help /\ Argparse.default a = None) ->
  Argparse.parse_args parser argv = Ok args -> args !! k = None.
Proof.
  intros Hp. unfold Argparse.parse_args.
  destruct (Argparse.classify parser argv) as [toks|] eqn:Ec; [|discriminate]. simpl.
  destruct (Argparse.consume parser toks _ [] false) as [[[ns seen] extras]|] eqn:Eo;
    [|discriminate]. simpl.
  destruct (Argparse.finish parser seen ns) as [ns'|] eqn:Ef; [|discriminate]. simpl.
  destruct extras; [discriminate|]. intros [= <-].
  eapply finish_none; [intros a Ha E; now apply (Hp a Ha E)| |exact Ef].
  eapply consume_none; [| |exact Eo].
  - intros a os e Hin Hkind E.
    destruct (Hp a (classify_in parser argv toks Ec a os e Hin) E) as [Hh _]. congruence.
  - apply set_defaults_none; [intros a Ha E; now apply (Hp a Ha E)|apply lookup_empty].
Qed.

Lemma parser_dests_NoDup : NoDup (map Argparse.dest Assignment3.parser).
Proof. apply (bool_decide_unpack _). vm_compute. exact I. Qed.

Lemma help_only_help (a : Argparse.action) :
  In a Assignment3.parser -> Argparse.dest a = u "help" ->
  Argparse.kind_ a = Argparse.Help /\ Argparse.default a = None.
Proof.
  intros Ha E. unfold Assignment3.parser, Argparse.ArgumentParser in Ha.
  cbn [app In] in Ha.
  repeat (destruct Ha as [<-|Ha]; [first [now split|vm_compute in E; discriminate E]|]).
  destruct Ha.
Qed.

(** X3. A namespace that [assignment3.py] gets from an accepted command
    line has exactly the nine attributes of its options, under the names
    [argparse] derives: [prog], [daxpy_N], [queens_N], [bp], [bp_size],
    [bp_bits], [clock.freq], [l1d.assoc] and [l1d.size]; there is no
    attribute [help]. *)
Theorem namespace_attributes (argv : list str) (args : Argparse.Namespace) :
  Argparse.parse_args Assignment3.parser argv = Ok args ->
  forall k, args !! k <> None <-> In k script_attributes.
Proof.
  intros Hp k. split.
  - intros Hk. pose proof (parse_args_attrs _ _ _ Hp k Hk) as Hin.
    vm_compute in Hin. destruct Hin as [E|Hin].
    + exfalso. apply Hk. subst k.
      exact (parse_args_absent _ (u "help") _ _ help_only_help Hp).
    + vm_compute. tauto.
  - intros Hin. apply (parse_args_has_attrs _ _ _ Hp).
    vm_compute in Hin.
    repeat (destruct Hin as [<-|Hin]; [vm_compute; discriminate|]). destruct Hin.
Qed.

(** The command line [--prog=queens] is accepted. *)
Lemma namespace_attributes_witness :
  exists args,
    Argparse.parse_args Assignment3.parser [u "--prog=queens"] = Ok args
    /\ forall k, args !! k <> None <-> In k script_attributes.
Proof.
  destruct queens_accepted as [args E]. exists args. split; [exact E|].
  exact (namespace_attributes _ args E).
Defined.

Ltac in_parser :=
  unfold Assignment3.parser, Argparse.ArgumentParser; cbn [app In];
  repeat (first [left; reflexivity | right]).

(** The text [--] reaches an option of more than one character after its
    dashes only from an argument [--opt=--]. *)
Lemma dashes_given_long (parser : list Argparse.action) (argv : list str)
    (option_string : str) (d : pyval) (t : Argparse.conv) (req : bool)
    (cs : option (list str)) :
  (2 < length option_string)%nat ->
  dashes_given parser (Argparse.add_argument option_string d t req cs) argv ->
  exists o, In (o ++ u "=--") argv /\ Argparse.startswith option_string o = true.
Proof.
  intros Hlen (s & os & Hs & E).
  apply parse_optional_TOpt in E as (_ & Hos & Hx).
  destruct Hos as [<-|[]].
  destruct (Hx (u "--") eq_refl) as [(o & -> & Hstart)|[Hos _]].
  - exists o. split; [exact Hs|exact Hstart].
  - apply (f_equal (@length N)) in Hos. rewrite length_firstn in Hos. lia.
Qed.

(** The value of an option of the script, by its option string. *)
Lemma script_value (argv : list str) (args : Argparse.Namespace)
    (option_string : str) (d : pyval) (t : Argparse.conv) (req : bool)
    (cs : option (list str)) :
  In (Argparse.add_argument option_string d t req cs) Assignment3.parser ->
  (2 < length option_string)%nat ->
  Argparse.parse_args Assignment3.parser argv = Ok args ->
  exists v,
    args !! Argparse.dest_of option_string = Some v
    /\ (emptied option_string argv v
        \/ (exists arg,
              Argparse.get_value (Argparse.add_argument option_string d t req cs) arg = Ok v
              /\ Argparse.check_value (Argparse.add_argument option_string d t req cs) v
                 = Ok tt)
        \/ req = false /\ defaulted (Argparse.add_argument option_string d t req cs) v).
Proof.
  intros Ha Hlen Hp.
  destruct (parse_args_value _ _ d _ _ parser_dests_NoDup Ha eq_refl Hp)
    as (v & Hv & [[[Hl Hd]|Hg]|Hdef]); exists v; (split; [exact Hv|]).
  - left. split; [exact Hl|]. exact (dashes_given_long _ _ _ d t req cs Hlen Hd).
  - right. now left.
  - right. now right.
Qed.

Lemma check_value_choices (a : Argparse.action) (v : pyval) (cs : list str) :
  Argparse.choices a = Some cs -> Argparse.check_value a v = Ok tt ->
  exists s, v = PyStr s /\ In s cs.
Proof.
  unfold Argparse.check_value. intros ->. destruct v as [|s|z|]; try discriminate.
  destruct (existsb (str_eqb s) cs) eqn:E; [|discriminate]. intros _.
  apply existsb_exists in E as (x & Hx & E). unfold str_eqb in E.
  apply bool_decide_eq_true in E. subst x. now exists s.
Qed.

Lemma attr_prog (argv : list str) (args : Argparse.Namespace) :
  Argparse.parse_args Assignment3.parser argv = Ok args ->
  args !! u "prog" = Some (PyStr (u "daxpy"))
  \/ args !! u "prog" = Some (PyStr (u "queens"))
  \/ exists v, args !! u "prog" = Some v /\ emptied (u "--prog") argv v.
Proof.
  intros Hp.
  destruct (script_value argv args (u "--prog") PyNone Argparse.ToStr true
              (Some [u "daxpy"; u "queens"]) ltac:(in_parser)
              ltac:(vm_compute; lia) Hp)
    as (v & Hv & [He|[(arg & Hg & Hc)|[Hreq _]]]); [| |discriminate Hreq].
  - right. right. now exists v.
  - change (Argparse.dest_of (u "--prog")) with (u "prog") in Hv.
    apply (check_value_choices
             (Argparse.add_argument (u "--prog") PyNone Argparse.ToStr true
                (Some [u "daxpy"; u "queens"]))
             v [u "daxpy"; u "queens"] eq_refl) in Hc
      as (s & -> & [<-|[<-|[]]]); [now left|right; now left].
Qed.

Lemma dashes_accepted :
  exists args,
    Argparse.parse_args Assignment3.parser [u "--prog=--"] = Ok args
    /\ args !! u "prog" = Some PyEmptyList.
Proof.
  assert (H : match Argparse.parse_args Assignment3.parser [u "--prog=--"] with
              | Ok args => bool_decide (args !! u "prog" = Some PyEmptyList)
              | Raise _ => false
              end = true) by (vm_compute; reflexivity).
  destruct (Argparse.parse_args Assignment3.parser [u "--prog=--"]) as [args|];
    [|discriminate].
  exists args. split; [reflexivity|]. now apply bool_decide_eq_true in H.
Qed.

(** X4. [--prog] is required and has choices: every accepted command line
    names the program. [args.prog] is ["daxpy"] or ["queens"], or it is
    the empty list: [argparse] drops an argument [--] before it converts
    and checks it, so that [--prog=--], also with [--prog] abbreviated,
    is accepted and stores [[]]. *)
Theorem program_is_chosen (argv : list str) (args : Argparse.Namespace) :
  Argparse.parse_args Assignment3.parser argv = Ok args ->
  args !! u "prog" = Some (PyStr (u "daxpy"))
  \/ args !! u "prog" = Some (PyStr (u "queens"))
  \/ exists v, args !! u "prog" = Some v /\ emptied (u "--prog") argv v.
Proof. exact (attr_prog argv args). Qed.

(** [--prog=--] is accepted, with [prog] set to the empty list. *)
Lemma program_is_chosen_witness :
  exists args,
    Argparse.parse_args Assignment3.parser [u "--prog=--"] = Ok args
    /\ exists v, args !! u "prog" = Some v /\ emptied (u "--prog") [u "--prog=--"] v.
Proof.
  destruct dashes_accepted as (args & E & Hprog). exists args. split; [exact E|].
  destruct (program_is_chosen _ args E) as [H|[H|H]];
    [rewrite Hprog in H; discriminate H|rewrite Hprog in H; discriminate H|exact H].
Defined.

Lemma attr_int (argv : list str) (args : Argparse.Namespace)
    (option_string : str) (d : pyval) (req : bool) :
  In (Argparse.add_argument option_string d Argparse.ToInt req None) Assignment3.parser ->
  (2 < length option_string)%nat ->
  (d = PyNone \/ is_int d
   \/ exists s z, d = PyStr s /\ py_int s = Ok z) ->
  Argparse.parse_args Assignment3.parser argv = Ok args ->
  exists v,
    args !! Argparse.dest_of option_string = Some v
    /\ (is_int v \/ emptied option_string argv v \/ v = PyNone /\ d = PyNone).
Proof.
  intros Ha Hlen Hd Hp.
  destruct (script_value argv args option_string d Argparse.ToInt req None Ha Hlen Hp)
    as (v & Hv & [He|[(arg & Hg & _)|[_ Hdef]]]); exists v; (split; [exact Hv|]).
  - right. now left.
  - left. cbv [Argparse.get_value Argparse.add_argument Argparse.type_] in Hg.
    destruct (py_int arg) as [z|]; [|discriminate]. injection Hg as <-. now exists z.
  - cbv [defaulted Argparse.add_argument Argparse.default] in Hdef.
    destruct Hd as [->|[[z ->]|(s & z & -> & Hs)]].
    + right. right. now split.
    + left. subst v. now exists z.
    + left. cbv [Argparse.get_value Argparse.type_] in Hdef. rewrite Hs in Hdef.
      injection Hdef as <-. now exists z.
Qed.

Lemma attr_str (argv : list str) (args : Argparse.Namespace)
    (option_string : str) (d : pyval) (req : bool) :
  In (Argparse.add_argument option_string d Argparse.ToStr req None) Assignment3.parser ->
  (2 < length option_string)%nat ->
  (d = PyNone \/ is_str d) ->
  Argparse.parse_args Assignment3.parser argv = Ok args ->
  exists v,
    args !! Argparse.dest_of option_string = Some v
    /\ (is_str v \/ emptied option_string argv v \/ v = PyNone /\ d = PyNone).
Proof.
  intros Ha Hlen Hd Hp.
  destruct (script_value argv args option_string d Argparse.ToStr req None Ha Hlen Hp)
    as (v & Hv & [He|[(arg & Hg & _)|[_ Hdef]]]); exists v; (split; [exact Hv|]).
  - right. now left.
  - left. cbv [Argparse.get_value Argparse.add_argument Argparse.type_] in Hg.
    injection Hg as <-. now exists arg.
  - cbv [defaulted Argparse.add_argument Argparse.default] in Hdef.
    destruct Hd as [->|[s ->]].
    + right. right. now split.
    + left. cbv [Argparse.get_value Argparse.type_] in Hdef.
      injection Hdef as <-. now exists s.
Qed.

Lemma attr_daxpy_N (argv : list str) (args : Argparse.Namespace) :
  Argparse.parse_args Assignment3.parser argv = Ok args ->
  exists v, args !! u "daxpy_N" = Some v
            /\ (is_int v \/ emptied (u "--daxpy-N") argv v).
Proof.
  intros Hp.
  destruct (attr_int argv args (u "--daxpy-N") (PyInt 100) false ltac:(in_parser)
              ltac:(vm_compute; lia) ltac:(right; left; now exists 100) Hp)
    as (v & Hv & [H|[H|[_ H]]]); [exists v; split; [exact Hv|tauto]..|discriminate H].
Qed.

Lemma attr_queens_N (argv : list str) (args : Argparse.Namespace) :
  Argparse.parse_args Assignment3.parser argv = Ok args ->
  exists v, args !! u "queens_N" = Some v
            /\ (is_int v \/ emptied (u "--queens-N") argv v).
Proof.
  intros Hp.
  destruct (attr_int argv args (u "--queens-N") (PyInt 10) false ltac:(in_parser)
              ltac:(vm_compute; lia) ltac:(right; left; now exists 10) Hp)
    as (v & Hv & [H|[H|[_ H]]]); [exists v; split; [exact Hv|tauto]..|discriminate H].
Qed.

Lemma attr_l1d_assoc (argv : list str) (args : Argparse.Namespace) :
  Argparse.parse_args Assignment3.parser argv = Ok args ->
  exists v, args !! u "l1d.assoc" = Some v
            /\ (is_int v \/ emptied (u "--l1d.assoc") argv v).
Proof.
  intros Hp.
  destruct (attr_int argv args (u "--l1d.assoc") (PyStr (u "8")) false ltac:(in_parser)
              ltac:(vm_compute; lia) ltac:(right; right; now exists (u "8"), 8) Hp)
    as (v & Hv & [H|[H|[_ H]]]); [exists v; split; [exact Hv|tauto]..|discriminate H].
Qed.

Lemma attr_bp_size (argv : list str) (args : Argparse.Namespace) :
  Argparse.parse_args Assignment3.parser argv = Ok args ->
  exists v, args !! u "bp_size" = Some v
            /\ (v = PyNone \/ is_int v \/ emptied (u "--bp_size") argv v).
Proof.
  intros Hp.
  destruct (attr_int argv args (u "--bp_size") PyNone false ltac:(in_parser)
              ltac:(vm_compute; lia) ltac:(now left) Hp) as (v & Hv & [H|[H|[H _]]]);
    exists v; (split; [exact Hv|tauto]).
Qed.

Lemma attr_bp_bits (argv : list str) (args : Argparse.Namespace) :
  Argparse.parse_args Assignment3.parser argv = Ok args ->
  exists v, args !! u "bp_bits" = Some v
            /\ (v = PyNone \/ is_int v \/ emptied (u "--bp_bits") argv v).
Proof.
  intros Hp.
  destruct (attr_int argv args (u "--bp_bits") PyNone false ltac:(in_parser)
              ltac:(vm_compute; lia) ltac:(now left) Hp) as (v & Hv & [H|[H|[H _]]]);
    exists v; (split; [exact Hv|tauto]).
Qed.

Lemma attr_bp (argv : list str) (args : Argparse.Namespace) :
  Argparse.parse_args Assignment3.parser argv = Ok args ->
  exists v, args !! u "bp" = Some v
            /\ (v = PyNone \/ is_str v \/ emptied (u "--bp") argv v).
Proof.
  intros Hp.
  destruct (attr_str argv args (u "--bp") PyNone false ltac:(in_parser)
              ltac:(vm_compute; lia) ltac:(now left) Hp) as (v & Hv & [H|[H|[H _]]]);
    exists v; (split; [exact Hv|tauto]).
Qed.

Lemma attr_clock_freq (argv : list str) (args : Argparse.Namespace) :
  Argparse.parse_args Assignment3.parser argv = Ok args ->
  exists v, args !! u "clock.freq" = Some v
            /\ (is_str v \/ emptied (u "--clock.freq") argv v).
Proof.
  intros Hp.
  destruct (attr_str argv args (u "--clock.freq") (PyStr (u "1GHz")) false
              ltac:(in_parser) ltac:(vm_compute; lia)
              ltac:(right; now exists (u "1GHz")) Hp)
    as (v & Hv & [H|[H|[_ H]]]); [exists v; split; [exact Hv|tauto]..|discriminate H].
Qed.

Lemma attr_l1d_size (argv : list str) (args : Argparse.Namespace) :
  Argparse.parse_args Assignment3.parser argv = Ok args ->
  exists v, args !! u "l1d.size" = Some v
            /\ (is_str v \/ emptied (u "--l1d.size") argv v).
Proof.
  intros Hp.
  destruct (attr_str argv args (u "--l1d.size") (PyStr (u "64KiB")) false
              ltac:(in_parser) ltac:(vm_compute; lia)
              ltac:(right; now exists (u "64KiB")) Hp)
    as (v & Hv & [H|[H|[_ H]]]); [exists v; split; [exact Hv|tauto]..|discriminate H].
Qed.

(** X5. The types of the attributes after an accepted command line:
    [daxpy_N], [queens_N] and [l1d.assoc] are integers, the last also when
    it comes from its string default ["8"]; [bp_size] and [bp_bits] are
    integers or [None]; [clock.freq] and [l1d.size] are strings; [bp] is a
    string or [None]. The one other value any of them can have is the
    empty list, which [argparse] stores, without calling [type], for an
    argument [--opt=--]. *)
Theorem option_types (argv : list str) (args : Argparse.Namespace) :
  Argparse.parse_args Assignment3.parser argv = Ok args ->
  (exists v, args !! u "daxpy_N" = Some v
             /\ (is_int v \/ emptied (u "--daxpy-N") argv v))
  /\ (exists v, args !! u "queens_N" = Some v
                /\ (is_int v \/ emptied (u "--queens-N") argv v))
  /\ (exists v, args !! u "l1d.assoc" = Some v
                /\ (is_int v \/ emptied (u "--l1d.assoc") argv v))
  /\ (exists v, args !! u "bp_size" = Some v
                /\ (v = PyNone \/ is_int v \/ emptied (u "--bp_size") argv v))
  /\ (exists v, args !! u "bp_bits" = Some v
                /\ (v = PyNone \/ is_int v \/ emptied (u "--bp_bits") argv v))
  /\ (exists v, args !! u "bp" = Some v
                /\ (v = PyNone \/ is_str v \/ emptied (u "--bp") argv v))
  /\ (exists v, args !! u "clock.freq" = Some v
                /\ (is_str v \/ emptied (u "--clock.freq") argv v))
  /\ (exists v, args !! u "l1d.size" = Some v
                /\ (is_str v \/ emptied (u "--l1d.size") argv v)).
Proof.
  intros Hp.
  split; [exact (attr_daxpy_N argv args Hp)|].
  split; [exact (attr_queens_N argv args Hp)|].
  split; [exact (attr_l1d_assoc argv args Hp)|].
  split; [exact (attr_bp_size argv args Hp)|].
  split; [exact (attr_bp_bits argv args Hp)|].
  split; [exact (attr_bp argv args Hp)|].
  split; [exact (attr_clock_freq argv args Hp)|exact (attr_l1d_size argv args Hp)].
Qed.

Lemma daxpy_N_dashes_accepted :
  exists args,
    Argparse.parse_args Assignment3.parser [u "--prog=queens"; u "--daxpy-N=--"] = Ok args
    /\ args !! u "daxpy_N" = Some PyEmptyList /\ args !! u "l1d.assoc" = Some (PyInt 8).
Proof.
  assert (H : match Argparse.parse_args Assignment3.parser
                      [u "--prog=queens"; u "--daxpy-N=--"] with
              | Ok args => bool_decide (args !! u "daxpy_N" = Some PyEmptyList)
                           && bool_decide (args !! u "l1d.assoc" = Some (PyInt 8))
              | Raise _ => false
              end = true) by (vm_compute; reflexivity).
  destruct (Argparse.parse_args Assignment3.parser [u "--prog=queens"; u "--daxpy-N=--"])
    as [args|]; [|discriminate].
  exists args. split; [reflexivity|]. apply andb_true_iff in H as [H1 H2].
  apply bool_decide_eq_true in H1, H2. now split.
Qed.

(** [--prog=queens --daxpy-N=--] is accepted; in its namespace [daxpy_N]
    is the empty list and [l1d.assoc] is an integer. *)
Lemma option_types_witness :
  exists args,
    Argparse.parse_args Assignment3.parser [u "--prog=queens"; u "--daxpy-N=--"] = Ok args
    /\ (exists v, args !! u "daxpy_N" = Some v
                  /\ emptied (u "--daxpy-N") [u "--prog=queens"; u "--daxpy-N=--"] v)
    /\ (exists v, args !! u "l1d.assoc" = Some v /\ is_int v).
Proof.
  destruct daxpy_N_dashes_accepted as (args & E & Hn & Ha). exists args.
  split; [exact E|].
  destruct (option_types _ args E) as ((v1 & Hv1 & H1) & _ & (v3 & Hv3 & H3) & _).
  split.
  - exists v1. split; [exact Hv1|]. destruct H1 as [[z ->]|H1]; [|exact H1].
    rewrite Hn in Hv1. discriminate Hv1.
  - exists v3. split; [exact Hv3|]. destruct H3 as [H3|[-> _]]; [exact H3|].
    rewrite Ha in Hv3. discriminate Hv3.
Defined.

(** X6. For every accepted command line the script reads [args.bp],
    [args.bp_size] and [args.bp_bits] without error and selects a
    [TournamentBP] exactly when [args.bp] is the string ["TournamentBP"],
    and a [LocalBP] for any other name, when [--bp] is absent, and when
    [--bp=--] has left the empty list; the sizes it hands over are
    integers, or [None] when [--bp_size] or [--bp_bits] is absent, or the
    empty list that [--bp_size=--] or [--bp_bits=--] leaves. *)
Theorem branch_predictor_choice (argv : list str) (args : Argparse.Namespace) :
  Argparse.parse_args Assignment3.parser argv = Ok args ->
  exists bp size bits,
    args !! u "bp" = Some bp /\ args !! u "bp_size" = Some size
    /\ args !! u "bp_bits" = Some bits
    /\ (bp = PyNone \/ is_str bp \/ emptied (u "--bp") argv bp)
    /\ (size = PyNone \/ is_int size \/ emptied (u "--bp_size") argv size)
    /\ (bits = PyNone \/ is_int bits \/ emptied (u "--bp_bits") argv bits)
    /\ (bp = PyStr (u "TournamentBP") ->
        Assignment3.branchPred args = Ok (Assignment3.TournamentBP size bits size))
    /\ (bp <> PyStr (u "TournamentBP") ->
        Assignment3.branchPred args = Ok (Assignment3.LocalBP size bits size)).
Proof.
  intros Hp.
  destruct (attr_bp argv args Hp) as (bp & Hbp & Hn).
  destruct (attr_bp_size argv args Hp) as (size & Hsize & Hs).
  destruct (attr_bp_bits argv args Hp) as (bits & Hbits & Hb).
  exists bp, size, bits. repeat (split; [assumption|]).
  unfold Assignment3.branchPred, Argparse.getattr. rewrite Hbp, Hsize, Hbits. cbn [res_bind].
  split; intros E.
  - now rewrite bool_decide_eq_true_2.
  - now rewrite bool_decide_eq_false_2.
Qed.

Lemma predictor_dashes_accepted :
  exists args,
    Argparse.parse_args Assignment3.parser
      [u "--prog=queens"; u "--bp=--"; u "--bp_size=--"] = Ok args
    /\ args !! u "bp" = Some PyEmptyList
    /\ args !! u "bp_size" = Some PyEmptyList
    /\ args !! u "bp_bits" = Some PyNone.
Proof.
  assert (H : match Argparse.parse_args Assignment3.parser
                      [u "--prog=queens"; u "--bp=--"; u "--bp_size=--"] with
              | Ok args => bool_decide (args !! u "bp" = Some PyEmptyList)
                           && bool_decide (args !! u "bp_size" = Some PyEmptyList)
                           && bool_decide (args !! u "bp_bits" = Some PyNone)
              | Raise _ => false
              end = true) by (vm_compute; reflexivity).
  destruct (Argparse.parse_args Assignment3.parser
              [u "--prog=queens"; u "--bp=--"; u "--bp_size=--"]) as [args|];
    [|discriminate].
  exists args. split; [reflexivity|].
  apply andb_true_iff in H as [H H3]. apply andb_true_iff in H as [H1 H2].
  apply bool_decide_eq_true in H1, H2, H3. now repeat split.
Qed.

(** [--prog=queens --bp=-- --bp_size=--] is accepted and selects a
    [LocalBP] whose sizes are the empty list. *)
Lemma branch_predictor_choice_witness :
  exists args,
    Argparse.parse_args Assignment3.parser
      [u "--prog=queens"; u "--bp=--"; u "--bp_size=--"] = Ok args
    /\ Assignment3.branchPred args
       = Ok (Assignment3.LocalBP PyEmptyList PyNone PyEmptyList).
Proof.
  destruct predictor_dashes_accepted as (args & E & Hbp & Hsize & Hbits).
  exists args. split; [exact E|].
  destruct (branch_predictor_choice _ args E)
    as (bp & size & bits & Hbp' & Hsize' & Hbits' & _ & _ & _ & _ & Hlocal).
  rewrite Hbp in Hbp'. rewrite Hsize in Hsize'. rewrite Hbits in Hbits'.
  injection Hbp' as <-. injection Hsize' as <-. injection Hbits' as <-.
  apply Hlocal. discriminate.
Defined.

(** ** Integers as text and back *)

Lemma u_String (c : ascii) (s : string) : u (String c s) = N_of_ascii c :: u s.
Proof. reflexivity. Qed.

Lemma int_digits_digit (c : N) (s : str) (acc k : Z) (b : bool) :
  digit_val c = Some k -> (c =? 95)%N = false ->
  int_digits (c :: s) acc b = int_digits s (10 * acc + k) true.
Proof. intros Hk Hc. cbn [int_digits]. now rewrite Hc, Hk. Qed.

Lemma int_digits_uint (d : Decimal.uint) (acc : Z) :
  int_digits (u (NilEmpty.string_of_uint d)) acc true = Some (digits_value d acc).
Proof.
  revert acc. induction d as [|d IH|d IH|d IH|d IH|d IH|d IH|d IH|d IH|d IH|d IH];
    intros acc; [reflexivity|..];
    cbn [NilEmpty.string_of_uint digits_value]; rewrite u_String;
    erewrite int_digits_digit by (vm_compute; reflexivity); apply IH.
Qed.

Lemma digits_value_pos (d : Decimal.uint) (acc : positive) :
  digits_value d (Z.pos acc) = Z.pos (Pos.of_uint_acc d acc).
Proof.
  revert acc. induction d as [|d IH|d IH|d IH|d IH|d IH|d IH|d IH|d IH|d IH|d IH];
    intros acc; [reflexivity|..]; cbn [digits_value Pos.of_uint_acc];
    rewrite <- IH; f_equal; lia.
Qed.

Lemma digits_value_0 (d : Decimal.uint) : digits_value d 0 = Z.of_N (Pos.of_uint d).
Proof.
  induction d as [|d IH|d IH|d IH|d IH|d IH|d IH|d IH|d IH|d IH|d IH];
    [reflexivity|exact IH|..]; cbn [digits_value Pos.of_uint];
    apply (digits_value_pos d).
Qed.

Lemma uint_digits (d : Decimal.uint) :
  Forall (fun c => digit_val c <> None) (u (NilEmpty.string_of_uint d)).
Proof.
  induction d as [|d IH|d IH|d IH|d IH|d IH|d IH|d IH|d IH|d IH|d IH];
    [constructor|..]; cbn [NilEmpty.string_of_uint]; rewrite u_String;
    (constructor; [vm_compute; discriminate|exact IH]).
Qed.

Lemma digit_val_range (c : N) :
  digit_val c <> None -> (48 <= c)%N /\ (c <= 57)%N.
Proof.
  unfold digit_val. destruct (48 <=? c)%N eqn:E1; [|easy].
  destruct (c <=? 57)%N eqn:E2; [|easy]. intros _.
  apply N.leb_le in E1, E2. now split.
Qed.

Lemma digits_ascii (s : str) :
  Forall (fun c => digit_val c <> None) s -> is_ascii s = true.
Proof.
  intros Hs. unfold is_ascii. apply forallb_forall. intros c Hc.
  rewrite List.Forall_forall in Hs. destruct (digit_val_range c (Hs c Hc)) as [_ H2].
  apply N.ltb_lt. lia.
Qed.

Lemma digits_count (s : str) :
  Forall (fun c => digit_val c <> None) s -> count_digits s = Z.of_nat (length s).
Proof.
  intros Hs. unfold count_digits. f_equal. f_equal.
  induction Hs as [|c s Hc Hs IH]; [reflexivity|]. cbn [List.filter].
  destruct (digit_val_range c Hc) as [H1 H2].
  replace (c =? 95)%N with false by (symmetry; apply N.eqb_neq; lia).
  cbn [negb]. now rewrite IH.
Qed.

Lemma strip_ascii_id (s : str) :
  Forall (fun c => ascii_space c = false) s -> strip_ascii s = s.
Proof.
  intros Hs. unfold strip_ascii.
  assert (Hspan : forall t, Forall (fun c => ascii_space c = false) t ->
                            snd (span ascii_space t) = t).
  { intros t Ht. destruct Ht as [|c t Hc Ht]; [reflexivity|]. cbn. now rewrite Hc. }
  rewrite (Hspan s Hs), Hspan by (now apply Forall_rev). apply rev_involutive.
Qed.

Lemma digit_not_space (c : N) : digit_val c <> None -> ascii_space c = false.
Proof.
  intros Hc. destruct (digit_val_range c Hc) as [H1 H2]. unfold ascii_space.
  replace (c <=? 13)%N with false by (symmetry; apply N.leb_gt; lia).
  replace (c =? 32)%N with false by (symmetry; apply N.eqb_neq; lia).
  now rewrite Bool.andb_false_r.
Qed.

(** [int] on a run of ASCII digits, with or without a minus sign. *)
Lemma py_int_digits (neg : bool) (c : N) (s : str) :
  Forall (fun c => digit_val c <> None) (c :: s) ->
  py_int ((if neg then [45%N] else []) ++ c :: s) =
  match int_digits (c :: s) 0 false with
  | Some n =>
      if int_max_str_digits <? Z.of_nat (length (c :: s)) then Raise ValueError
      else Ok (if neg then - n else n)
  | None => Raise ValueError
  end.
Proof.
  intros Hs. unfold py_int.
  assert (Hall : Forall (fun c => digit_val c <> None \/ c = 45%N)
                   ((if neg then [45%N] else []) ++ c :: s)).
  { apply Forall_app. split.
    - destruct neg; [|constructor]. constructor; [now right|constructor].
    - eapply List.Forall_impl; [|exact Hs]. intros a Ha. now left. }
  assert (Hascii : is_ascii ((if neg then [45%N] else []) ++ c :: s) = true).
  { unfold is_ascii. apply forallb_forall. intros a Ha.
    rewrite List.Forall_forall in Hall. apply N.ltb_lt.
    destruct (Hall a Ha) as [Hd| ->]; [|reflexivity].
    destruct (digit_val_range a Hd). lia. }
  rewrite Hascii, strip_ascii_id.
  - rewrite <- (digits_count (c :: s) Hs).
    destruct neg; cbn [app].
    + reflexivity.
    + inversion Hs as [|? ? Hc _]. destruct (digit_val_range c Hc) as [H1 H2].
      destruct c as [|q]; [reflexivity|].
      do 6 (try destruct q as [q|q|]); try reflexivity; lia.
  - eapply List.Forall_impl; [|exact Hall].
    intros a [Ha| ->]; [now apply digit_not_space|reflexivity].
Qed.

Lemma numeral_digits (d : Decimal.uint) :
  d <> Decimal.Nil ->
  int_digits (u (NilEmpty.string_of_uint d)) 0 false = Some (Z.of_N (Pos.of_uint d)).
Proof.
  intros Hd. rewrite <- digits_value_0.
  destruct d; [congruence|..]; cbn [NilEmpty.string_of_uint digits_value];
    rewrite u_String; erewrite int_digits_digit by (vm_compute; reflexivity);
    apply int_digits_uint.
Qed.

Lemma numeral_nonempty (d : Decimal.uint) :
  d <> Decimal.Nil -> exists c s, u (NilEmpty.string_of_uint d) = c :: s.
Proof.
  intros Hd. destruct d; [congruence|..]; cbn [NilEmpty.string_of_uint];
    rewrite u_String; eauto.
Qed.

Lemma str_of_Z_pos (p : positive) :
  str_of_Z (Z.pos p) = u (NilEmpty.string_of_uint (Pos.to_uint p))
  /\ str_of_Z (Z.neg p) = 45%N :: u (NilEmpty.string_of_uint (Pos.to_uint p)).
Proof.
  pose proof (DecimalPos.Unsigned.to_uint_nonnil p) as Hnil.
  unfold str_of_Z. cbn [Z.to_int NilZero.string_of_int].
  replace (NilZero.string_of_uint (Pos.to_uint p))
    with (NilEmpty.string_of_uint (Pos.to_uint p))
    by (destruct (Pos.to_uint p); [congruence|reflexivity..]).
  split; [reflexivity|]. now rewrite u_String.
Qed.

(** Reading back the numeral of an integer: [int] gives the integer
    unless the numeral has more than 4300 digits. *)
Lemma py_int_str_of_Z (z : Z) :
  py_int (str_of_Z z) =
  if int_max_str_digits <? digits z then Raise ValueError else Ok z.
Proof.
  destruct z as [|p|p]; [reflexivity|..]; unfold digits;
    change (Z.abs (Z.pos p)) with (Z.pos p); change (Z.abs (Z.neg p)) with (Z.pos p);
    destruct (str_of_Z_pos p) as [Epos Eneg];
    pose proof (DecimalPos.Unsigned.to_uint_nonnil p) as Hnil;
    pose proof (uint_digits (Pos.to_uint p)) as Hd;
    pose proof (numeral_digits (Pos.to_uint p) Hnil) as Hv;
    rewrite DecimalPos.Unsigned.of_to in Hv;
    destruct (numeral_nonempty (Pos.to_uint p) Hnil) as (c & s & Ecs);
    rewrite Ecs in Epos, Eneg, Hd, Hv.
  - pose proof (py_int_digits false c s Hd) as Hp. cbn [app] in Hp.
    rewrite Epos, Hp, Hv. reflexivity.
  - pose proof (py_int_digits true c s Hd) as Hp. cbn [app] in Hp.
    rewrite Eneg, Epos, Hp, Hv. reflexivity.
Qed.

Lemma py_str_py_int (z : Z) (s : str) : py_str z = Ok s -> py_int s = Ok z.
Proof.
  unfold py_str. pose proof (py_int_str_of_Z z) as H.
  destruct (int_max_str_digits <? digits z); [discriminate|]. now intros [= <-].
Qed.





(** ** The integers the drivers format are the integers the script reads *)

Lemma finish_seen (parser : list Argparse.action) (seen : list str) (k : str) :
  In k seen ->
  forall ns ns', Argparse.finish parser seen ns = Ok ns' -> ns' !! k = ns !! k.
Proof.
  intros Hk. induction parser as [|a parser IH]; intros ns ns' Hf; simpl in Hf.
  - now injection Hf as <-.
  - destruct (existsb (str_eqb (Argparse.dest a)) seen) eqn:Es; [now apply IH|].
    destruct (Argparse.required a); [discriminate Hf|].
    assert (Hne : Argparse.dest a <> k).
    { intros E. rewrite E in Es. apply Bool.not_true_iff_false in Es. apply Es. apply existsb_exists.
      exists k. split; [exact Hk|]. unfold str_eqb. now apply bool_decide_eq_true. }
    destruct (Argparse.default a) as [[| d | |]|]; try now apply IH.
    destruct (Argparse.get_value a d) as [v|]; [|discriminate Hf]. simpl in Hf.
    rewrite (IH _ _ Hf). now apply lookup_insert_ne.
Qed.

Lemma predictor_options_read (s1 s2 : str) (x y : Z) :
  py_int s1 = Ok x -> py_int s2 = Ok y ->
  exists args,
    Argparse.parse_args Assignment3.parser
      [u "--prog=queens"; u "--bp=LocalBP"; u "--bp_size=" ++ s1; u "--bp_bits=" ++ s2]
    = Ok args
    /\ args !! u "bp" = Some (PyStr (u "LocalBP"))
    /\ args !! u "bp_size" = Some (PyInt x)
    /\ args !! u "bp_bits" = Some (PyInt y).
Proof.
  intros H1 H2.
  unfold Argparse.parse_args.
  assert (Hc : Argparse.classify Assignment3.parser
      [u "--prog=queens"; u "--bp=LocalBP"; u "--bp_size=" ++ s1; u "--bp_bits=" ++ s2]
    = Ok [ Argparse.TOpt (Argparse.add_argument (u "--prog") PyNone Argparse.ToStr true
                            (Some [u "daxpy"; u "queens"]))
                         (u "--prog") (Some (u "queens"));
           Argparse.TOpt (Argparse.add_argument (u "--bp") PyNone Argparse.ToStr false None)
                         (u "--bp") (Some (u "LocalBP"));
           Argparse.TOpt (Argparse.add_argument (u "--bp_size") PyNone Argparse.ToInt false None)
                         (u "--bp_size") (Some s1);
           Argparse.TOpt (Argparse.add_argument (u "--bp_bits") PyNone Argparse.ToInt false None)
                         (u "--bp_bits") (Some s2) ]) by (vm_compute; reflexivity).
  rewrite Hc. clear Hc. cbn [res_bind].
  assert (Hd : forall s z, py_int s = Ok z -> str_eqb s (u "--") = false).
  { intros s z Hs. unfold str_eqb. apply bool_decide_eq_false. intros ->.
    vm_compute in Hs. discriminate Hs. }
  assert (Hcons :
    Argparse.consume Assignment3.parser
      [ Argparse.TOpt (Argparse.add_argument (u "--prog") PyNone Argparse.ToStr true
                         (Some [u "daxpy"; u "queens"]))
                      (u "--prog") (Some (u "queens"));
        Argparse.TOpt (Argparse.add_argument (u "--bp") PyNone Argparse.ToStr false None)
                      (u "--bp") (Some (u "LocalBP"));
        Argparse.TOpt (Argparse.add_argument (u "--bp_size") PyNone Argparse.ToInt false None)
                      (u "--bp_size") (Some s1);
        Argparse.TOpt (Argparse.add_argument (u "--bp_bits") PyNone Argparse.ToInt false None)
                      (u "--bp_bits") (Some s2) ]
      (Argparse.set_defaults Assignment3.parser ∅) [] false
    = Ok (<[u "bp_bits" := PyInt y]>
            (<[u "bp_size" := PyInt x]>
               (<[u "bp" := PyStr (u "LocalBP")]>
                  (<[u "prog" := PyStr (u "queens")]>
                     (Argparse.set_defaults Assignment3.parser ∅)))),
          [u "bp_bits"; u "bp_size"; u "bp"; u "prog"], false)).
  { cbn [res_bind Argparse.consume Argparse.kind_ Argparse.add_argument].
    unfold Argparse.store, Argparse.get_value.
    cbn [Argparse.type_ Argparse.add_argument].
    rewrite (Hd s1 x H1), (Hd s2 y H2), H1, H2. reflexivity. }
  rewrite Hcons. clear Hcons. cbn [res_bind].
  match goal with
  | |- context [Argparse.finish ?p ?seen ?ns] =>
      assert (Hf : match Argparse.finish p seen ns with Ok _ => true | Raise _ => false end
                   = true) by (vm_compute; reflexivity);
      destruct (Argparse.finish p seen ns) as [args|] eqn:Ef; [|discriminate Hf]
  end.
  exists args. split; [reflexivity|].
  assert (Hk : forall k, In k [u "bp_bits"; u "bp_size"; u "bp"; u "prog"] ->
                         args !! k = _ !! k) by (intros k Hk; exact (finish_seen _ _ k Hk _ _ Ef)).
  rewrite !Hk by (simpl; tauto).
  split; [|split].
  - rewrite lookup_insert_ne, lookup_insert_ne, lookup_insert_eq by (vm_compute; discriminate).
    reflexivity.
  - rewrite lookup_insert_ne, lookup_insert_eq by (vm_compute; discriminate). reflexivity.
  - now rewrite lookup_insert_eq.
Qed.

(** X8. An integer that the drivers can write, [f"{n}"], is read back by
    [int] as the same integer, also when it is negative: every integer of
    at most 4300 digits, beyond which [str] itself raises. So the options
    [--bp_size=<x>] and [--bp_bits=<y>] formatted from such integers [x]
    and [y], after [--prog=queens --bp=LocalBP], are accepted, and the
    script selects a [LocalBP] with exactly [x] and [y]. *)
Theorem predictor_sizes_round_trip (x y : Z) (sx sy : str) :
  py_str x = Ok sx -> py_str y = Ok sy ->
  py_int sx = Ok x /\ py_int sy = Ok y
  /\ exists args,
       Argparse.parse_args Assignment3.parser
         [u "--prog=queens"; u "--bp=LocalBP"; u "--bp_size=" ++ sx; u "--bp_bits=" ++ sy]
       = Ok args
       /\ Assignment3.branchPred args
          = Ok (Assignment3.LocalBP (PyInt x) (PyInt y) (PyInt x)).
Proof.
  intros Hx Hy.
  pose proof (py_str_py_int x sx Hx) as Ex. pose proof (py_str_py_int y sy Hy) as Ey.
  split; [exact Ex|]. split; [exact Ey|].
  destruct (predictor_options_read _ _ x y Ex Ey) as (args & Hp & Hbp & Hsize & Hbits).
  exists args. split; [exact Hp|].
  unfold Assignment3.branchPred, Argparse.getattr. rewrite Hbp, Hsize, Hbits.
  reflexivity.
Qed.

(** The sizes [run_experiments.py] passes, 16 and 2, are read back. *)
Lemma predictor_sizes_round_trip_witness :
  py_int (u "16") = Ok 16 /\ py_int (u "2") = Ok 2
  /\ exists args,
       Argparse.parse_args Assignment3.parser
         [u "--prog=queens"; u "--bp=LocalBP"; u "--bp_size=" ++ u "16";
          u "--bp_bits=" ++ u "2"]
       = Ok args
       /\ Assignment3.branchPred args
          = Ok (Assignment3.LocalBP (PyInt 16) (PyInt 2) (PyInt 16)).
Proof.
  exact (predictor_sizes_round_trip 16 2 (u "16") (u "2") eq_refl eq_refl).
Defined.

(** ** How [classify_misses.py] can end *)

Lemma py_int_raises (s : str) (e : exn) : py_int s = Raise e -> e = ValueError.
Proof.
  unfold py_int.
  set (t := strip_ascii (if is_ascii s then s else to_ascii_digits s)).
  destruct (match t with
            | 43%N :: b => (false, b)
            | 45%N :: b => (true, b)
            | _ => (false, t)
            end) as [neg body].
  destruct (int_digits body 0 false); [|now intros [= <-]].
  destruct (int_max_str_digits <? count_digits body); [now intros [= <-]|discriminate].
Qed.


Lemma classify_results_complete `{Runtime} (w w1 : World) (t : list event)
    (results : gmap str ClassifyMisses.entry) :
  ClassifyMisses.main_loop ClassifyMisses.CONFIGS ∅ w = (Ok results, w1, t) ->
  size results = 3%nat ->
  exists b nc ncap, results = counters results b nc ncap.
Proof.
  intros Hloop Hsize.
  pose proof (classify_main_loop_spec ClassifyMisses.CONFIGS ∅ w) as Hspec.
  rewrite Hloop in Hspec. destruct Hspec as (_ & _ & Hspec).
  destruct (Hspec results eq_refl) as [_ Hent].
  set (names := ({[u "baseline"; u "no_conflict"; u "no_capacity"]} : gset str)).
  assert (Hdom : dom results = names).
  { apply set_subseteq_size_eq.
    - intros k Hk. apply elem_of_dom in Hk as [e Hk].
      destruct (Hent k) as [Hnone|(s & a & p & Hcfg & _)].
      + rewrite lookup_empty in Hnone. congruence.
      + vm_compute in Hcfg. unfold names.
        destruct Hcfg as [E|[E|[E|[]]]]; simplify_eq; set_solver.
    - rewrite size_dom, Hsize. now vm_compute. }
  assert (Hin : forall k, k ∈ names -> exists e, results !! k = Some e).
  { intros k Hk. rewrite <- Hdom in Hk. now apply elem_of_dom in Hk. }
  destruct (Hin (u "baseline")) as [b Hb]; [unfold names; set_solver|].
  destruct (Hin (u "no_conflict")) as [nc Hnc]; [unfold names; set_solver|].
  destruct (Hin (u "no_capacity")) as [ncap Hncap]; [unfold names; set_solver|].
  exists b, nc, ncap. unfold counters.
  rewrite (insert_id results _ _ Hb), (insert_id results _ _ Hnc), (insert_id results _ _ Hncap).
  reflexivity.
Qed.


(** ** Reading the miss counter *)

Lemma first_stat_line_parse (content name pre ws tok rest : str) :
  first_stat_line content name pre ws tok rest ->
  ClassifyMisses.parse_stat content name = Some (split_head 35 tok).
Proof.
  intros Hf. apply parse_stat_found.
  - now apply (search_first_stat_line _ _ pre ws tok rest).
  - destruct Hf as [Hline _]. apply (sl_tok _ _ _ _ _ _ Hline).
Qed.

Lemma parse_stat_first_stat_line (content name v : str) :
  ClassifyMisses.parse_stat content name = Some v ->
  exists pre ws tok rest,
    first_stat_line content name pre ws tok rest /\ v = split_head 35 tok.
Proof.
  intros Hv. destruct (Re.search (stat_pattern name) content) as [tok|] eqn:E.
  - destruct (search_Some_first _ _ _ E) as (pre & ws & rest & Hf).
    exists pre, ws, tok, rest. split; [exact Hf|].
    rewrite (first_stat_line_parse _ _ _ _ _ _ Hf) in Hv. congruence.
  - apply parse_stat_not_found in E as [_ E]. congruence.
Qed.

Lemma parse_stat_no_stat_line (content name : str) :
  ClassifyMisses.parse_stat content name = None <->
  ~ exists pre ws tok rest, stat_line content name pre ws tok rest.
Proof.
  rewrite <- search_None_iff. split.
  - intros Hn. destruct (Re.search (stat_pattern name) content) as [tok|] eqn:E;
      [|reflexivity].
    destruct (search_Some_first _ _ _ E) as (pre & ws & rest & Hf).
    rewrite (first_stat_line_parse _ _ _ _ _ _ Hf) in Hn. discriminate.
  - intros E. now apply parse_stat_not_found in E.
Qed.

Lemma py_int_empty : py_int [] = Raise ValueError.
Proof. reflexivity. Qed.

Lemma extract_l1d_misses_eq `{Runtime} (output_dir : str) (w : World) :
  let stats_file := path_div output_dir (u "stats.txt") in
  ClassifyMisses.extract_l1d_misses output_dir w =
  match read_text stats_file w with
  | Some content => (l1d_misses_of content, w, [Read stats_file])
  | None => (Ok None, w, [Read stats_file; Print (StatsNotFound stats_file)])
  end.
Proof.
  intros stats_file.
  unfold ClassifyMisses.extract_l1d_misses, bind, read_file, print, emit, ret, lift.
  fold stats_file. fold misses_stat. unfold l1d_misses_of.
  destruct (read_text stats_file w) as [content|]; [|reflexivity].
  destruct (ClassifyMisses.parse_stat content misses_stat) as [[|c s]|]; try reflexivity.
  now destruct (py_int (c :: s)).
Qed.

Lemma l1d_misses_of_first (content pre ws tok rest : str) :
  first_stat_line content misses_stat pre ws tok rest ->
  l1d_misses_of content =
  match split_head 35 tok with
  | [] => Ok None
  | v => n <-! py_int v; Ok (Some n)
  end.
Proof.
  intros Hf. unfold l1d_misses_of. rewrite (first_stat_line_parse _ _ _ _ _ _ Hf).
  now destruct (split_head 35 tok).
Qed.

Lemma l1d_misses_of_none (content : str) :
  ~ (exists pre ws tok rest, stat_line content misses_stat pre ws tok rest) ->
  l1d_misses_of content = Ok None.
Proof.
  intros Hno. unfold l1d_misses_of.
  now rewrite (proj2 (parse_stat_no_stat_line _ _) Hno).
Qed.

Lemma stat_line_cases (content name : str) :
  (exists pre ws tok rest, first_stat_line content name pre ws tok rest)
  \/ ~ (exists pre ws tok rest, stat_line content name pre ws tok rest).
Proof.
  destruct (ClassifyMisses.parse_stat content name) as [v|] eqn:E.
  - left. destruct (parse_stat_first_stat_line _ _ _ E) as (pre & ws & tok & rest & Hf & _).
    now exists pre, ws, tok, rest.
  - right. now apply parse_stat_no_stat_line.
Qed.

Lemma l1d_misses_of_cases (content : str) :
  (forall n,
     l1d_misses_of content = Ok (Some n) <->
     exists pre ws tok rest,
       first_stat_line content misses_stat pre ws tok rest
       /\ py_int (split_head 35 tok) = Ok n)
  /\ (forall e,
        l1d_misses_of content = Raise e <->
        e = ValueError
        /\ exists pre ws tok rest,
             first_stat_line content misses_stat pre ws tok rest
             /\ split_head 35 tok <> []
             /\ py_int (split_head 35 tok) = Raise ValueError)
  /\ (l1d_misses_of content = Ok None <->
      ~ (exists pre ws tok rest, stat_line content misses_stat pre ws tok rest)
      \/ exists pre ws tok rest,
           first_stat_line content misses_stat pre ws tok rest
           /\ split_head 35 tok = []).
Proof.
  destruct (stat_line_cases content misses_stat) as [(pre & ws & tok & rest & Hf)|Hno].
  - assert (Hsame : forall pre' ws' tok' rest',
              first_stat_line content misses_stat pre' ws' tok' rest' ->
              split_head 35 tok' = split_head 35 tok).
    { intros pre' ws' tok' rest' Hf'.
      pose proof (first_stat_line_parse _ _ _ _ _ _ Hf) as E.
      pose proof (first_stat_line_parse _ _ _ _ _ _ Hf') as E'. congruence. }
    assert (Hline : exists pre ws tok rest, stat_line content misses_stat pre ws tok rest)
      by (exists pre, ws, tok, rest; apply Hf).
    rewrite (l1d_misses_of_first _ _ _ _ _ Hf).
    destruct (split_head 35 tok) as [|c v] eqn:Ev.
    + split; [|split].
      * intros n. split; [discriminate|].
        intros (pre' & ws' & tok' & rest' & Hf' & Hn).
        rewrite (Hsame _ _ _ _ Hf'), py_int_empty in Hn. discriminate.
      * intros e. split; [discriminate|].
        intros (_ & pre' & ws' & tok' & rest' & Hf' & Hne & _).
        now rewrite (Hsame _ _ _ _ Hf') in Hne.
      * split; [|reflexivity]. intros _. right. now exists pre, ws, tok, rest.
    + destruct (py_int (c :: v)) as [n|e] eqn:En; cbn [res_bind]; (split; [|split]).
      * intros n'. split.
        -- intros [= <-]. exists pre, ws, tok, rest. split; [exact Hf|]. now rewrite Ev.
        -- intros (pre' & ws' & tok' & rest' & Hf' & Hn).
           rewrite (Hsame _ _ _ _ Hf') in Hn. congruence.
      * intros e. split; [discriminate|].
        intros (_ & pre' & ws' & tok' & rest' & Hf' & _ & Hn).
        rewrite (Hsame _ _ _ _ Hf') in Hn. congruence.
      * split; [discriminate|].
        intros [Hno|(pre' & ws' & tok' & rest' & Hf' & He)]; [contradiction|].
        rewrite (Hsame _ _ _ _ Hf') in He. discriminate.
      * intros n'. split; [discriminate|].
        intros (pre' & ws' & tok' & rest' & Hf' & Hn).
        rewrite (Hsame _ _ _ _ Hf') in Hn. congruence.
      * intros e'. pose proof (py_int_raises _ _ En) as ->. split.
        -- intros [= <-]. split; [reflexivity|]. exists pre, ws, tok, rest.
           split; [exact Hf|]. rewrite Ev. now split.
        -- now intros [-> _].
      * split; [discriminate|].
        intros [Hno|(pre' & ws' & tok' & rest' & Hf' & He)]; [contradiction|].
        rewrite (Hsame _ _ _ _ Hf') in He. discriminate.
  - rewrite (l1d_misses_of_none _ Hno). split; [|split].
    + intros n. split; [discriminate|].
      intros (pre' & ws' & tok' & rest' & [Hl _] & _).
      exfalso. apply Hno. now exists pre', ws', tok', rest'.
    + intros e. split; [discriminate|].
      intros (_ & pre' & ws' & tok' & rest' & [Hl _] & _).
      exfalso. apply Hno. now exists pre', ws', tok', rest'.
    + split; [|reflexivity]. intros _. now left.
Qed.

(** X11. [extract_l1d_misses] on a missing [stats.txt] prints a warning
    and returns [None]. On a file whose text has been read it prints
    nothing, changes nothing, and: returns an integer [n] exactly when the
    token of the first line for the miss counter, without its text from
    [#] on, is read by [int] as [n], so a counter of [0] is returned as
    [0], not as [None]; raises, and then [ValueError], exactly when that
    text is not empty and [int] rejects it; returns [None] exactly when
    the text has no line for the counter or the token starts with [#]. *)
Theorem extract_l1d_misses_cases `{Runtime} (output_dir : str) (w : World) :
  let stats_file := path_div output_dir (u "stats.txt") in
  (read_text stats_file w = None ->
   ClassifyMisses.extract_l1d_misses output_dir w
   = (Ok None, w, [Read stats_file; Print (StatsNotFound stats_file)]))
  /\ (forall content,
        read_text stats_file w = Some content ->
        exists r,
          ClassifyMisses.extract_l1d_misses output_dir w = (r, w, [Read stats_file])
          /\ (forall n,
                r = Ok (Some n) <->
                exists pre ws tok rest,
                  first_stat_line content misses_stat pre ws tok rest
                  /\ py_int (split_head 35 tok) = Ok n)
          /\ (forall e,
                r = Raise e <->
                e = ValueError
                /\ exists pre ws tok rest,
                     first_stat_line content misses_stat pre ws tok rest
                     /\ split_head 35 tok <> []
                     /\ py_int (split_head 35 tok) = Raise ValueError)
          /\ (r = Ok None <->
              ~ (exists pre ws tok rest, stat_line content misses_stat pre ws tok rest)
              \/ exists pre ws tok rest,
                   first_stat_line content misses_stat pre ws tok rest
                   /\ split_head 35 tok = [])).
Proof.
  intros stats_file. split.
  - intros Hr. rewrite extract_l1d_misses_eq. fold stats_file. now rewrite Hr.
  - intros content Hr. exists (l1d_misses_of content). split.
    + rewrite extract_l1d_misses_eq. fold stats_file. now rewrite Hr.
    + apply l1d_misses_of_cases.
Qed.

(** A statistics file whose miss counter is [0] gives the integer 0. *)
Lemma extract_l1d_misses_cases_witness :
  @ClassifyMisses.extract_l1d_misses Demo.no_misses (u "/work/miss_classify_baseline") tt
  = (Ok (Some 0), tt, [Read (u "/work/miss_classify_baseline/stats.txt")]).
Proof.
  destruct (proj2 (@extract_l1d_misses_cases Demo.no_misses
                     (u "/work/miss_classify_baseline") tt) _ eq_refl)
    as (r & Heq & _).
  rewrite Heq. f_equal. f_equal.
  assert (E : fst (fst (@ClassifyMisses.extract_l1d_misses Demo.no_misses
                          (u "/work/miss_classify_baseline") tt)) = Ok (Some 0))
    by (vm_compute; reflexivity).
  rewrite Heq in E. exact E.
Defined.

(** ** A counter that is not an integer *)

Lemma classify_main_loop_app `{Runtime} (done rest : list (str * str * Z * str)) :
  forall (results0 : gmap str ClassifyMisses.entry) (w0 : World),
    ClassifyMisses.main_loop (done ++ rest) results0 w0 =
    match ClassifyMisses.main_loop done results0 w0 with
    | (Ok results, w, t0) =>
        let '(r, w', t) := ClassifyMisses.main_loop rest results w in (r, w', t0 ++ t)
    | (Raise e, w, t0) => (Raise e, w, t0)
    end.
Proof.
  induction done as [|[[[name size] assoc] purpose] done IH]; intros results0 w0.
  - cbn [app]. cbn. now destruct (ClassifyMisses.main_loop rest results0 w0) as [[r w'] t].
  - cbn [app]. rewrite !classify_main_loop_cons. cbv zeta.
    destruct (subprocess_run _ w0) as [[rc err] w1].
    assert (Hstep : forall results1 (pre : list event),
      (let '(r, w2, t) := ClassifyMisses.main_loop (done ++ rest) results1 w1 in
       (r, w2, pre ++ t)) =
      match (let '(r, w2, t) := ClassifyMisses.main_loop done results1 w1 in
             (r, w2, pre ++ t)) with
      | (Ok results, w, t0) =>
          let '(r, w', t) := ClassifyMisses.main_loop rest results w in (r, w', t0 ++ t)
      | (Raise e, w, t0) => (Raise e, w, t0)
      end).
    { intros results1 pre. rewrite IH.
      destruct (ClassifyMisses.main_loop done results1 w1) as [[[results|e] w] t0];
        [|reflexivity].
      destruct (ClassifyMisses.main_loop rest results w) as [[r w'] t].
      now rewrite app_assoc. }
    assert (Hstep2 : forall results1 (pre1 pre2 : list event),
      (let '(r, w2, t) := ClassifyMisses.main_loop (done ++ rest) results1 w1 in
       (r, w2, pre1 ++ pre2 ++ t)) =
      match (let '(r, w2, t) := ClassifyMisses.main_loop done results1 w1 in
             (r, w2, pre1 ++ pre2 ++ t)) with
      | (Ok results, w, t0) =>
          let '(r, w', t) := ClassifyMisses.main_loop rest results w in (r, w', t0 ++ t)
      | (Raise e, w, t0) => (Raise e, w, t0)
      end).
    { intros results1 pre1 pre2. specialize (Hstep results1 (pre1 ++ pre2)).
      destruct (ClassifyMisses.main_loop (done ++ rest) results1 w1) as [[r w2] t].
      destruct (ClassifyMisses.main_loop done results1 w1) as [[r' w2'] t'].
      now rewrite !app_assoc. }
    destruct (rc =? 0).
    + destruct (read_text _ w1) as [content|].
      * destruct (ClassifyMisses.parse_stat content _) as [[|c text]|].
        -- apply Hstep2.
        -- destruct (py_int (c :: text)) as [n|e]; [|reflexivity].
           apply Hstep2.
        -- apply Hstep2.
      * apply Hstep2.
    + apply Hstep.
Qed.

Lemma fractional_counter_line :
  first_stat_line
    (u "board.cache_hierarchy.ruby_system.l1_controllers.L1Dcache.m_demand_misses 12.5
") misses_stat [] (u " ") (u "12.5") (u "
").
Proof.
  split.
  - split; try (vm_compute; easy).
    + now left.
    + split; [easy|]. repeat constructor.
    + split; [easy|]. repeat constructor.
  - intros pre' ws' tok' rest' _. cbn. lia.
Qed.

(** X12. [main] of [classify_misses.py] does not catch what [int] raises.
    When the run of a configuration exits with status 0 and the first
    line for the miss counter in its [stats.txt] carries a text that
    [int] rejects, such as [12.5], the loop stops there with
    [ValueError]: the trace ends with the read of that file, the
    configurations after it are never run, and nothing is written. *)
Theorem malformed_counter_aborts `{Runtime}
    (done configs : list (str * str * Z * str)) (name l1d_size : str) (l1d_assoc : Z)
    (purpose : str) (results0 results : gmap str ClassifyMisses.entry)
    (w0 w w1 : World) (t0 : list event) (err content pre ws tok rest : str) :
  let output_dir := path_div SCRIPT_DIR (u "miss_classify_" ++ name) in
  let cmd := ClassifyMisses.command l1d_size l1d_assoc output_dir in
  let stats_file := path_div output_dir (u "stats.txt") in
  let t := t0 ++ [ Mkdir output_dir; Print (RunningNamed name l1d_size l1d_assoc);
                   Print (OutputDir output_dir); Run cmd 0; Print Completed;
                   Read stats_file ] in
  ClassifyMisses.main_loop done results0 w0 = (Ok results, w, t0) ->
  subprocess_run cmd w = (0, err, w1) ->
  read_text stats_file w1 = Some content ->
  first_stat_line content misses_stat pre ws tok rest ->
  split_head 35 tok <> [] ->
  py_int (split_head 35 tok) = Raise ValueError ->
  ClassifyMisses.main_loop (done ++ (name, l1d_size, l1d_assoc, purpose) :: configs)
    results0 w0 = (Raise ValueError, w1, t)
  /\ (done ++ (name, l1d_size, l1d_assoc, purpose) :: configs = ClassifyMisses.CONFIGS ->
      results0 = ∅ ->
      ClassifyMisses.main w0 = (Raise ValueError, w1, t)
      /\ csv_opens t = [] /\ csv_rows t = []).
Proof.
  intros output_dir cmd stats_file t Hdone Hrun Hread Hf Hne Hint.
  assert (Hloop :
    ClassifyMisses.main_loop (done ++ (name, l1d_size, l1d_assoc, purpose) :: configs)
      results0 w0 = (Raise ValueError, w1, t)).
  { rewrite classify_main_loop_app, Hdone, classify_main_loop_cons. cbv zeta.
    fold output_dir. fold cmd. fold stats_file. rewrite Hrun. cbn [Z.eqb].
    rewrite Hread. fold misses_stat. rewrite (first_stat_line_parse _ _ _ _ _ _ Hf).
    destruct (split_head 35 tok) as [|c text]; [now contradiction Hne|].
    rewrite Hint. reflexivity. }
  split; [exact Hloop|]. intros Hcfg ->.
  pose proof (classify_main_loop_spec (done ++ (name, l1d_size, l1d_assoc, purpose) :: configs)
                ∅ w0) as Hspec.
  rewrite Hloop in Hspec. destruct Hspec as (Hopen & Hrows & _).
  split; [|now split].
  unfold ClassifyMisses.main, bind. now rewrite <- Hcfg, Hloop.
Qed.

(** With a miss counter of [12.5] in the first statistics file, [main]
    stops after one simulation. *)
Lemma malformed_counter_aborts_witness :
  let output_dir := u "/work/miss_classify_baseline" in
  let cmd := @ClassifyMisses.command fractional_counter (u "1kB") 2 output_dir in
  @ClassifyMisses.main fractional_counter tt
  = (Raise ValueError, tt,
     [ Mkdir output_dir; Print (RunningNamed (u "baseline") (u "1kB") 2);
       Print (OutputDir output_dir); Run cmd 0; Print Completed;
       Read (u "/work/miss_classify_baseline/stats.txt") ]).
Proof.
  intros output_dir cmd.
  exact (proj1 (proj2 (@malformed_counter_aborts fractional_counter
           [] _ (u "baseline") (u "1kB") 2 _ ∅ ∅ tt tt tt [] [] _ _ _ _ _
           eq_refl eq_refl eq_refl fractional_counter_line
           ltac:(vm_compute; discriminate) ltac:(vm_compute; reflexivity)) eq_refl eq_refl)).
Defined.

(** ** One row per successful run that left a statistics file *)







(** ** Reading the metrics *)

Lemma metrics_of_not_available `{Runtime} (content : str) :
  (forall name, ~ exists pre ws tok rest, stat_line content name pre ws tok rest) ->
  RunExperiments.metrics_of content = Ok not_available.
Proof.
  intros Hno. unfold RunExperiments.metrics_of.
  assert (Hna : forall name, RunExperiments.parse_stat content name = u "N/A").
  { intros name. apply parse_stat_not_found. apply search_None_iff. apply Hno. }
  rewrite !Hna. reflexivity.
Qed.

(** X14. [extract_metrics] on a missing [stats.txt] prints a warning
    and returns [None]. On a file whose text has been read it prints
    nothing, changes nothing and returns metrics, whatever the text is:
    nothing that [float] or the division raises gets out of
    [calc_miss_rate]. The three miss rates are those of the text, and when
    the text has no line for any stat, as an empty file, every field of
    the metrics is the text [N/A]. *)
Theorem extract_metrics_cases `{Runtime} (output_dir : str) (w : World) :
  let stats_file := path_div output_dir (u "stats.txt") in
  (read_text stats_file w = None ->
   RunExperiments.extract_metrics output_dir w
   = (Ok None, w, [Read stats_file; Print (StatsNotFound stats_file)]))
  /\ (forall content,
        read_text stats_file w = Some content ->
        exists m,
          RunExperiments.extract_metrics output_dir w = (Ok (Some m), w, [Read stats_file])
          /\ miss_rates content (RunExperiments.l1d_miss_rate m)
               (RunExperiments.l1i_miss_rate m) (RunExperiments.l2_miss_rate m)
          /\ ((forall name, ~ exists pre ws tok rest, stat_line content name pre ws tok rest) ->
              m = not_available)
          /\ (content = [] -> m = not_available)).
Proof.
  intros stats_file.
  unfold RunExperiments.extract_metrics, bind, read_file, print, emit, ret, lift.
  fold stats_file. split.
  - intros ->. reflexivity.
  - intros content ->.
    pose proof (metrics_of_not_available content) as Hna.
    destruct (metrics_of_total content) as [m Em].
    pose proof (metrics_of_rates content m Em) as Hrates.
    rewrite Em in *. exists m. split; [reflexivity|]. split; [exact Hrates|].
    assert (Hall : (forall name, ~ exists pre ws tok rest,
                       stat_line content name pre ws tok rest) -> m = not_available).
    { intros Hno. specialize (Hna Hno). congruence. }
    split; [exact Hall|].
    intros ->. apply Hall. intros name (pre & ws & tok & rest & Hline).
    destruct Hline as [Hsplit _ _ [Htok _] _].
    destruct pre; [|discriminate Hsplit]. destruct name; [|discriminate Hsplit].
    destruct ws; [|discriminate Hsplit]. destruct tok; [now apply Htok|discriminate Hsplit].
Qed.

(** ** The text of an extracted value *)

Lemma parse_stat_clean (content name v : str) :
  ClassifyMisses.parse_stat content name = Some v ->
  Forall (fun c => isspace c = false) v /\ ~ In 35%N v.
Proof.
  intros Hv.
  destruct (parse_stat_first_stat_line _ _ _ Hv) as (pre & ws & tok & rest & [Hline _] & ->).
  split.
  - apply split_head_nonspace. apply (sl_tok _ _ _ _ _ _ Hline).
  - destruct (split_head_stripped tok) as (tail & _ & Hno & _). exact Hno.
Qed.

(** X15. A value that [parse_stat] extracts, in either driver, contains
    no whitespace, so no line break, and no [#]; it may be empty and need
    not be a number. In [run_experiments.py] the result is such a text or
    the text [N/A]. *)
Theorem parse_stat_value_clean (content name : str) :
  match ClassifyMisses.parse_stat content name with
  | Some v =>
      Forall (fun c => isspace c = false) v /\ ~ In 35%N v
      /\ RunExperiments.parse_stat content name = v
  | None => RunExperiments.parse_stat content name = u "N/A"
  end
  /\ (RunExperiments.parse_stat content name = u "N/A"
      \/ Forall (fun c => isspace c = false) (RunExperiments.parse_stat content name)
         /\ ~ In 35%N (RunExperiments.parse_stat content name)).
Proof.
  assert (Hrun : RunExperiments.parse_stat content name =
                 match ClassifyMisses.parse_stat content name with
                 | Some v => v
                 | None => u "N/A"
                 end).
  { unfold RunExperiments.parse_stat, ClassifyMisses.parse_stat.
    now destruct (Re.search (stat_pattern name) content). }
  rewrite Hrun.
  destruct (ClassifyMisses.parse_stat content name) as [v|] eqn:E.
  - destruct (parse_stat_clean _ _ _ E) as [Hs Hh]. split; [now repeat split|].
    right. now split.
  - split; [reflexivity|now left].
Qed.

(** ** When the breakdown is attempted *)

Lemma extracted_app (t1 t2 : list event) :
  extracted (t1 ++ t2) = extracted t1 ++ extracted t2.
Proof. apply omap_app. Qed.

Lemma verdict_app (t1 t2 : list event) : verdict (t1 ++ t2) = verdict t1 ++ verdict t2.
Proof. apply omap_app. Qed.

Lemma classify_main_loop_count `{Runtime} (configs : list (str * str * Z * str)) :
  NoDup (map (fun c => fst (fst (fst c))) configs) ->
  forall (results : gmap str ClassifyMisses.entry) (w : World),
    (forall c, In c configs -> results !! fst (fst (fst c)) = None) ->
    let '(r, _, t) := ClassifyMisses.main_loop configs results w in
    verdict t = []
    /\ match r with
       | Ok results' => size results' = (size results + length (extracted t))%nat
                        /\ (length (extracted t) <= length configs)%nat
       | Raise _ => (length (extracted t) < length configs)%nat
       end.
Proof.
  induction configs as [|[[[name size_] assoc] purpose] configs IH];
    intros Hnd results w Hfresh.
  - cbn. split; [reflexivity|]. split; lia.
  - cbn [map fst] in Hnd. apply NoDup_cons in Hnd as [Hname Hnd].
    assert (Hfresh' : forall c, In c configs -> results !! fst (fst (fst c)) = None)
      by (intros c Hc; apply Hfresh; now right).
    rewrite classify_main_loop_cons. cbv zeta.
    destruct (subprocess_run _ w) as [[rc err] w1].
    assert (Hskip : forall pre1 pre2 : list event,
              verdict pre1 = [] -> extracted pre1 = [] ->
              verdict pre2 = [] -> extracted pre2 = [] ->
              let '(r, _, t) :=
                (let '(r, w2, t) := ClassifyMisses.main_loop configs results w1 in
                 (r, w2, pre1 ++ pre2 ++ t)) in
              verdict t = []
              /\ match r with
                 | Ok results' =>
                     size results' = (size results + length (extracted t))%nat
                     /\ (length (extracted t) <= length ((name, size_, assoc, purpose) :: configs))%nat
                 | Raise _ =>
                     (length (extracted t) < length ((name, size_, assoc, purpose) :: configs))%nat
                 end).
    { intros pre1 pre2 Hv1 He1 Hv2 He2. specialize (IH Hnd results w1 Hfresh').
      destruct (ClassifyMisses.main_loop configs results w1) as [[r w2] t].
      rewrite !verdict_app, !extracted_app, Hv1, He1, Hv2, He2. cbn [app length].
      destruct IH as [-> IH]. split; [reflexivity|]. destruct r as [results'|e]; lia. }
    destruct (rc =? 0).
    + destruct (read_text _ w1) as [content|].
      * destruct (ClassifyMisses.parse_stat content _) as [[|c text]|].
        -- now apply Hskip.
        -- destruct (py_int (c :: text)) as [n|e].
           ++ match goal with
              | |- context [ClassifyMisses.main_loop configs (<[name := ?e]> results) w1] =>
                  specialize (IH Hnd (<[name := e]> results) w1)
              end.
              destruct (ClassifyMisses.main_loop configs _ w1) as [[r w2] t].
              rewrite !verdict_app, !extracted_app. cbn [app length].
              destruct IH as [-> IH].
              { intros c' Hc'. rewrite lookup_insert_ne; [now apply Hfresh'|].
                intros E. apply Hname. apply list_elem_of_In. apply in_map_iff.
                exists c'. now split. }
              split; [reflexivity|]. cbn.
              destruct r as [results'|e]; [|lia].
              rewrite map_size_insert_None in IH by (apply (Hfresh (name, size_, assoc, purpose)); now left).
              lia.
           ++ cbn. split; [reflexivity|]. lia.
        -- now apply Hskip.
      * now apply Hskip.
    + now apply (Hskip []).
Qed.

(** X16. [main] of [classify_misses.py] attempts the breakdown exactly
    when it has extracted the miss counter of each of its three
    configurations: the title of the breakdown is printed if and only if
    three counters were reported, the notice that not all simulations
    completed if and only if fewer were and the loop did not raise, and
    never both. The three names being distinct, no entry of [results]
    overwrites another. *)
Theorem breakdown_needs_three_counters `{Runtime} (w : World) :
  let '(r, _, t) := ClassifyMisses.main w in
  let k := length (extracted t) in
  (k <= 3)%nat
  /\ (In (Print Title) t <-> k = 3%nat)
  /\ (In (Print NotAllCompleted) t <-> (k < 3)%nat /\ r = Ok tt)
  /\ (length (verdict t) <= 1)%nat.
Proof.
  unfold ClassifyMisses.main, bind.
  assert (Hnd : NoDup (map (fun c : str * str * Z * str => fst (fst (fst c)))
                         ClassifyMisses.CONFIGS))
    by (apply (bool_decide_unpack _); vm_compute; exact I).
  pose proof (classify_main_loop_count ClassifyMisses.CONFIGS Hnd ∅ w
                (fun c _ => lookup_empty _)) as Hloop.
  pose proof (classify_results_complete w) as Hcomplete.
  assert (Hin : forall (m : message) (t : list event),
            (m = Title \/ m = NotAllCompleted) -> In (Print m) t <-> In m (verdict t)).
  { intros m t Hm. unfold verdict. rewrite <- !list_elem_of_In, list_elem_of_omap. split.
    - intros Hi. exists (Print m). split; [exact Hi|]. now destruct Hm as [->| ->].
    - intros (e & He & Hv). destruct e as [| | |m'| |]; try discriminate.
      destruct m'; try discriminate; injection Hv as <-; exact He. }
  destruct (ClassifyMisses.main_loop ClassifyMisses.CONFIGS ∅ w) as [[[results|e] w1] t].
  - destruct Hloop as (Hv & Hsize & Hle). rewrite map_size_empty in Hsize. cbn in Hsize, Hle.
    destruct (size results =? 3)%nat eqn:Esize.
    + apply Nat.eqb_eq in Esize.
      destruct (Hcomplete w1 t results eq_refl Esize) as (b & nc & ncap & E).
      assert (Hc : exists r w2 t',
                ClassifyMisses.classification results w1 = (r, w2, t')
                /\ verdict t' = [Title] /\ extracted t' = []).
      { rewrite E. unfold ClassifyMisses.classification, bind, lift, print, emit.
        destruct (item_counters results b nc ncap ClassifyMisses.misses) as (-> & -> & ->).
        destruct (item_counters results b nc ncap ClassifyMisses.l1d_size) as (-> & _ & ->).
        destruct (item_counters results b nc ncap ClassifyMisses.l1d_assoc) as (-> & _ & ->).
        unfold int_truediv.
        destruct (ClassifyMisses.misses b =? 0); [cbn; now eexists _, _, _|].
        destruct (float_overflow _ (ClassifyMisses.misses b)); [cbn; now eexists _, _, _|].
        destruct (float_overflow _ (ClassifyMisses.misses b)); [cbn; now eexists _, _, _|].
        destruct (float_overflow _ (ClassifyMisses.misses b)); [cbn; now eexists _, _, _|].
        destruct (_ =? ClassifyMisses.misses b); cbn; now eexists _, _, _. }
      destruct Hc as (r & w2 & t' & -> & Hv' & He').
      rewrite !Hin by tauto.
      rewrite verdict_app, extracted_app, Hv, Hv', He', app_nil_r. cbn.
      split; [lia|]. split; [split; [lia|tauto]|]. split; [|lia].
      split; [intros [Hf|[]]; discriminate Hf|lia].
    + apply Nat.eqb_neq in Esize. unfold print, emit.
      rewrite !Hin by tauto.
      rewrite verdict_app, extracted_app, Hv, app_nil_r. cbn.
      split; [lia|]. split; [split; [intros [Hf|[]]; discriminate Hf|lia]|].
      split; [|lia]. split; [intros _; split; [lia|reflexivity]|tauto].
  - destruct Hloop as (Hv & Hlt). cbn in Hlt.
    rewrite !Hin by tauto. rewrite Hv. cbn.
    split; [lia|]. split; [split; [tauto|lia]|]. split; [|lia].
    split; [tauto|]. now intros [_ Hf].
Qed.

(** ** Asking for help *)

(** X17. [-h] or [--help] as the first argument makes the script exit
    with status 0, before any simulation object is built and although
    the required [--prog] is missing, whatever follows it, as long as no
    later token is an ambiguous abbreviation, which [argparse] rejects
    before it acts on any option. *)
Theorem help_exits_zero (rest : list str) (toks : list Argparse.token)
    (isa : Assignment3.ISA) :
  Argparse.classify Assignment3.parser rest = Ok toks ->
  Argparse.parse_args Assignment3.parser (u "--help" :: rest) = Raise (SystemExit 0)
  /\ Argparse.parse_args Assignment3.parser (u "-h" :: rest) = Raise (SystemExit 0)
  /\ Assignment3.board (u "--help" :: rest) isa = Raise (SystemExit 0).
Proof.
  intros Hc.
  assert (Hlong : Argparse.parse_optional Assignment3.parser (u "--help")
                  = Ok (Argparse.TOpt Argparse.help_action (u "--help") None))
    by (vm_compute; reflexivity).
  assert (Hshort : Argparse.parse_optional Assignment3.parser (u "-h")
                   = Ok (Argparse.TOpt Argparse.help_action (u "-h") None))
    by (vm_compute; reflexivity).
  assert (Hl : str_eqb (u "--help") (u "--") = false) by (vm_compute; reflexivity).
  assert (Hs : str_eqb (u "-h") (u "--") = false) by (vm_compute; reflexivity).
  assert (H1 : Argparse.parse_args Assignment3.parser (u "--help" :: rest)
               = Raise (SystemExit 0)).
  { unfold Argparse.parse_args. cbn [Argparse.classify].
    rewrite Hl, Hlong, Hc. reflexivity. }
  split; [exact H1|]. split.
  - unfold Argparse.parse_args. cbn [Argparse.classify].
    rewrite Hs, Hshort, Hc. reflexivity.
  - unfold Assignment3.board. rewrite H1. reflexivity.
Qed.

(** [--help --l1d_size=1kB] exits with status 0, although the second
    option is unknown. *)
Lemma help_exits_zero_witness :
  Argparse.parse_args Assignment3.parser [u "--help"; u "--l1d_size=1kB"]
  = Raise (SystemExit 0).
Proof.
  exact (proj1 (help_exits_zero [u "--l1d_size=1kB"] [Argparse.TUnknown] Assignment3.X86
                  ltac:(vm_compute; reflexivity))).
Defined.
